(** * AI headshot generator: image intake, prompt templates and generation loop

    A shallow embedding of the TypeScript sources

    - [src/components/ImageUploader.tsx]   ([validateFile]),
    - [src/utils/imageProcessing.ts]       (HEIC detection and conversion,
      PNG conversion, resizing, metadata, filename heuristics),
    - [src/utils/promptGeneration.ts]      (prompt templates, quality score),
    - [src/components/HeadshotGenerator.tsx] (batched generation, regeneration),

    followed by the properties established about them.

    Conventions of the embedding.
    - JavaScript strings are [string]s of 8-bit characters; [toLowerCase]
      lowers the ASCII letters A-Z and leaves every other character alone.
    - Integers ([File.size], [Image.width], indices, scores) are [Z].
    - Other JavaScript numbers are rationals [Q], which hold every finite
      double exactly.  The quotients and products by which
      [optimizeImageSize] sizes its canvas are rounded as IEEE 754 doubles
      ([binary64]) and the canvas takes whole pixels ([canvasSide]).  The
      aspect ratio of the metadata and the megabytes of the quality score
      are kept as exact quotients: their rounding is not modelled.
    - Promises run on a virtual clock counted in milliseconds.  What the
      browser, the heic2any library and the hosted service answer is given
      by oracles; every answer is indexed by the number of questions asked
      so far, so that two loads of one file may be answered at different
      speeds, the second may fail where the first did not, and a call of
      the service may never be answered. *)

From Stdlib Require Import Bool Arith ZArith QArith Qminmax Qround Qabs Qpower.
From Stdlib Require Import List String Ascii Lia Lqa.
From Stdlib Require Import DecimalString.
From Stdlib Require DecimalPos DecimalZ.
Import ListNotations.

Open Scope string_scope.

(* ================================================================== *)
(** ** JavaScript string operations used by the sources *)
(* ================================================================== *)

Module Js.

  (** One character of [String.prototype.toLowerCase]. *)
Definition lowerChar (c : ascii) : ascii :=
    let n := nat_of_ascii c in
    if (65 <=? n)%nat && (n <=? 90)%nat then ascii_of_nat (n + 32) else c.

Fixpoint toLowerCase (s : string) : string :=
    match s with
    | EmptyString => EmptyString
    | String c s' => String (lowerChar c) (toLowerCase s')
    end.

  (** [s.startsWith(p)]. *)
Definition startsWith (s p : string) : bool := String.prefix p s.

  (** [s.endsWith(suf)]: some tail of [s] is [suf]. *)
Fixpoint endsWith (s suf : string) : bool :=
    String.eqb s suf ||
    match s with
    | EmptyString => false
    | String _ s' => endsWith s' suf
    end.

  (** [s.includes(sub)]: [sub] starts at some position of [s]. *)
Fixpoint includes (s sub : string) : bool :=
    String.prefix sub s ||
    match s with
    | EmptyString => false
    | String _ s' => includes s' sub
    end.

  (** The character class [[^/.]]. *)
Definition extChar (c : ascii) : bool :=
    negb (Ascii.eqb c "."%char) && negb (Ascii.eqb c "/"%char).

Fixpoint allExtChars (s : string) : bool :=
    match s with
    | EmptyString => true
    | String c s' => extChar c && allExtChars s'
    end.

  (** Does [/\.[^/.]+$/] match at the very start of [s] (up to its end)? *)
Definition anyExtensionHere (s : string) : bool :=
    match s with
    | String "."%char (String c rest) => allExtChars (String c rest)
    | _ => false
    end.

  (** [s.replace(/\.[^/.]+$/, '.png')]: the leftmost match is replaced,
      a string without a match is returned as it is. *)
Fixpoint replaceAnyExtension (s : string) : string :=
    if anyExtensionHere s then ".png"
    else match s with
         | EmptyString => EmptyString
         | String c s' => String c (replaceAnyExtension s')
         end.

  (** Does [/\.(heic|heif)$/i] match at the very start of [s]? *)
Definition heicExtensionHere (s : string) : bool :=
    String.eqb (toLowerCase s) ".heic" || String.eqb (toLowerCase s) ".heif".

  (** [s.replace(/\.(heic|heif)$/i, '.png')]. *)
Fixpoint replaceHeicExtension (s : string) : string :=
    if heicExtensionHere s then ".png"
    else match s with
         | EmptyString => EmptyString
         | String c s' => String c (replaceHeicExtension s')
         end.

  (** [s.match(/\.(jpg|jpeg|png|webp|heic|heif)$/)] is not [null]. *)
Definition imageExtensions : list string :=
    ["jpg"; "jpeg"; "png"; "webp"; "heic"; "heif"].

Definition matchesImageExtension (s : string) : bool :=
    existsb (fun e => endsWith s ("." ++ e)) imageExtensions.

  (** [Array.prototype.includes] on an array of strings. *)
Definition arrayIncludes (xs : list string) (x : string) : bool :=
    existsb (String.eqb x) xs.

  (** [xs.slice(start, end)] with JavaScript's relative indices: a negative
      index counts from the end, and both are clamped to the array. *)
Definition relIndex (len i : Z) : Z :=
    if (i <? 0)%Z then Z.max (len + i) 0 else Z.min i len.

Definition slice {A : Type} (xs : list A) (start stop : Z) : list A :=
    let len := Z.of_nat (List.length xs) in
    let k := relIndex len start in
    let e := relIndex len stop in
    firstn (Z.to_nat (e - k)) (skipn (Z.to_nat k) xs).

End Js.

(* ================================================================== *)
(** ** Files *)
(* ================================================================== *)

(** The bytes of a blob are kept abstract: two blobs with the same
    [blob_content] hold the same bytes. *)
Record Blob : Type := mkBlob {
  blob_content : nat;
  blob_size : Z
}.

(** A DOM [File]: name, MIME type, and the blob it wraps. *)
Record File : Type := mkFile {
  name : string;
  type : string;
  body : Blob
}.

Definition size (f : File) : Z := blob_size (body f).

(** [new File([blob], name, { type })]. *)
Definition newFile (b : Blob) (n t : string) : File := mkFile n t b.

(* ================================================================== *)
(** ** ImageUploader.tsx: [validateFile] *)
(* ================================================================== *)

Module Uploader.

Definition validTypes : list string :=
    ["image/jpeg"; "image/jpg"; "image/png"; "image/webp";
     "image/heic"; "image/heif"].

Definition isValidType (file : File) : bool :=
    Js.arrayIncludes validTypes (type file) ||
    Js.matchesImageExtension (Js.toLowerCase (name file)).

Definition invalidTypeMessage : string :=
    "Please select a valid image file (JPG, PNG, WebP, or HEIC)".
Definition tooLargeMessage : string := "File size must be less than 20MB".
Definition tooSmallMessage : string :=
    "File appears to be too small or corrupted".

  (** [null] is [None]; an error string is [Some]. *)
Definition validateFile (file : File) : option string :=
    if negb (isValidType file) then Some invalidTypeMessage
    else if (size file >? 20 * 1024 * 1024)%Z then Some tooLargeMessage
    else if (size file <? 1024)%Z then Some tooSmallMessage
    else None.

End Uploader.

(* ================================================================== *)
(** ** promptGeneration.ts *)
(* ================================================================== *)

Inductive Gender : Type := male | female | gender_unknown.
Inductive AgeGroup : Type := young | adult | mature | age_unknown.
Inductive Attire : Type := casual | business | formal | attire_unknown.
Inductive Setting : Type := indoor | outdoor | studio | setting_unknown.
Inductive Quality : Type := high | medium | low.

Record PersonAnalysis : Type := mkAnalysis {
  gender : Gender;
  ageGroup : AgeGroup;
  attire : Attire;
  setting : Setting;
  quality : Quality
}.

Module Meta.
Record ImageMetadata : Type := mkMetadata {
    width : Z;
    height : Z;
    aspectRatio : Q;
    format : string;
    size : Z;
    hasTransparency : bool
  }.
End Meta.

Definition attire_eqb (a b : Attire) : bool :=
  match a, b with
  | casual, casual | business, business | formal, formal
  | attire_unknown, attire_unknown => true
  | _, _ => false
  end.

Definition quality_eqb (a b : Quality) : bool :=
  match a, b with
  | high, high | medium, medium | low, low => true
  | _, _ => false
  end.

(** [a < b] on numbers. *)
Definition lt_bool (a b : Q) : bool := negb (Qle_bool b a).

Module Prompts.

Definition qualitySettings : string :=
    "high resolution, studio photography, professional lighting, sharp focus, clean composition".

Record StyleVariation : Type := mkStyle {
    style_name : string;
    background : string;
    style_attire : string;
    lighting : string;
    mood : string;
    style : string
  }.

Definition styleVariations : list StyleVariation :=
    [ mkStyle "Corporate Executive" "clean white background"
        "formal business suit"
        "professional studio lighting with soft shadows"
        "confident and approachable expression"
        "corporate headshot photography style";
      mkStyle "Creative Professional" "subtle gradient background"
        "modern business attire" "warm natural lighting"
        "friendly and creative expression"
        "contemporary portrait photography";
      mkStyle "LinkedIn Profile" "soft blue professional background"
        "business casual outfit" "even studio lighting"
        "professional smile and direct eye contact"
        "social media profile photography";
      mkStyle "Executive Portrait" "neutral gray backdrop"
        "premium business formal wear" "dramatic professional lighting"
        "serious and trustworthy demeanor"
        "executive portrait photography";
      mkStyle "Approachable Professional" "soft warm background blur"
        "smart casual business attire" "soft diffused lighting"
        "warm smile and engaging expression"
        "lifestyle business photography";
      mkStyle "Tech Professional" "minimalist clean background"
        "modern business casual" "crisp even lighting"
        "innovative and focused expression"
        "tech industry headshot style" ].

Definition promptOf (s : StyleVariation) : string :=
    "Professional headshot transformation: " ++ background s ++
    ", wearing " ++ style_attire s ++ ", " ++ lighting s ++ ", " ++
    mood s ++ ", " ++ style s ++ ", " ++ qualitySettings ++
    ", maintain original facial features and identity, photorealistic transformation, 85mm lens, commercial photography quality".

  (** [count] has the default value 4 in the source; callers of the
      embedding pass it explicitly. *)
Definition generateHeadshotPrompts
      (analysis : PersonAnalysis) (metadata : Meta.ImageMetadata) (count : Z)
      : list string :=
    let selectedStyles :=
      Js.slice styleVariations 0
        (Z.min count (Z.of_nat (List.length styleVariations))) in
    map promptOf selectedStyles.

Definition calculateQualityScore
      (analysis : PersonAnalysis) (metadata : Meta.ImageMetadata) : Z :=
    let score := 0%Z in
    (* Resolution score *)
    let score :=
      if (Meta.width metadata >=? 1024)%Z && (Meta.height metadata >=? 1024)%Z
      then (score + 40)%Z
      else if (Meta.width metadata >=? 512)%Z && (Meta.height metadata >=? 512)%Z
      then (score + 25)%Z
      else (score + 10)%Z in
    (* Aspect ratio score *)
    let aspectRatio := Meta.aspectRatio metadata in
    let score :=
      if Qle_bool (75 # 100) aspectRatio && Qle_bool aspectRatio (133 # 100)
      then (score + 20)%Z
      else if Qle_bool (5 # 10) aspectRatio && Qle_bool aspectRatio 2
      then (score + 10)%Z
      else (score + 5)%Z in
    (* Quality assessment score *)
    let score :=
      if quality_eqb (quality analysis) high then (score + 20)%Z
      else if quality_eqb (quality analysis) medium then (score + 15)%Z
      else (score + 5)%Z in
    (* File size score *)
    let sizeMB := (inject_Z (Meta.size metadata) / inject_Z (1024 * 1024))%Q in
    let score :=
      if Qle_bool (5 # 10) sizeMB && Qle_bool sizeMB 5 then (score + 10)%Z
      else if Qle_bool (1 # 10) sizeMB && Qle_bool sizeMB 10 then (score + 5)%Z
      else score in
    (* Bonus points for professional context *)
    let score :=
      if attire_eqb (attire analysis) business
         || attire_eqb (attire analysis) formal
      then (score + 10)%Z
      else if attire_eqb (attire analysis) casual then (score + 5)%Z
      else score in
    Z.min 100 score.

Record BatchMetadata : Type := mkBatchMetadata {
    suggestedStyles : list string;
    qualityScore : Z
  }.

Record BatchPrompts : Type := mkBatchPrompts {
    prompts : list string;
    metadata : BatchMetadata
  }.

Definition generateBatchPrompts
      (analysis : PersonAnalysis) (metadata : Meta.ImageMetadata) (batchSize : Z)
      : BatchPrompts :=
    let prompts := generateHeadshotPrompts analysis metadata batchSize in
    let qualityScore := calculateQualityScore analysis metadata in
    let suggestedStyles :=
      Js.slice
        ["Corporate Executive"; "Creative Professional";
         "LinkedIn Profile"; "Executive Portrait"]
        0 batchSize in
    mkBatchPrompts prompts (mkBatchMetadata suggestedStyles qualityScore).

Definition getImageRecommendations
      (analysis : PersonAnalysis) (metadata : Meta.ImageMetadata) : list string :=
    let qualityScore := calculateQualityScore analysis metadata in
    if (qualityScore <? 70)%Z then
      (if (Meta.width metadata <? 512)%Z || (Meta.height metadata <? 512)%Z
       then ["Use a higher resolution image (at least 512x512 pixels) for better results"]
       else [])
      ++ (if quality_eqb (quality analysis) low
          then ["Try using a clearer, well-lit photo for optimal AI generation"]
          else [])
      ++ (if lt_bool (Meta.aspectRatio metadata) (5 # 10)
             || lt_bool 2 (Meta.aspectRatio metadata)
          then ["Use a portrait or square-oriented photo that focuses on the face"]
          else [])
      ++ (if attire_eqb (attire analysis) attire_unknown
          then ["Wearing professional attire in the photo will improve headshot results"]
          else [])
    else [].

End Prompts.

(* ================================================================== *)
(** ** Promises on a virtual clock *)
(* ================================================================== *)

(** How an awaited promise (or an [async] function) ends. *)
Inductive Result (A : Type) : Type :=
| Ok (a : A)                (* fulfilled with [a] *)
| Throw (message : string)  (* rejected with [new Error(message)] *)
| Hang.                     (* never settles *)
Arguments Ok {A} a.
Arguments Throw {A} message.
Arguments Hang {A}.

(** What the image utilities ask of their surroundings. *)
Inductive Event : Type :=
| ImageSrc (f : File)              (* [img.src = objectUrl] *)
| ToBlob (src : File) (w h : Z)    (* [src] drawn on a canvas of [w] x [h] pixels, [toBlob] called *)
| Heic2any (f : File).             (* the heic2any library is called *)

Record World : Type := mkWorld {
  now : N;              (* milliseconds elapsed *)
  asked : nat;          (* promises created so far *)
  log : list Event
}.

(** Code that runs over a state [S] and returns, throws or hangs. *)
Definition St (S A : Type) : Type := S -> S * Result A.

Definition ret {S A : Type} (a : A) : St S A := fun s => (s, Ok a).

Definition throw {S A : Type} (message : string) : St S A :=
  fun s => (s, Throw message).

Definition bind {S A B : Type} (m : St S A) (k : A -> St S B) : St S B :=
  fun s =>
    match m s with
    | (s1, Ok a) => k a s1
    | (s1, Throw message) => (s1, Throw message)
    | (s1, Hang) => (s1, Hang)
    end.

(** [try { m } catch (error) { handler(error.message) }]. *)
Definition tryCatch {S A : Type} (m : St S A) (handler : string -> St S A)
    : St S A :=
  fun s =>
    match m s with
    | (s1, Throw message) => handler message s1
    | other => other
    end.

Notation "x <- m ;; k" := (bind m (fun x => k))
  (at level 61, m at next level, right associativity).

(** The image utilities run over [World]. *)
Definition M (A : Type) : Type := St World A.

Local Open Scope N_scope.

(** A promise whose executor starts a timer of [ms] milliseconds that
    settles it with [onTimeout], while the handlers it registered settle it
    with [r] after [d] milliseconds ([first = Some (d, r)]) or never run to
    a settling call ([first = None]).  The first settling call wins; a
    handler due at the very millisecond of the timer loses to it. *)
Definition settle {A : Type} (ms : N) (onTimeout : Result A)
    (events : list Event) (first : option (N * Result A)) : M A :=
  fun w =>
    let outcome :=
      match first with
      | Some (d, r) => if d <? ms then (d, r) else (ms, onTimeout)
      | None => (ms, onTimeout)
      end in
    (mkWorld (now w + fst outcome) (S (asked w)) (log w ++ events),
     snd outcome).

(** The surroundings of the image utilities.  [new Image()],
    [URL.createObjectURL] and [document.createElement] are taken not to
    throw. *)
Record Browser : Type := mkBrowser {
  (** natural size of the picture that the bytes of the file decode to;
      [None]: the browser cannot decode them *)
  intrinsic : File -> option (Z * Z);
  (** the image of the promise created after [k] others gets the bytes of
      the file (a file picked from disk can have changed or gone by then) *)
  readable : nat -> File -> bool;
  (** milliseconds until [onload]/[onerror] fires; [None]: neither fires *)
  imageDelay : nat -> File -> option N;
  (** [canvas.getContext('2d')] is not [null] *)
  context2d : bool;
  (** message of the exception thrown while the canvas is sized to, and
      the file drawn at, the given width and height *)
  drawImage : File -> Q -> Q -> option string;
  (** delay and argument of the [toBlob] callback of the canvas so sized
      and drawn; [None]: never called *)
  toBlob : nat -> File -> Q -> Q -> option (N * option Blob);
  (** delay and outcome of importing and calling heic2any: a blob, or a
      thrown value with its [message] if it has one; [None]: never settles *)
  heic2any : nat -> File -> option (N * (Blob + option string))
}.

(* ================================================================== *)
(** ** imageProcessing.ts *)
(* ================================================================== *)

Definition nl : string := String (ascii_of_nat 10) EmptyString.

Definition heicNotSupportedMessage : string :=
  "HEIC_NOT_SUPPORTED: Your HEIC image cannot be processed in this browser. Please:"
  ++ nl ++ nl ++ "1. Open the image on your iPhone/Mac"
  ++ nl ++ "2. Export or save it as JPEG or PNG"
  ++ nl ++ "3. Upload the converted file"
  ++ nl ++ nl ++
  "Alternatively, try using Safari browser which has better HEIC support.".

Definition isHeicFile (file : File) : bool :=
  let isHeicType :=
    String.eqb (type file) "image/heic" || String.eqb (type file) "image/heif" in
  let isHeicExtension :=
    Js.endsWith (Js.toLowerCase (name file)) ".heic"
    || Js.endsWith (Js.toLowerCase (name file)) ".heif" in
  isHeicType || isHeicExtension.

(** The messages by which the three canvas promises differ. *)
Record CanvasMessages : Type := mkCanvasMessages {
  noBlob : string;
  noContext : string;
  wrapError : string -> string;
  loadError : string;
  timeoutError : string
}.

(** *** Numbers of the canvas *)

(** The nearest integer, the even one of two that are equally near. *)
Definition roundHalfEven (q : Q) : Z :=
  let f := Qfloor q in
  match Qcompare (q - inject_Z f) (1 # 2) with
  | Lt => f
  | Gt => (f + 1)%Z
  | Eq => if Z.even f then f else (f + 1)%Z
  end.

(** The power of two at or below [|q|], for [q] other than 0: the integer
    [e] with [2^e <= |q| < 2^(e+1)]. *)
Definition binade (q : Q) : Z :=
  let k := (Z.log2 (Z.abs (Qnum q)) - Z.log2 (Zpos (Qden q)))%Z in
  if Qle_bool (2 ^ k) (Qabs q) then k else (k - 1)%Z.

(** The result of a multiplication or division of JavaScript numbers whose
    exact value is [q]: the nearest number with 53 significant bits, ties
    to the even one (IEEE 754 binary64, round to nearest even).  This is
    the double that the source computes as long as [|q|] lies between
    2^-1022 and 2^1024, as all sizes and ratios of pictures do; overflow to
    infinity and the coarser steps below 2^-1022 are left out. *)
Definition binary64 (q : Q) : Q :=
  if Qeq_bool q 0 then 0%Q
  else
    let ulp := (2 ^ (binade q - 52))%Q in
    Qred (inject_Z (roundHalfEven (q / ulp)) * ulp).

(** The conversion of a number to an [unsigned long]: its integer part,
    modulo 2^32. *)
Definition toUint32 (x : Q) : Z :=
  (Z.quot (Qnum x) (Zpos (Qden x)) mod 2 ^ 32)%Z.

(** [canvas.width = x] and [canvas.height = x]: the side of the canvas in
    whole pixels.  The attribute takes the converted value if that is at
    most 2^31 - 1, and its [default] (300 for the width, 150 for the
    height) otherwise. *)
Definition canvasSide (default : Z) (x : Q) : Z :=
  let n := toUint32 x in
  if (n <=? 2147483647)%Z then n else default.

Definition canvasSize (dims : Q * Q) : Z * Z :=
  (canvasSide 300 (fst dims), canvasSide 150 (snd dims)).

(** [optimizeImageSize], "Calculate new dimensions": the values of
    [width] and [height] after the [if].  Both sides of the image are
    positive when this is reached (the validation before it saw to that),
    so nothing is divided by zero. *)
Definition optimizedDimensions (maxWidth maxHeight : Q) (imgWidth imgHeight : Z)
    : Q * Q :=
  let width := inject_Z imgWidth in
  let height := inject_Z imgHeight in
  if lt_bool maxWidth width || lt_bool maxHeight height then
    let ratio :=
      Qmin (binary64 (maxWidth / width)) (binary64 (maxHeight / height)) in
    (binary64 (width * ratio), binary64 (height * ratio))
  else (width, height).

(** [convertImageToPng] and [tryNativeHeicConversion] keep the size. *)
Definition sameDimensions (imgWidth imgHeight : Z) : Q * Q :=
  (inject_Z imgWidth, inject_Z imgHeight).

Section ImageProcessing.

Variable B : Browser.

(** What the image of the promise created after [k] others makes of the
    file: its natural size when [onload] fires, [None] when [onerror]
    fires. *)
Definition loaded (k : nat) (file : File) : option (Z * Z) :=
  if readable B k file then intrinsic B file else None.

Definition validateImageFile (file : File) : M bool :=
  fun w =>
    let first :=
      match imageDelay B (asked w) file with
      | None => None
      | Some d =>
          match loaded (asked w) file with
          | Some (imgWidth, imgHeight) =>      (* img.onload *)
              Some (d, Ok ((imgWidth >? 0)%Z && (imgHeight >? 0)%Z))
          | None => Some (d, Ok false)         (* img.onerror *)
          end
      end in
    settle 5000 (Ok false) [ImageSrc file] first w.

(** The library call inside [convertHeicToPng]'s [try]. *)
Definition awaitHeic2any (file : File) : M Blob :=
  fun w =>
    let w1 d := mkWorld (now w + d) (S (asked w)) (log w ++ [Heic2any file]) in
    match heic2any B (asked w) file with
    | None => (w1 0, Hang)
    | Some (d, inl blob) => (w1 d, Ok blob)
    | Some (d, inr (Some message)) => (w1 d, Throw message)
    | Some (d, inr None) =>
        (w1 d, Throw "HEIC format not supported in this browser")
    end.

Definition convertHeicToPng (file : File) : M File :=
  tryCatch
    (blob <- awaitHeic2any file ;;
     ret (newFile blob (Js.replaceHeicExtension (name file)) "image/png"))
    (fun errorMessage =>
       throw ("HEIC_CONVERSION_FAILED: " ++ errorMessage ++
              ". Please convert your image to JPEG or PNG format on your device before uploading.")).

(** The promise shared in shape by [tryNativeHeicConversion],
    [convertImageToPng] and [optimizeImageSize]: load the file into an
    [Image], set the width and height of a canvas to [dims] of its size,
    draw it there, export the canvas as PNG under the name
    [rename (name file)]; a timer of 10000ms. *)
Definition canvasPromise (file : File) (dims : Z -> Z -> Q * Q)
    (rename : string -> string) (msg : CanvasMessages) : M File :=
  fun w =>
    let k := asked w in
    let handlers : list Event * option (N * Result File) :=
      match imageDelay B k file with
      | None => ([], None)
      | Some d =>
          match loaded k file with
          | None => ([], Some (d, Throw (loadError msg)))     (* img.onerror *)
          | Some (imgWidth, imgHeight) =>                     (* img.onload *)
              let (width, height) := dims imgWidth imgHeight in
              if context2d B then
                match drawImage B file width height with
                | Some message => ([], Some (d, Throw (wrapError msg message)))
                | None =>
                    ([ToBlob file (canvasSide 300 width) (canvasSide 150 height)],
                     match toBlob B k file width height with
                     | None => None
                     | Some (d', Some blob) =>
                         Some (d + d',
                               Ok (newFile blob (rename (name file)) "image/png"))
                     | Some (d', None) => Some (d + d', Throw (noBlob msg))
                     end)
                end
              else ([], Some (d, Throw (noContext msg)))
          end
      end in
    settle 10000 (Throw (timeoutError msg))
      (ImageSrc file :: fst handlers) (snd handlers) w.

Definition nativeHeicMessages : CanvasMessages :=
  mkCanvasMessages
    "Failed to convert HEIC using native browser support"
    "Canvas context not available"
    (fun message => message)
    "Browser cannot load HEIC image"
    "HEIC conversion timeout".

Definition convertMessages : CanvasMessages :=
  mkCanvasMessages
    "Failed to convert image to PNG format"
    "Unable to get canvas rendering context"
    (fun message => "Image processing failed: " ++ message)
    "Unable to load image - file may be corrupted or in an unsupported format"
    "Image loading timeout - file may be too large or corrupted".

Definition optimizeMessages : CanvasMessages :=
  mkCanvasMessages
    "Failed to optimize image"
    "Unable to get canvas context for optimization"
    (fun message => "Image optimization failed: " ++ message)
    "Unable to load image for optimization"
    "Image optimization timeout".

Definition nativeHeicPromise (file : File) : M File :=
  canvasPromise file sameDimensions Js.replaceHeicExtension nativeHeicMessages.

Definition tryNativeHeicConversion (file : File) : M File :=
  isValid <- validateImageFile file ;;
  if negb isValid
  then throw "Browser does not support HEIC format natively"
  else nativeHeicPromise file.

Definition convertPromise (file : File) : M File :=
  canvasPromise file sameDimensions Js.replaceAnyExtension convertMessages.

Definition convertImageToPng (file : File) : M File :=
  if isHeicFile file then
    tryCatch (convertHeicToPng file)
      (fun _ =>
         tryCatch (tryNativeHeicConversion file)
           (fun _ => throw heicNotSupportedMessage))
  else
    isValid <- validateImageFile file ;;
    if negb isValid
    then throw "Invalid or corrupted image file"
    else convertPromise file.

Definition optimizePromise (file : File) (maxWidth maxHeight : Q) : M File :=
  canvasPromise file (optimizedDimensions maxWidth maxHeight)
    Js.replaceAnyExtension optimizeMessages.

(** [optimizeImageSize] calls itself on the converted file; [fuel] bounds
    the depth of that recursion and [None] says it was used up. *)
Fixpoint optimizeImageSize (fuel : nat) (file : File) (maxWidth maxHeight : Q)
    (w : World) : option (World * Result File) :=
  match fuel with
  | O => None
  | S fuel' =>
      if isHeicFile file then
        match convertImageToPng file w with
        | (w1, Ok convertedFile) =>
            optimizeImageSize fuel' convertedFile maxWidth maxHeight w1
        | (w1, Throw message) => Some (w1, Throw message)
        | (w1, Hang) => Some (w1, Hang)
        end
      else
        Some ((isValid <- validateImageFile file ;;
               if negb isValid
               then throw "Invalid image file for optimization"
               else optimizePromise file maxWidth maxHeight) w)
  end.

Definition metadataOf (file : File) (imgWidth imgHeight : Z) : Meta.ImageMetadata :=
  Meta.mkMetadata imgWidth imgHeight
    (inject_Z imgWidth / inject_Z imgHeight)%Q
    (type file)
    (size file)
    (String.eqb (type file) "image/png" || String.eqb (type file) "image/webp").

Definition metadataPromise (file : File) : M Meta.ImageMetadata :=
  fun w =>
    let first :=
      match imageDelay B (asked w) file with
      | None => None
      | Some d =>
          match loaded (asked w) file with
          | Some (imgWidth, imgHeight) =>
              Some (d, Ok (metadataOf file imgWidth imgHeight))
          | None => Some (d, Throw "Unable to extract image metadata")
          end
      end in
    settle 5000 (Throw "Metadata extraction timeout") [ImageSrc file] first w.

Fixpoint getImageMetadata (fuel : nat) (file : File) (w : World)
    : option (World * Result Meta.ImageMetadata) :=
  match fuel with
  | O => None
  | S fuel' =>
      if isHeicFile file then
        match convertImageToPng file w with
        | (w1, Ok convertedFile) => getImageMetadata fuel' convertedFile w1
        | (w1, Throw message) => Some (w1, Throw message)
        | (w1, Hang) => Some (w1, Hang)
        end
      else
        Some ((isValid <- validateImageFile file ;;
               if negb isValid
               then throw "Invalid image file for metadata extraction"
               else metadataPromise file) w)
  end.

(** The filename heuristics of [analyzeImageContent]. *)
Definition genderOf (filename : string) : Gender :=
  if Js.includes filename "female" || Js.includes filename "woman"
     || Js.includes filename "girl" then female
  else if Js.includes filename "male" || Js.includes filename "man"
          || Js.includes filename "boy" then male
  else gender_unknown.

Definition ageGroupOf (filename : string) : AgeGroup :=
  if Js.includes filename "young" || Js.includes filename "teen"
     || Js.includes filename "junior" then young
  else if Js.includes filename "senior" || Js.includes filename "elder"
          || Js.includes filename "mature" then mature
  else adult.

Definition attireOf (filename : string) : Attire :=
  if Js.includes filename "business" || Js.includes filename "professional"
     || Js.includes filename "corporate" then business
  else if Js.includes filename "formal" || Js.includes filename "suit"
          || Js.includes filename "dress" then formal
  else if Js.includes filename "casual" || Js.includes filename "tshirt"
          || Js.includes filename "jeans" then casual
  else attire_unknown.

(** "Quality assessment based on resolution". *)
Definition qualityOf (metadata : Meta.ImageMetadata) : Quality :=
  if (Meta.width metadata >=? 1024)%Z && (Meta.height metadata >=? 1024)%Z
  then high
  else if (Meta.width metadata >=? 512)%Z && (Meta.height metadata >=? 512)%Z
  then medium
  else low.

Definition analyzeImageContent (fuel : nat) (file : File) (w : World)
    : option (World * Result PersonAnalysis) :=
  match getImageMetadata fuel file w with
  | None => None
  | Some (w1, Ok metadata) =>
      let filename := Js.toLowerCase (name file) in
      let gender := genderOf filename in
      let ageGroup := ageGroupOf filename in
      let attire := attireOf filename in
      let setting := setting_unknown in
      let quality := qualityOf metadata in
      Some (w1, Ok (mkAnalysis gender ageGroup attire setting quality))
  | Some (w1, Throw message) => Some (w1, Throw message)
  | Some (w1, Hang) => Some (w1, Hang)
  end.

End ImageProcessing.

(* ================================================================== *)
(** ** HeadshotGenerator.tsx *)
(* ================================================================== *)

Local Open Scope Z_scope.

(** Decimal text of a number inside a template literal. *)
Definition decimal (z : Z) : string := NilZero.string_of_int (Z.to_int z).

Record ProcessedImageData : Type := mkImageData {
  file : File;
  originalFile : File;
  url : string;
  metadata : Meta.ImageMetadata;
  analysis : PersonAnalysis;
  base64 : string;
  qualityScore : Z;
  recommendations : list string
}.

Record GeneratedImage : Type := mkGenerated {
  image_url : string;
  image_style : string;
  image_prompt : string;
  image_index : Z
}.

(** The argument of [blink.ai.modifyImage]. *)
Record Request : Type := mkRequest {
  images : list string;
  prompt : string;
  request_quality : string;
  n : Z
}.

(** What the component does that can be seen from outside. *)
Inductive Action : Type :=
| Upload (f : File)                 (* [blink.storage.upload] *)
| Batch (requests : list Request)   (* [modifyImage] calls started together, awaited by [Promise.all] *)
| Single (request : Request)        (* one [modifyImage] call awaited on its own *)
| Delay (ms : Z)                    (* [setTimeout(resolve, ms)] awaited *)
| ToastLoading (message : string)
| ToastSuccess (message : string)
| ToastError (message : string).

(** The hosted service: the [publicUrl] of an upload and the [data[0].url]
    of a modification, [None] when the call throws (or the answer has no
    such field).  Answers are indexed by the number of calls made before.
    The code awaits these calls without a timer of its own: [settles k]
    says whether the call made after [k] others is answered at all. *)
Record Service : Type := mkService {
  storageUpload : nat -> File -> option string;
  modifyImage : nat -> Request -> option string;
  settles : nat -> bool
}.

(** Component state ([useState]) and the record of its actions.  The
    progress bar and the batch counter are display only and left out. *)
Record Ui : Type := mkUi {
  generatedImages : list GeneratedImage;
  isGenerating : bool;
  calls : nat;
  actions : list Action
}.

Definition act (a : Action) (ui : Ui) : Ui :=
  mkUi (generatedImages ui) (isGenerating ui) (calls ui) (actions ui ++ [a]).

Definition setIsGenerating (b : bool) (ui : Ui) : Ui :=
  mkUi (generatedImages ui) b (calls ui) (actions ui).

Definition setGeneratedImages
    (update : list GeneratedImage -> list GeneratedImage) (ui : Ui) : Ui :=
  mkUi (update (generatedImages ui)) (isGenerating ui) (calls ui) (actions ui).

Definition requestFor (imageUrl prompt : string) : Request :=
  mkRequest [imageUrl]
    ("Generate professional business headshot with studio lighting for this person. "
     ++ prompt)
    "high" 1.

(** [metadata.suggestedStyles[actualIndex] || `Style ${actualIndex + 1}`]. *)
Definition styleAt (suggestedStyles : list string) (actualIndex : Z) : string :=
  let fallback := "Style " ++ decimal (actualIndex + 1) in
  if actualIndex <? 0 then fallback
  else match nth_error suggestedStyles (Z.to_nat actualIndex) with
       | Some s => if String.eqb s "" then fallback else s
       | None => fallback
       end.

Definition batchSize : Z := 2.

(** [xs.entries()] / the second argument of a [map] callback. *)
Fixpoint indexed {A : Type} (from : Z) (xs : list A) : list (Z * A) :=
  match xs with
  | [] => []
  | x :: xs' => (from, x) :: indexed (from + 1) xs'
  end.

(** [Promise.all]: rejected as soon as one of the promises is rejected,
    also while others are pending; otherwise pending as long as one of them
    is; otherwise fulfilled with all the values. *)
Fixpoint promiseAll {A : Type} (outcomes : list (Result A)) : Result (list A) :=
  match outcomes with
  | [] => Ok []
  | Throw message :: _ => Throw message
  | Ok a :: rest =>
      match promiseAll rest with
      | Ok rest' => Ok (a :: rest')
      | Throw message => Throw message
      | Hang => Hang
      end
  | Hang :: rest =>
      match promiseAll rest with
      | Throw message => Throw message
      | _ => Hang
      end
  end.

(** The value of a promise, passed through [f] when there is one. *)
Definition thenMap {A C : Type} (f : A -> C) (r : Result A) : Result C :=
  match r with
  | Ok a => Ok (f a)
  | Throw message => Throw message
  | Hang => Hang
  end.

Section Generator.

Variable service : Service.

(** How the call made after [k] others ends for the code that awaits it. *)
Definition answered {A : Type} (k : nat) (answer : option A) (message : string)
    : Result A :=
  if settles service k then
    match answer with
    | Some a => Ok a
    | None => Throw message
    end
  else Hang.

(** [await blink.ai.modifyImage(request)] on its own. *)
Definition awaitModifyImage (request : Request) : St Ui string :=
  fun ui =>
    let ui1 := mkUi (generatedImages ui) (isGenerating ui) (S (calls ui))
                 (actions ui ++ [Single request]) in
    (ui1,
     answered (calls ui) (modifyImage service (calls ui) request)
       "modifyImage failed").

(** [await Promise.all(batchPrompts.map(async ...))]: every call of the
    batch is started before the first answer is awaited. *)
Definition awaitBatch (imageUrl : string) (suggestedStyles : list string)
    (i : Z) (batchPrompts : list string) : St Ui (list GeneratedImage) :=
  fun ui =>
    let requests := map (requestFor imageUrl) batchPrompts in
    let outcomes :=
      map (fun jr =>
             let k := (calls ui + Z.to_nat (fst jr))%nat in
             thenMap (fun u =>
                        let actualIndex := i + fst jr in
                        mkGenerated u (styleAt suggestedStyles actualIndex)
                          (snd jr) actualIndex)
               (answered k (modifyImage service k (requestFor imageUrl (snd jr)))
                  "modifyImage failed"))
          (indexed 0 batchPrompts) in
    let ui1 := mkUi (generatedImages ui) (isGenerating ui)
                 (calls ui + List.length batchPrompts)
                 (actions ui ++ [Batch requests]) in
    (ui1, promiseAll outcomes).

(** "If batch fails, try individual generation".  The [catch] block of an
    item evaluates [actualIndex], which is declared with [const] inside the
    [try] block and is not in scope there: logging the failure raises a
    ReferenceError that leaves the loop. *)
Fixpoint retryIndividually (imageUrl : string) (suggestedStyles : list string)
    (i : Z) (entries : list (Z * string)) (images : list GeneratedImage)
    : St Ui (list GeneratedImage) :=
  match entries with
  | [] => ret images
  | (batchIndex, prompt) :: rest =>
      images1 <-
        tryCatch
          (let actualIndex := i + batchIndex in
           u <- awaitModifyImage (requestFor imageUrl prompt) ;;
           ret (images ++
                [mkGenerated u (styleAt suggestedStyles actualIndex)
                   prompt actualIndex])%list)
          (fun individualError => throw "actualIndex is not defined") ;;
      retryIndividually imageUrl suggestedStyles i rest images1
  end.

Definition delay (ms : Z) : St Ui unit :=
  fun ui => (act (Delay ms) ui, Ok tt).

(** The [for (let i = 0; i < prompts.length; i += batchSize)] loop, entered
    at [i]; [fuel] bounds the number of iterations and [None] says it was
    used up. *)
Fixpoint batchLoop (fuel : nat) (imageUrl : string)
    (suggestedStyles prompts : list string) (i : Z)
    (images : list GeneratedImage) (ui : Ui)
    : option (Ui * Result (list GeneratedImage)) :=
  if i <? Z.of_nat (List.length prompts) then
    match fuel with
    | O => None
    | S fuel' =>
        let batchPrompts := Js.slice prompts i (i + batchSize) in
        let iteration : St Ui (list GeneratedImage) :=
          images1 <-
            tryCatch
              (batchResults <- awaitBatch imageUrl suggestedStyles i batchPrompts ;;
               ret (images ++ batchResults)%list)
              (fun _ =>
                 retryIndividually imageUrl suggestedStyles i
                   (indexed 0 batchPrompts) images) ;;
          _ <- (if i + batchSize <? Z.of_nat (List.length prompts)
                then delay 500 else ret tt) ;;
          ret images1 in
        match iteration ui with
        | (ui1, Ok images1) =>
            batchLoop fuel' imageUrl suggestedStyles prompts (i + batchSize)
              images1 ui1
        | (ui1, Throw message) => Some (ui1, Throw message)
        | (ui1, Hang) => Some (ui1, Hang)
        end
    end
  else Some (ui, Ok images).

(** "If URL is not HTTPS, upload the file to get proper URL". *)
Definition httpsUrl (imageData : ProcessedImageData) : St Ui string :=
  if negb (Js.startsWith (url imageData) "https://") then
    fun ui =>
      let ui1 := mkUi (generatedImages ui) (isGenerating ui) (S (calls ui))
                   (actions ui ++ [Upload (file imageData)]) in
      (ui1,
       answered (calls ui) (storageUpload service (calls ui) (file imageData))
         "upload failed")
  else ret (url imageData).

(** The body of the [try] block of [generateHeadshots]. *)
Definition generateHeadshotsTry (imageData : ProcessedImageData) (count : Z)
    (ui : Ui) : option (Ui * Result (list GeneratedImage)) :=
  let ui :=
    act (ToastLoading ("Transforming your photo into " ++ decimal count
                       ++ " professional headshots...")) ui in
  match httpsUrl imageData ui with
  | (ui1, Ok imageUrl) =>
      let batch :=
        Prompts.generateBatchPrompts
          (analysis imageData) (metadata imageData) count in
      match
        batchLoop (List.length (Prompts.prompts batch)) imageUrl
          (Prompts.suggestedStyles (Prompts.metadata batch))
          (Prompts.prompts batch) 0 [] ui1
      with
      | Some (ui2, Ok images) =>
          if Z.of_nat (List.length images) =? 0
          then Some (ui2, Throw "Failed to generate any headshots")
          else Some (ui2, Ok images)
      | other => other
      end
  | (ui1, Throw message) => Some (ui1, Throw message)
  | (ui1, Hang) => Some (ui1, Hang)
  end.

(** [imageCount[0]] is passed as [count].  The result is the state in
    which the run ends, or in which it stays when a call of the service is
    never answered: then neither [catch] nor [finally] is reached. *)
Definition generateHeadshots (imageData : option ProcessedImageData)
    (count : Z) (ui : Ui) : option Ui :=
  match imageData with
  | None => Some (act (ToastError "Please upload an image first") ui)
  | Some imageData =>
      match generateHeadshotsTry imageData count (setIsGenerating true ui) with
      | None => None
      | Some (ui1, Ok images) =>
          let ui2 := setGeneratedImages (fun prev => (prev ++ images)%list) ui1 in
          let ui3 :=
            act (ToastSuccess
                   ("Successfully transformed your photo into "
                    ++ decimal (Z.of_nat (List.length images))
                    ++ " professional headshots!")) ui2 in
          Some (setIsGenerating false ui3)
      | Some (ui1, Throw _) =>
          Some (setIsGenerating false
                  (act (ToastError "Failed to generate headshots. Please try again.")
                     ui1))
      | Some (ui1, Hang) => Some ui1
      end
  end.

(** [prev.map((img, i) => i === index ? newImage : img)]. *)
Definition replaceAt (index : Z) (newImage : GeneratedImage)
    (prev : list GeneratedImage) : list GeneratedImage :=
  map (fun ji => if fst ji =? index then newImage else snd ji) (indexed 0 prev).

Definition regenerateImage (imageData : option ProcessedImageData)
    (index : Z) (ui : Ui) : Ui :=
  match imageData with
  | None => ui
  | Some imageData =>
      let imageToRegenerate :=
        if index <? 0 then None
        else nth_error (generatedImages ui) (Z.to_nat index) in
      match imageToRegenerate with
      | None => ui
      | Some imageToRegenerate =>
          let attempt : St Ui unit :=
            imageUrl <- httpsUrl imageData ;;
            u <- awaitModifyImage
                   (requestFor imageUrl (image_prompt imageToRegenerate)) ;;
            let newImage :=
              mkGenerated u (image_style imageToRegenerate)
                (image_prompt imageToRegenerate)
                (image_index imageToRegenerate) in
            fun ui =>
              (act (ToastSuccess "Image regenerated successfully!")
                 (setGeneratedImages (replaceAt index newImage) ui),
               Ok tt) in
          match attempt (act (ToastLoading "Regenerating image...") ui) with
          | (ui1, Ok _) => ui1
          | (ui1, Throw _) => act (ToastError "Failed to regenerate image") ui1
          | (ui1, Hang) => ui1
          end
      end
  end.

End Generator.

(* ================================================================== *)
(** ** Vocabulary of the statements *)
(* ================================================================== *)


(** Some word of [words] occurs in [filename]. *)
Definition Mentions (filename : string) (words : list string) : Prop :=
  exists word pre post, In word words /\ filename = pre ++ word ++ post.

(** The same browser with another heic2any. *)
Definition withHeic2any (B : Browser)
    (h : nat -> File -> option (N * (Blob + option string))) : Browser :=
  mkBrowser (intrinsic B) (readable B) (imageDelay B) (context2d B)
    (drawImage B) (toBlob B) h.

(** [m] settles, and does so at most [ms] milliseconds after it started. *)
Definition SettlesWithin {A : Type} (ms : N) (m : M A) : Prop :=
  forall w, (now w <= now (fst (m w)) <= now w + ms)%N /\ snd (m w) <> Hang.

(** The browser fires no load or error event for the image that the next
    promise loads from [f] before [ms] milliseconds have passed. *)
Definition NoImageEventBefore (B : Browser) (f : File) (ms : N) (w : World)
    : Prop :=
  match imageDelay B (asked w) f with
  | None => True
  | Some d => (ms <= d)%N
  end.

(** Without an image event in time, [m] ends as [r] after exactly [ms]
    milliseconds. *)
Definition TimesOut {A : Type} (B : Browser) (f : File) (ms : N)
    (r : Result A) (m : M A) : Prop :=
  forall w, NoImageEventBefore B f ms w ->
            now (fst (m w)) = (now w + ms)%N /\ snd (m w) = r.

(** The events of [l] are loads of [f] and canvas exports of [f]. *)
Definition OnlyImageEventsOf (f : File) (l : list Event) : Prop :=
  forall e, In e l -> e = ImageSrc f \/ exists cw ch, e = ToBlob f cw ch.

(** The requests to the image-modification service among some actions. *)
Definition requestsOf (l : list Action) : list Request :=
  flat_map (fun a => match a with
                     | Batch requests => requests
                     | Single request => [request]
                     | _ => []
                     end) l.

(** One image URL, a non-empty prompt, quality 'high' and count 1. *)
Definition WellFormed (r : Request) : Prop :=
  List.length (images r) = 1%nat /\ prompt r <> ""
  /\ request_quality r = "high" /\ n r = 1%Z.

(** [ui'] is [ui] after more actions, all of whose requests are well
    formed. *)
Definition Extends (ui ui' : Ui) : Prop :=
  exists new, actions ui' = (actions ui ++ new)%list
              /\ Forall WellFormed (requestsOf new).

(** The claim that the whole analysis is read off the lowercased file
    name: some function of that name gives every record returned. *)
Definition AnalysisFromFilename (B : Browser) : Prop :=
  exists fromName : string -> PersonAnalysis,
    forall f w w' r,
      analyzeImageContent B 2 f w = Some (w', Ok r) ->
      r = fromName (Js.toLowerCase (name f)).

(** The individual retries of a batch: one request per prompt if the
    batch failed, none otherwise. *)
Definition retriesOf (imageUrl : string) (failed : bool) (chunk : list string)
    : list Action :=
  if failed then map (fun p => Single (requestFor imageUrl p)) chunk else [].

(** The actions of a loop over the prompts [remaining] that no failed
    individual retry cut short: per batch of two (the last may hold one
    prompt) the concurrent requests, then the retries if [failed] says
    that the batch failed, then the delay unless the batch is the last. *)
Fixpoint batchTrace (imageUrl : string) (failed : list bool)
    (remaining : list string) : list Action :=
  match remaining with
  | [] => []
  | [p] =>
      Batch [requestFor imageUrl p]
      :: retriesOf imageUrl (hd false failed) [p]
  | p :: q :: rest =>
      (Batch [requestFor imageUrl p; requestFor imageUrl q]
       :: retriesOf imageUrl (hd false failed) [p; q])
      ++ match rest with [] => [] | _ :: _ => [Delay 500] end
      ++ batchTrace imageUrl (tl failed) rest
  end.

Definition isBatch (a : Action) : bool :=
  match a with Batch _ => true | _ => false end.

Definition isDelay (a : Action) : bool :=
  match a with Delay _ => true | _ => false end.

(** Everything [m] does extends the record of actions with well-formed
    requests only. *)
Definition Orderly {A : Type} (m : St Ui A) : Prop :=
  forall ui, Extends ui (fst (m ui)).

(* ================================================================== *)
(** ** Concrete surroundings on which the definitions are run *)
(* ================================================================== *)

Module Example.

Definition world0 : World := mkWorld 0 0 [].

(** A browser that decodes a blob according to its content and can read
    every file, fires image events after 40ms and [toBlob] callbacks after
    25ms; heic2any converts content 4 and fails on everything else. *)
Definition browser : Browser :=
  mkBrowser
    (fun f => match blob_content (body f) with
              | 0%nat => None
              | 1%nat => Some (3000, 1000)%Z
              | 2%nat => Some (100, 100)%Z
              | 3%nat => Some (2048, 2048)%Z
              | _ => Some (800, 600)%Z
              end)
    (fun _ _ => true)
    (fun _ _ => Some 40%N)
    true
    (fun _ _ _ => None)
    (fun _ src _ _ =>
       Some (25%N, Some (mkBlob (blob_content (body src) + 10) 50000)))
    (fun _ f => match blob_content (body f) with
                | 4%nat => Some (120%N, inl (mkBlob 14 60000))
                | _ => Some (120%N, inr (Some "ERR_LIBHEIF format not supported"))
                end).

(** The same browser when no image event ever fires. *)
Definition silentBrowser : Browser :=
  mkBrowser (intrinsic browser) (readable browser) (fun _ _ => None) true
    (drawImage browser) (toBlob browser) (heic2any browser).

Definition largePortrait : File :=
  mkFile "portrait.png" "image/png" (mkBlob 3 400000).

Definition smallPortrait : File :=
  mkFile "portrait.png" "image/png" (mkBlob 2 4000).

Definition widePhoto : File :=
  mkFile "holiday.photo.jpeg" "image/jpeg" (mkBlob 1 900000).


Definition plainPhoto : File :=
  mkFile "businesswoman_senior" "image/jpeg" (mkBlob 5 200000).

Definition heicPhoto : File :=
  mkFile "IMG_0001.HEIC" "image/heic" (mkBlob 4 700000).

Definition brokenHeic : File :=
  mkFile "IMG_0002.heic" "" (mkBlob 0 700000).

(** A service whose [modifyImage] fails at the listed call numbers; every
    call is answered. *)
Definition failingAt (failures : list nat) : Service :=
  mkService
    (fun _ _ => Some "https://storage.example/upload.png")
    (fun k _ => if existsb (Nat.eqb k) failures then None
                else Some ("https://cdn.example/out-" ++ decimal (Z.of_nat k)))
    (fun _ => true).

Definition imageData : ProcessedImageData :=
  mkImageData largePortrait largePortrait "https://storage.example/portrait.png"
    (Meta.mkMetadata 2048 2048 1 "image/png" 400000 true)
    (mkAnalysis gender_unknown adult attire_unknown setting_unknown high)
    "data:image/png;base64,AAAA" 85 [].

Definition ui0 : Ui := mkUi [] false 0 [].

(** The request sent for the [k]-th prompt of [imageData]. *)
Definition request (k : nat) : Request :=
  requestFor (url imageData)
    (nth k (Prompts.generateHeadshotPrompts (analysis imageData)
              (metadata imageData) 6) "").

Definition failureToast : Action :=
  ToastError "Failed to generate headshots. Please try again.".

End Example.

(* ================================================================== *)
(** ** Further code of the components *)
(* ================================================================== *)

(** ImageUploader.tsx, [handleFileSelect], "Calculate quality score and
    recommendations": the score shown in the quality badge. *)
Definition uploadQualityScore (metadata : Meta.ImageMetadata)
    (analysis : PersonAnalysis) : Z :=
  Z.min 100
    ((if (Meta.width metadata >=? 512)%Z then 25 else 10)
     + (if (Meta.height metadata >=? 512)%Z then 25 else 10)
     + (if quality_eqb (quality analysis) high then 30
        else if quality_eqb (quality analysis) medium then 20 else 10)
     + (if Qle_bool (75 # 100) (Meta.aspectRatio metadata)
           && Qle_bool (Meta.aspectRatio metadata) (133 # 100)
        then 20 else 10)
     + (if attire_eqb (attire analysis) business
           || attire_eqb (attire analysis) formal
        then 10 else 5))%Z.

(** ImageUploader.tsx, the [catch] block of [handleFileSelect] for an
    [Error] with the given message: the text of the error toast, and the
    value passed to [setHeicError] if it is called. *)
Definition processingErrorToast (message : string) : string * option string :=
  if Js.includes message "HEIC_CONVERSION_FAILED"
     || Js.includes message "HEIC_NOT_SUPPORTED"
  then ("HEIC conversion failed. See instructions below.", Some message)
  else if Js.includes message "Invalid or corrupted"
  then ("The image file appears to be corrupted or in an unsupported format. Please try a different image.",
        None)
  else if Js.includes message "timeout"
  then ("Image processing timed out. The file may be too large. Please try a smaller image.",
        None)
  else if Js.includes message "canvas"
  then ("Unable to process image due to browser limitations. Please try a different browser or smaller image.",
        None)
  else if Js.includes message "metadata"
  then ("Unable to read image information. Please ensure the file is a valid image.",
        None)
  else if Js.includes message "PNG format"
  then ("Failed to convert image to PNG format. Please try a different image or browser.",
        None)
  else ("Failed to process image. Please try again.", None).

(** The character class [\s] on 8-bit characters: tab, line feed, vertical
    tab, form feed, carriage return, space and no-break space. *)
Definition isSpace (c : ascii) : bool :=
  let n := nat_of_ascii c in
  ((9 <=? n)%nat && (n <=? 13)%nat) || (n =? 32)%nat || (n =? 160)%nat.

(** [s.replace(/\s+/g, '-')]: every maximal run of white space becomes one
    dash; [inRun] says that the character before [s] was white space. *)
Fixpoint replaceSpaceRuns (inRun : bool) (s : string) : string :=
  match s with
  | EmptyString => EmptyString
  | String c s' =>
      if isSpace c
      then if inRun then replaceSpaceRuns true s'
           else String "-" (replaceSpaceRuns true s')
      else String c (replaceSpaceRuns false s')
  end.

(** HeadshotGenerator.tsx, [downloadImage]: the value of [a.download]. *)
Definition downloadName (style : string) (index : Z) : string :=
  replaceSpaceRuns false (Js.toLowerCase style)
  ++ "-headshot-" ++ decimal (index + 1) ++ ".jpg".

(* ================================================================== *)
(** ** Further vocabulary *)
(* ================================================================== *)

Fixpoint noSpace (s : string) : bool :=
  match s with
  | EmptyString => true
  | String c s' => negb (isSpace c) && noSpace s'
  end.

Fixpoint hasDash (s : string) : bool :=
  match s with
  | EmptyString => false
  | String c s' => Ascii.eqb c "-" || hasDash s'
  end.

(** What follows the last dash of [s] ([s] itself if it has none). *)
Fixpoint afterLastDash (s : string) : string :=
  match s with
  | EmptyString => EmptyString
  | String c s' =>
      if hasDash s' then afterLastDash s'
      else if Ascii.eqb c "-" then s' else s
  end.

(** The characters of a decimal numeral. *)
Fixpoint allDigits (s : string) : bool :=
  match s with
  | EmptyString => true
  | String c s' =>
      ((48 <=? nat_of_ascii c)%nat && (nat_of_ascii c <=? 57)%nat)
      && allDigits s'
  end.

(** The five parts that [calculateQualityScore] adds up. *)
Definition resolutionPart (m : Meta.ImageMetadata) : Z :=
  if (Meta.width m >=? 1024)%Z && (Meta.height m >=? 1024)%Z then 40
  else if (Meta.width m >=? 512)%Z && (Meta.height m >=? 512)%Z then 25
  else 10.

Definition ratioPart (m : Meta.ImageMetadata) : Z :=
  if Qle_bool (75 # 100) (Meta.aspectRatio m)
     && Qle_bool (Meta.aspectRatio m) (133 # 100) then 20
  else if Qle_bool (5 # 10) (Meta.aspectRatio m)
          && Qle_bool (Meta.aspectRatio m) 2 then 10
  else 5.

Definition qualityPart (a : PersonAnalysis) : Z :=
  match quality a with high => 20 | medium => 15 | low => 5 end.

Definition sizePart (m : Meta.ImageMetadata) : Z :=
  let sizeMB := (inject_Z (Meta.size m) / inject_Z (1024 * 1024))%Q in
  if Qle_bool (5 # 10) sizeMB && Qle_bool sizeMB 5 then 10
  else if Qle_bool (1 # 10) sizeMB && Qle_bool sizeMB 10 then 5
  else 0.

Definition attirePart (a : PersonAnalysis) : Z :=
  match attire a with
  | business | formal => 10
  | casual => 5
  | attire_unknown => 0
  end.

(** The browser cannot make a picture with positive width and height of
    the file. *)
Definition Undecodable (B : Browser) (f : File) : Prop :=
  match intrinsic B f with
  | None => True
  | Some (imgWidth, imgHeight) => (imgWidth <= 0 \/ imgHeight <= 0)%Z
  end.

(** [ui'] is [ui] after more actions, at most [k] of them requests to the
    image-modification service (a batch counts for each of its requests). *)
Definition Within (k : nat) (ui ui' : Ui) : Prop :=
  exists new, actions ui' = (actions ui ++ new)%list
              /\ (List.length (requestsOf new) <= k)%nat.

(** The list of images and the busy flag are the same in [ui] and [ui']. *)
Definition SameImages (ui ui' : Ui) : Prop :=
  generatedImages ui' = generatedImages ui /\ isGenerating ui' = isGenerating ui.

(** Position, prompt and style label of a generated image. *)
Definition tagOfImage (g : GeneratedImage) : Z * string * string :=
  (image_index g, image_prompt g, image_style g).

(** [m] leaves the list of images and the busy flag alone. *)
Definition KeepsImages {A : Type} (m : St Ui A) : Prop :=
  forall ui, SameImages ui (fst (m ui)).

(** Whatever [m] does, it sends at most [k] requests. *)
Definition Spends {A : Type} (k : nat) (m : St Ui A) : Prop :=
  forall ui, Within k ui (fst (m ui)).

(** [m] returns or throws whenever it is run: it does not stay pending. *)
Definition Settles {A : Type} (m : St Ui A) : Prop :=
  forall ui, snd (m ui) <> Hang.

Module Sample.

(** A service that answers every call. *)
Definition reliable : Service := Example.failingAt [].

(** A service that never answers the call made after one other. *)
Definition stalling : Service :=
  mkService (storageUpload reliable) (modifyImage reliable)
    (fun k => negb (Nat.eqb k 1)).

Definition firstImage : GeneratedImage :=
  mkGenerated "https://cdn.example/out-0" "Corporate Executive"
    "a prompt" 0.

Definition secondImage : GeneratedImage :=
  mkGenerated "https://cdn.example/out-1" "Creative Professional"
    "another prompt" 1.

Definition gallery : Ui := mkUi [firstImage; secondImage] false 5 [].

(** A small, dark photo as [analyzeImageContent] describes it. *)
Definition smallMetadata : Meta.ImageMetadata :=
  Meta.mkMetadata 400 300 (4 # 3) "image/png" 90000 true.

Definition smallAnalysis : PersonAnalysis :=
  mkAnalysis gender_unknown adult attire_unknown setting_unknown low.

(** [Example.browser] when only the first promise can still read its
    file. *)
Definition forgetful : Browser :=
  mkBrowser (intrinsic Example.browser) (fun k _ => Nat.eqb k 0)
    (imageDelay Example.browser) (context2d Example.browser)
    (drawImage Example.browser) (toBlob Example.browser)
    (heic2any Example.browser).

End Sample.

(* ================================================================== *)
(** * Properties *)
(* ================================================================== *)

(** ** Strings *)

Section StringFacts.

Local Open Scope string_scope.

Lemma prefix_spec (p s : string) :
  String.prefix p s = true <-> exists post, s = p ++ post.
Proof.
  revert s; induction p as [|c p IH]; intros s; simpl.
  - split; [intros _; exists s; reflexivity | intros _; now destruct s].
  - destruct s as [|d s]; simpl.
    + split; [discriminate | intros [post H]; discriminate].
    + destruct (ascii_dec c d) as [->|Hne].
      * rewrite IH. split; intros [post H]; exists post.
        -- now rewrite H.
        -- now inversion H.
      * split; [discriminate | intros [post H]; inversion H; congruence].
Qed.

Lemma endsWith_spec (s suf : string) :
  Js.endsWith s suf = true <-> exists pre, s = pre ++ suf.
Proof.
  induction s as [|c s IH]; cbn [Js.endsWith].
  - rewrite orb_false_r, String.eqb_eq. split.
    + intros <-. exists "". reflexivity.
    + intros [pre H]. destruct pre; simpl in H; [congruence | discriminate].
  - rewrite orb_true_iff, String.eqb_eq, IH. split.
    + intros [<- | [pre ->]].
      * exists "". reflexivity.
      * exists (String c pre). reflexivity.
    + intros [pre H]. destruct pre as [|d pre]; simpl in H.
      * left. exact H.
      * right. inversion H. exists pre. reflexivity.
Qed.

Lemma includes_spec (s sub : string) :
  Js.includes s sub = true <-> exists pre post, s = pre ++ sub ++ post.
Proof.
  induction s as [|c s IH]; cbn [Js.includes].
  - rewrite orb_false_r, prefix_spec. split.
    + intros [post H]. exists "", post. exact H.
    + intros [pre [post H]]. destruct pre; simpl in H; [|discriminate].
      exists post. exact H.
  - rewrite orb_true_iff, prefix_spec, IH. split.
    + intros [[post H] | [pre [post ->]]].
      * exists "", post. exact H.
      * exists (String c pre), post. reflexivity.
    + intros [pre [post H]]. destruct pre as [|d pre]; simpl in H.
      * left. exists post. exact H.
      * right. inversion H. exists pre, post. reflexivity.
Qed.



End StringFacts.

(** ** C2: upload constraints *)



(** ** C9: the prompt list is a function of the count alone *)

Lemma relIndex_nonneg (len i : Z) :
  (0 <= len)%Z -> (0 <= i)%Z -> Js.relIndex len i = Z.min i len.
Proof.
  intros Hlen Hi. unfold Js.relIndex.
  destruct (Z.ltb_spec i 0); [lia | reflexivity].
Qed.

Lemma slice_from_start_length {A : Type} (xs : list A) (stop : Z) :
  (0 <= stop)%Z ->
  Z.of_nat (List.length (Js.slice xs 0 stop))
  = Z.min stop (Z.of_nat (List.length xs)).
Proof.
  intros Hstop. unfold Js.slice. cbv zeta.
  pose proof (Zle_0_nat (List.length xs)) as Hlen.
  rewrite (relIndex_nonneg _ 0 Hlen (Z.le_refl 0)).
  rewrite (relIndex_nonneg _ stop Hlen Hstop).
  rewrite (Z.min_l 0) by exact Hlen. cbn [Z.to_nat skipn].
  rewrite length_firstn. lia.
Qed.

(** A slice from the start with a negative end leaves that many items
    off the end. *)
Lemma slice_from_start_length_neg {A : Type} (xs : list A) (stop : Z) :
  (stop < 0)%Z ->
  Z.of_nat (List.length (Js.slice xs 0 stop))
  = Z.max (Z.of_nat (List.length xs) + stop) 0.
Proof.
  intros Hstop. unfold Js.slice. cbv zeta.
  pose proof (Zle_0_nat (List.length xs)) as Hlen.
  rewrite (relIndex_nonneg _ 0 Hlen (Z.le_refl 0)).
  rewrite (Z.min_l 0) by exact Hlen. cbn [Z.to_nat skipn].
  unfold Js.relIndex. destruct (Z.ltb_spec stop 0) as [_|Hge]; [|lia].
  rewrite length_firstn. lia.
Qed.

(** C9 (as it holds).  For every count, [generateHeadshotPrompts] returns
    the same list whatever analysis and metadata it is given.  For a count
    of at least 0 that list has exactly min(count, 6) prompts and
    [generateBatchPrompts] returns min(batchSize, 4) suggested styles, so
    that for a batch size from 5 to 8 there are more prompts than named
    styles.  For a negative count [slice] counts its end from the end of
    the list: there are max(6 + count, 0) prompts and max(4 + count, 0)
    suggested styles. *)
Theorem prompts_depend_only_on_count (count : Z) :
  (forall a1 m1 a2 m2,
      Prompts.generateHeadshotPrompts a1 m1 count
      = Prompts.generateHeadshotPrompts a2 m2 count)
  /\ (forall a m,
         Z.of_nat (List.length (Prompts.generateHeadshotPrompts a m count))
         = if (count <? 0)%Z then Z.max (6 + count) 0 else Z.min count 6)
  /\ (forall a m,
         Z.of_nat (List.length
                     (Prompts.suggestedStyles
                        (Prompts.metadata (Prompts.generateBatchPrompts a m count))))
         = if (count <? 0)%Z then Z.max (4 + count) 0 else Z.min count 4)
  /\ (forall a m,
         (5 <= count <= 8)%Z ->
         (List.length
            (Prompts.suggestedStyles
               (Prompts.metadata (Prompts.generateBatchPrompts a m count)))
          < List.length (Prompts.prompts (Prompts.generateBatchPrompts a m count)))%nat).
Proof.
  assert (Hlen : forall a m,
             Z.of_nat (List.length (Prompts.generateHeadshotPrompts a m count))
             = if (count <? 0)%Z then Z.max (6 + count) 0 else Z.min count 6).
  { intros a m. unfold Prompts.generateHeadshotPrompts. rewrite length_map.
    assert (Hsix : Z.of_nat (List.length Prompts.styleVariations) = 6%Z)
      by reflexivity.
    destruct (Z.ltb_spec count 0) as [Hneg|Hpos].
    - rewrite slice_from_start_length_neg by lia. lia.
    - rewrite slice_from_start_length by lia. lia. }
  assert (Hstyles : forall a m,
             Z.of_nat (List.length
                         (Prompts.suggestedStyles
                            (Prompts.metadata (Prompts.generateBatchPrompts a m count))))
             = if (count <? 0)%Z then Z.max (4 + count) 0 else Z.min count 4).
  { intros a m. cbn [Prompts.generateBatchPrompts Prompts.metadata
                       Prompts.suggestedStyles].
    destruct (Z.ltb_spec count 0) as [Hneg|Hpos].
    - rewrite slice_from_start_length_neg by lia. cbn [List.length]. lia.
    - rewrite slice_from_start_length by lia. cbn [List.length]. lia. }
  split; [reflexivity|]. split; [exact Hlen|]. split; [exact Hstyles|].
  intros a m Hrange.
  specialize (Hlen a m). specialize (Hstyles a m).
  cbn [Prompts.generateBatchPrompts Prompts.prompts] in *.
  destruct (Z.ltb_spec count 0); lia.
Qed.

(** C9 as stated fails for a negative count.  At count -1 there are five
    prompts and three suggested styles, not min(-1, 6) and min(-1, 4). *)
Lemma prompts_negative_count_counterexample :
  Z.of_nat (List.length
              (Prompts.generateHeadshotPrompts Sample.smallAnalysis
                 Sample.smallMetadata (-1))) = 5%Z
  /\ Z.of_nat (List.length
                 (Prompts.suggestedStyles
                    (Prompts.metadata
                       (Prompts.generateBatchPrompts Sample.smallAnalysis
                          Sample.smallMetadata (-1))))) = 3%Z
  /\ 5%Z <> Z.min (-1) 6 /\ 3%Z <> Z.min (-1) 4.
Proof. repeat split; (vm_compute; reflexivity) || discriminate. Qed.

(** ** C10: range of the quality score *)

(** C10.  For every analysis and every metadata record,
    [calculateQualityScore] is the sum, capped at 100, of a resolution part
    of at least 10, an aspect-ratio part of at least 5, a quality part of at
    least 5, a size part of at least 0 and an attire part of at least 0; it
    lies between 20 and 100; and [getImageRecommendations] returns the empty
    list whenever the score is at least 70. *)
Theorem calculateQualityScore_range (a : PersonAnalysis) (m : Meta.ImageMetadata) :
  (exists resolution ratio qual bytes clothes : Z,
      (10 <= resolution <= 40)%Z /\ (5 <= ratio <= 20)%Z /\
      (5 <= qual <= 20)%Z /\ (0 <= bytes <= 10)%Z /\ (0 <= clothes <= 10)%Z /\
      Prompts.calculateQualityScore a m
      = Z.min 100 (resolution + ratio + qual + bytes + clothes))
  /\ (20 <= Prompts.calculateQualityScore a m <= 100)%Z
  /\ ((70 <= Prompts.calculateQualityScore a m)%Z ->
      Prompts.getImageRecommendations a m = []).
Proof.
  split; [|split].
  - exists (if (Meta.width m >=? 1024)%Z && (Meta.height m >=? 1024)%Z then 40
            else if (Meta.width m >=? 512)%Z && (Meta.height m >=? 512)%Z
                 then 25 else 10)%Z,
           (if Qle_bool (75 # 100) (Meta.aspectRatio m)
               && Qle_bool (Meta.aspectRatio m) (133 # 100) then 20
            else if Qle_bool (5 # 10) (Meta.aspectRatio m)
                    && Qle_bool (Meta.aspectRatio m) 2 then 10 else 5)%Z,
           (if quality_eqb (quality a) high then 20
            else if quality_eqb (quality a) medium then 15 else 5)%Z,
           (let sizeMB := (inject_Z (Meta.size m) / inject_Z (1024 * 1024))%Q in
            if Qle_bool (5 # 10) sizeMB && Qle_bool sizeMB 5 then 10
            else if Qle_bool (1 # 10) sizeMB && Qle_bool sizeMB 10 then 5
                 else 0)%Z,
           (if attire_eqb (attire a) business || attire_eqb (attire a) formal
            then 10
            else if attire_eqb (attire a) casual then 5 else 0)%Z.
    unfold Prompts.calculateQualityScore. cbv zeta.
    repeat match goal with
           | |- context [if ?b then _ else _] => destruct b
           end; repeat split; lia.
  - unfold Prompts.calculateQualityScore. cbv zeta.
    repeat match goal with
           | |- context [if ?b then _ else _] => destruct b
           end; lia.
  - intros Hscore. unfold Prompts.getImageRecommendations. cbv zeta.
    destruct (Z.ltb_spec (Prompts.calculateQualityScore a m) 70);
      [lia | reflexivity].
Qed.

(** ** File names through the two [replace] calls *)

Section ExtensionFacts.

Local Open Scope string_scope.

Lemma toLowerCase_app (x y : string) :
  Js.toLowerCase (x ++ y) = Js.toLowerCase x ++ Js.toLowerCase y.
Proof.
  induction x as [|c x IH]; simpl; [reflexivity | now rewrite IH].
Qed.

Lemma toLowerCase_length (x : string) :
  String.length (Js.toLowerCase x) = String.length x.
Proof.
  induction x as [|c x IH]; simpl; [reflexivity | now rewrite IH].
Qed.

Lemma append_length (x y : string) :
  String.length (x ++ y) = (String.length x + String.length y)%nat.
Proof.
  induction x as [|c x IH]; simpl; [reflexivity | now rewrite IH].
Qed.

Lemma append_assoc (x y z : string) : (x ++ y) ++ z = x ++ (y ++ z).
Proof.
  induction x as [|c x IH]; simpl; [reflexivity | now rewrite IH].
Qed.

Lemma append_nil_r (x : string) : x ++ "" = x.
Proof.
  induction x as [|c x IH]; simpl; [reflexivity | now rewrite IH].
Qed.

(** Two endings of equal length of one string are equal. *)
Lemma same_length_suffix (x y a b : string) :
  x ++ a = y ++ b -> String.length a = String.length b -> x = y /\ a = b.
Proof.
  revert y; induction x as [|c x IH]; intros y Heq Hlen.
  - destruct y as [|d y]; [split; [reflexivity | exact Heq]|].
    simpl in Heq. subst a. simpl in Hlen. rewrite append_length in Hlen. lia.
  - destruct y as [|d y].
    + simpl in Heq. subst b. simpl in Hlen. rewrite append_length in Hlen. lia.
    + simpl in Heq. inversion Heq; subst d.
      destruct (IH y H1 Hlen) as [-> ->]. split; reflexivity.
Qed.


Lemma anyExtensionHere_dot (ext : string) :
  ext <> "" -> Js.anyExtensionHere ("." ++ ext) = Js.allExtChars ext.
Proof.
  intros Hne. destruct ext as [|c ext]; [congruence | reflexivity].
Qed.



Lemma heicExtensionHere_length (s : string) :
  Js.heicExtensionHere s = true -> String.length s = 5%nat.
Proof.
  unfold Js.heicExtensionHere. rewrite orb_true_iff, !String.eqb_eq.
  intros [H|H]; rewrite <- (toLowerCase_length s), H; reflexivity.
Qed.




(** What [name.replace(/\.(heic|heif)$/i, '.png')] does: either the name has
    a HEIC ending, which becomes ".png", or the name is untouched and has
    no such ending. *)
Lemma replaceHeicExtension_cases (s : string) :
  (exists stem e, s = stem ++ e /\ Js.heicExtensionHere e = true
                  /\ Js.replaceHeicExtension s = stem ++ ".png")
  \/ (Js.replaceHeicExtension s = s
      /\ Js.endsWith (Js.toLowerCase s) ".heic" = false
      /\ Js.endsWith (Js.toLowerCase s) ".heif" = false).
Proof.
  induction s as [|c s IH].
  - right. repeat split; reflexivity.
  - destruct (Js.heicExtensionHere (String c s)) eqn:Hhere.
    + left. exists "", (String c s). repeat split; [exact Hhere|].
      cbn [Js.replaceHeicExtension]. now rewrite Hhere.
    + cbn [Js.replaceHeicExtension]. rewrite Hhere. fold Js.replaceHeicExtension.
      destruct IH as [(stem & e & -> & He & Hrep) | (Hrep & H1 & H2)].
      * left. exists (String c stem), e. repeat split; [exact He|].
        now rewrite Hrep.
      * right. rewrite Hrep. split; [reflexivity|].
        unfold Js.heicExtensionHere in Hhere. apply orb_false_iff in Hhere.
        destruct Hhere as [Hc1 Hc2].
        cbn [Js.toLowerCase Js.endsWith]. cbn [Js.toLowerCase] in Hc1, Hc2.
        now rewrite Hc1, Hc2, H1, H2.
Qed.

Lemma png_is_not_heic (stem : string) :
  Js.endsWith (Js.toLowerCase (stem ++ ".png")) ".heic" = false
  /\ Js.endsWith (Js.toLowerCase (stem ++ ".png")) ".heif" = false.
Proof.
  rewrite toLowerCase_app.
  change (Js.toLowerCase ".png") with (".pn" ++ "g").
  split; apply not_true_is_false; intros H; apply endsWith_spec in H;
    destruct H as [pre H].
  - change ".heic" with (".hei" ++ "c") in H.
    rewrite <- !append_assoc in H.
    destruct (same_length_suffix _ _ _ _ H eq_refl) as [_ Hbad]. discriminate.
  - change ".heif" with (".hei" ++ "f") in H.
    rewrite <- !append_assoc in H.
    destruct (same_length_suffix _ _ _ _ H eq_refl) as [_ Hbad]. discriminate.
Qed.

(** The name given to a converted HEIC file never looks like HEIC. *)
Lemma replaceHeicExtension_not_heic (s : string) :
  Js.endsWith (Js.toLowerCase (Js.replaceHeicExtension s)) ".heic" = false
  /\ Js.endsWith (Js.toLowerCase (Js.replaceHeicExtension s)) ".heif" = false.
Proof.
  destruct (replaceHeicExtension_cases s)
    as [(stem & e & -> & He & ->) | (-> & H1 & H2)].
  - apply png_is_not_heic.
  - split; assumption.
Qed.



End ExtensionFacts.

(** ** C1: what the person analysis is computed from *)

Lemma mentions_three (filename a b c : string) :
  Js.includes filename a || Js.includes filename b || Js.includes filename c
  = true <-> Mentions filename [a; b; c].
Proof.
  rewrite !orb_true_iff, !includes_spec. unfold Mentions. split.
  - intros [[(pre & post & H) | (pre & post & H)] | (pre & post & H)].
    + exists a, pre, post. simpl. tauto.
    + exists b, pre, post. simpl. tauto.
    + exists c, pre, post. simpl. tauto.
  - intros (word & pre & post & Hin & H). simpl in Hin.
    destruct Hin as [<- | [<- | [<- | []]]].
    + left; left. eauto.
    + left; right. eauto.
    + right. eauto.
Qed.

Lemma not_mentions_three (filename a b c : string) :
  Js.includes filename a || Js.includes filename b || Js.includes filename c
  = false <-> ~ Mentions filename [a; b; c].
Proof.
  rewrite <- mentions_three. now rewrite not_true_iff_false.
Qed.

(** Decide which words a file name mentions and read off the branch. *)
Ltac by_mentions :=
  repeat match goal with
         | |- context [Mentions ?f [?a; ?b; ?c]] =>
             let H := fresh "H" in
             pose proof (mentions_three f a b c) as H;
             let m := fresh "m" in
             set (m := Mentions f [a; b; c]) in *;
             destruct (Js.includes f a || Js.includes f b || Js.includes f c)
           end;
  repeat split; intros; try reflexivity; exfalso;
  repeat match goal with
         | H : _ <-> _ |- _ => destruct H
         end;
  auto; try discriminate;
  repeat match goal with
         | H : ?m -> false = true, H' : ?m |- _ => specialize (H H'); discriminate
         end.

Lemma genderOf_spec (filename : string) :
  (Mentions filename ["female"; "woman"; "girl"] -> genderOf filename = female)
  /\ (~ Mentions filename ["female"; "woman"; "girl"] ->
      Mentions filename ["male"; "man"; "boy"] -> genderOf filename = male)
  /\ (~ Mentions filename ["female"; "woman"; "girl"] ->
      ~ Mentions filename ["male"; "man"; "boy"] ->
      genderOf filename = gender_unknown).
Proof.
  unfold genderOf. by_mentions.
Qed.

Lemma ageGroupOf_spec (filename : string) :
  (Mentions filename ["young"; "teen"; "junior"] -> ageGroupOf filename = young)
  /\ (~ Mentions filename ["young"; "teen"; "junior"] ->
      Mentions filename ["senior"; "elder"; "mature"] ->
      ageGroupOf filename = mature)
  /\ (~ Mentions filename ["young"; "teen"; "junior"] ->
      ~ Mentions filename ["senior"; "elder"; "mature"] ->
      ageGroupOf filename = adult).
Proof.
  unfold ageGroupOf. by_mentions.
Qed.

Lemma attireOf_spec (filename : string) :
  (Mentions filename ["business"; "professional"; "corporate"] ->
   attireOf filename = business)
  /\ (~ Mentions filename ["business"; "professional"; "corporate"] ->
      Mentions filename ["formal"; "suit"; "dress"] ->
      attireOf filename = formal)
  /\ (~ Mentions filename ["business"; "professional"; "corporate"] ->
      ~ Mentions filename ["formal"; "suit"; "dress"] ->
      Mentions filename ["casual"; "tshirt"; "jeans"] ->
      attireOf filename = casual)
  /\ (~ Mentions filename ["business"; "professional"; "corporate"] ->
      ~ Mentions filename ["formal"; "suit"; "dress"] ->
      ~ Mentions filename ["casual"; "tshirt"; "jeans"] ->
      attireOf filename = attire_unknown).
Proof.
  unfold attireOf. by_mentions.
Qed.

Lemma qualityOf_spec (m : Meta.ImageMetadata) :
  ((1024 <= Meta.width m /\ 1024 <= Meta.height m)%Z -> qualityOf m = high)
  /\ (~ (1024 <= Meta.width m /\ 1024 <= Meta.height m)%Z ->
      (512 <= Meta.width m /\ 512 <= Meta.height m)%Z -> qualityOf m = medium)
  /\ (~ (512 <= Meta.width m /\ 512 <= Meta.height m)%Z -> qualityOf m = low).
Proof.
  unfold qualityOf.
  destruct (Z.geb_spec (Meta.width m) 1024), (Z.geb_spec (Meta.height m) 1024),
    (Z.geb_spec (Meta.width m) 512), (Z.geb_spec (Meta.height m) 512);
    cbn [andb]; repeat split; intros; try reflexivity; lia.
Qed.

Lemma analyzeImageContent_inv (B : Browser) (fuel : nat) (f : File)
    (w w' : World) (r : PersonAnalysis) :
  analyzeImageContent B fuel f w = Some (w', Ok r) <->
  exists m, getImageMetadata B fuel f w = Some (w', Ok m)
            /\ r = mkAnalysis (genderOf (Js.toLowerCase (name f)))
                     (ageGroupOf (Js.toLowerCase (name f)))
                     (attireOf (Js.toLowerCase (name f)))
                     setting_unknown (qualityOf m).
Proof.
  unfold analyzeImageContent.
  destruct (getImageMetadata B fuel f w) as [[w1 [m| |]]|]; split.
  - intros H. inversion H. exists m. split; reflexivity.
  - intros (m' & H & ->). inversion H. reflexivity.
  - discriminate.
  - intros (m' & H & _). discriminate.
  - discriminate.
  - intros (m' & H & _). discriminate.
  - discriminate.
  - intros (m' & H & _). discriminate.
Qed.

(** ** Promises with a timer *)

Section TimerFacts.

Local Open Scope N_scope.

Lemma settle_world {A : Type} (ms : N) (onTimeout : Result A)
    (events : list Event) (first : option (N * Result A)) (w : World) :
  asked (fst (settle ms onTimeout events first w)) = S (asked w)
  /\ log (fst (settle ms onTimeout events first w)) = (log w ++ events)%list.
Proof. split; reflexivity. Qed.

Lemma settle_within {A : Type} (ms : N) (onTimeout : Result A)
    (events : list Event) (first : option (N * Result A)) (w : World) :
  onTimeout <> Hang ->
  (forall d r, first = Some (d, r) -> r <> Hang) ->
  (now w <= now (fst (settle ms onTimeout events first w)) <= now w + ms)
  /\ snd (settle ms onTimeout events first w) <> Hang.
Proof.
  intros Htimeout Hfirst. unfold settle.
  destruct first as [[d r]|]; cbn [fst snd now].
  - destruct (N.ltb_spec d ms); cbn [fst snd].
    + split; [lia | now apply (Hfirst d r)].
    + split; [lia | exact Htimeout].
  - split; [lia | exact Htimeout].
Qed.

Lemma settle_timeout {A : Type} (ms : N) (onTimeout : Result A)
    (events : list Event) (first : option (N * Result A)) (w : World) :
  match first with None => True | Some (d, _) => ms <= d end ->
  now (fst (settle ms onTimeout events first w)) = now w + ms
  /\ snd (settle ms onTimeout events first w) = onTimeout.
Proof.
  unfold settle. destruct first as [[d r]|]; cbn [fst snd now]; intros H.
  - destruct (N.ltb_spec d ms); [lia | split; reflexivity].
  - split; reflexivity.
Qed.

Variable B : Browser.

Lemma validateImageFile_settles (f : File) :
  SettlesWithin 5000 (validateImageFile B f)
  /\ TimesOut B f 5000 (Ok false) (validateImageFile B f).
Proof.
  split.
  - intros w. unfold validateImageFile. apply settle_within; [discriminate|].
    intros d r. destruct (imageDelay B (asked w) f); [|discriminate].
    destruct (loaded B (asked w) f) as [[iw ih]|]; intros H; inversion H; discriminate.
  - intros w Hsilent. unfold validateImageFile. apply settle_timeout.
    unfold NoImageEventBefore in Hsilent.
    destruct (imageDelay B (asked w) f); [|exact I].
    destruct (loaded B (asked w) f) as [[iw ih]|]; exact Hsilent.
Qed.

Lemma metadataPromise_settles (f : File) :
  SettlesWithin 5000 (metadataPromise B f)
  /\ TimesOut B f 5000 (Throw "Metadata extraction timeout") (metadataPromise B f).
Proof.
  split.
  - intros w. unfold metadataPromise. apply settle_within; [discriminate|].
    intros d r. destruct (imageDelay B (asked w) f); [|discriminate].
    destruct (loaded B (asked w) f) as [[iw ih]|]; intros H; inversion H; discriminate.
  - intros w Hsilent. unfold metadataPromise. apply settle_timeout.
    unfold NoImageEventBefore in Hsilent.
    destruct (imageDelay B (asked w) f); [|exact I].
    destruct (loaded B (asked w) f) as [[iw ih]|]; exact Hsilent.
Qed.

Lemma canvasPromise_settles (f : File) (dims : Z -> Z -> Q * Q)
    (rename : string -> string) (msg : CanvasMessages) :
  SettlesWithin 10000 (canvasPromise B f dims rename msg)
  /\ TimesOut B f 10000 (Throw (timeoutError msg))
       (canvasPromise B f dims rename msg).
Proof.
  split.
  - intros w. unfold canvasPromise. apply settle_within; [discriminate|].
    intros d r. destruct (imageDelay B (asked w) f) as [d0|]; [|discriminate].
    destruct (loaded B (asked w) f) as [[iw ih]|]; cbn [snd];
      [|intros H; inversion H; discriminate].
    destruct (dims iw ih) as [cw ch].
    destruct (context2d B); cbn [snd]; [|intros H; inversion H; discriminate].
    destruct (drawImage B f cw ch); cbn [snd];
      [intros H; inversion H; discriminate|].
    destruct (toBlob B (asked w) f cw ch) as [[d' [blob|]]|];
      intros H; inversion H; discriminate.
  - intros w Hsilent. unfold canvasPromise. apply settle_timeout.
    unfold NoImageEventBefore in Hsilent.
    destruct (imageDelay B (asked w) f) as [d0|]; [|exact I].
    destruct (loaded B (asked w) f) as [[iw ih]|]; cbn [snd]; [|exact Hsilent].
    destruct (dims iw ih) as [cw ch].
    destruct (context2d B); cbn [snd]; [|exact Hsilent].
    destruct (drawImage B f cw ch); cbn [snd]; [exact Hsilent|].
    destruct (toBlob B (asked w) f cw ch) as [[d' [blob|]]|]; try exact I; lia.
Qed.

(** What a canvas promise adds to the log, and where its file comes from. *)
Lemma canvasPromise_log (f : File) (dims : Z -> Z -> Q * Q)
    (rename : string -> string) (msg : CanvasMessages) (w : World) :
  exists events,
    log (fst (canvasPromise B f dims rename msg w)) = (log w ++ events)%list
    /\ OnlyImageEventsOf f events.
Proof.
  unfold canvasPromise.
  match goal with
  | |- context [settle _ _ ?ev _ _] => exists ev
  end.
  split; [reflexivity|].
  intros e He. cbn [In] in He. destruct He as [<- | He]; [now left|].
  destruct (imageDelay B (asked w) f) as [d0|]; [|destruct He].
  destruct (loaded B (asked w) f) as [[iw ih]|]; [|destruct He].
  destruct (dims iw ih) as [cw ch].
  destruct (context2d B); [|destruct He].
  destruct (drawImage B f cw ch); [destruct He|].
  cbn [fst In] in He. destruct He as [<- | []]. right. eauto.
Qed.

Lemma validateImageFile_log (f : File) (w : World) :
  log (fst (validateImageFile B f w)) = (log w ++ [ImageSrc f])%list.
Proof. reflexivity. Qed.

End TimerFacts.

(** ** C7: every image-load promise is guarded by its timer *)

Section Settling.

Local Open Scope N_scope.

Variable B : Browser.

Lemma bind_settles {A C : Type} (a b : N) (m : M A) (k : A -> M C) :
  SettlesWithin a m -> (forall x, SettlesWithin b (k x)) ->
  SettlesWithin (a + b) (bind m k).
Proof.
  intros Hm Hk w. specialize (Hm w). unfold bind.
  destruct (m w) as [w1 [x| |]]; cbn [fst snd] in *.
  - specialize (Hk x w1). destruct (k x w1) as [w2 r]; cbn [fst snd] in *.
    split; [lia | tauto].
  - split; [lia | discriminate].
  - tauto.
Qed.

Lemma throw_settles {A : Type} (ms : N) (message : string) :
  SettlesWithin ms (@throw World A message).
Proof. intros w. cbn. split; [lia | discriminate]. Qed.

Lemma validated_settles {A : Type} (f : File) (message : string) (m : M A) :
  SettlesWithin 10000 m ->
  SettlesWithin 15000
    (isValid <- validateImageFile B f ;;
     if negb isValid then throw message else m).
Proof.
  intros Hm. change 15000 with (5000 + 10000).
  apply bind_settles; [apply validateImageFile_settles|].
  intros [|]; cbn [negb]; [exact Hm | apply throw_settles].
Qed.

Lemma tryNativeHeicConversion_settles (f : File) :
  SettlesWithin 15000 (tryNativeHeicConversion B f).
Proof.
  unfold tryNativeHeicConversion, nativeHeicPromise.
  apply validated_settles, canvasPromise_settles.
Qed.

Lemma convertImageToPng_settles (f : File) :
  isHeicFile f = false -> SettlesWithin 15000 (convertImageToPng B f).
Proof.
  intros Hf. unfold convertImageToPng, convertPromise. rewrite Hf.
  apply validated_settles, canvasPromise_settles.
Qed.

Lemma optimizeImageSize_settles (fuel : nat) (f : File) (mw mh : Q) (w : World) :
  isHeicFile f = false ->
  exists w' r,
    optimizeImageSize B (S fuel) f mw mh w = Some (w', r)
    /\ now w <= now w' <= now w + 15000 /\ r <> Hang.
Proof.
  intros Hf. cbn [optimizeImageSize]. rewrite Hf.
  pose proof (validated_settles f "Invalid image file for optimization"
                (optimizePromise B f mw mh)
                (proj1 (canvasPromise_settles B f _ _ _)) w) as H.
  match goal with
  | |- context [Some (?m w)] => destruct (m w) as [w' r]
  end.
  exists w', r. split; [reflexivity | exact H].
Qed.

Lemma getImageMetadata_settles (fuel : nat) (f : File) (w : World) :
  isHeicFile f = false ->
  exists w' r,
    getImageMetadata B (S fuel) f w = Some (w', r)
    /\ now w <= now w' <= now w + 10000 /\ r <> Hang.
Proof.
  intros Hf. cbn [getImageMetadata]. rewrite Hf.
  assert (H : SettlesWithin (5000 + 5000)
                (isValid <- validateImageFile B f ;;
                 if negb isValid
                 then throw "Invalid image file for metadata extraction"
                 else metadataPromise B f)).
  { apply bind_settles; [apply validateImageFile_settles|].
    intros [|]; cbn [negb];
      [apply metadataPromise_settles | apply throw_settles]. }
  specialize (H w).
  match goal with
  | |- context [Some (?m w)] => destruct (m w) as [w' r]
  end.
  exists w', r. split; [reflexivity | exact H].
Qed.

End Settling.

(** C7.  The promise of [validateImageFile] and the image promise of
    [getImageMetadata] settle within 5000ms, and without an image event in
    that time they resolve [false], respectively reject with the metadata
    timeout error; the image promises of [convertImageToPng],
    [tryNativeHeicConversion] and [optimizeImageSize] settle within 10000ms
    and reject with their timeout errors when no image event comes in that
    time.  None of them stays pending.  Hence [tryNativeHeicConversion], and
    on a file that is not HEIC [convertImageToPng], [optimizeImageSize] and
    [getImageMetadata], return or throw within 15000ms, 15000ms and
    10000ms. *)
Theorem image_promises_settle (B : Browser) (f : File) (maxWidth maxHeight : Q) :
  (SettlesWithin 5000 (validateImageFile B f)
   /\ TimesOut B f 5000 (Ok false) (validateImageFile B f))
  /\ (SettlesWithin 5000 (metadataPromise B f)
      /\ TimesOut B f 5000 (Throw "Metadata extraction timeout")
           (metadataPromise B f))
  /\ (SettlesWithin 10000 (convertPromise B f)
      /\ TimesOut B f 10000
           (Throw "Image loading timeout - file may be too large or corrupted")
           (convertPromise B f))
  /\ (SettlesWithin 10000 (nativeHeicPromise B f)
      /\ TimesOut B f 10000 (Throw "HEIC conversion timeout")
           (nativeHeicPromise B f))
  /\ (SettlesWithin 10000 (optimizePromise B f maxWidth maxHeight)
      /\ TimesOut B f 10000 (Throw "Image optimization timeout")
           (optimizePromise B f maxWidth maxHeight))
  /\ SettlesWithin 15000 (tryNativeHeicConversion B f)
  /\ (isHeicFile f = false ->
      SettlesWithin 15000 (convertImageToPng B f)
      /\ (forall fuel w, exists w' r,
             optimizeImageSize B (S fuel) f maxWidth maxHeight w = Some (w', r)
             /\ (now w <= now w' <= now w + 15000)%N /\ r <> Hang)
      /\ (forall fuel w, exists w' r,
             getImageMetadata B (S fuel) f w = Some (w', r)
             /\ (now w <= now w' <= now w + 10000)%N /\ r <> Hang)).
Proof.
  split; [apply validateImageFile_settles|].
  split; [apply metadataPromise_settles|].
  split; [apply (canvasPromise_settles B f _ _ convertMessages)|].
  split; [apply (canvasPromise_settles B f _ _ nativeHeicMessages)|].
  split; [apply (canvasPromise_settles B f _ _ optimizeMessages)|].
  split; [apply tryNativeHeicConversion_settles|].
  intros Hf. split; [now apply convertImageToPng_settles|].
  split; intros fuel w.
  - now apply optimizeImageSize_settles.
  - now apply getImageMetadata_settles.
Qed.

(** ** C3: the HEIC fallback chain *)

Section HeicChain.

Variable B : Browser.

(** [convertHeicToPng] asks the library once and nothing else. *)
Lemma convertHeicToPng_run (f : File) (w : World) :
  let after d := mkWorld (now w + d) (S (asked w)) (log w ++ [Heic2any f]) in
  convertHeicToPng B f w =
  match heic2any B (asked w) f with
  | None => (after 0%N, Hang)
  | Some (d, inl blob) =>
      (after d, Ok (newFile blob (Js.replaceHeicExtension (name f)) "image/png"))
  | Some (d, inr (Some message)) =>
      (after d,
       Throw ("HEIC_CONVERSION_FAILED: " ++ message ++
              ". Please convert your image to JPEG or PNG format on your device before uploading."))
  | Some (d, inr None) =>
      (after d,
       Throw ("HEIC_CONVERSION_FAILED: " ++
              "HEIC format not supported in this browser" ++
              ". Please convert your image to JPEG or PNG format on your device before uploading."))
  end.
Proof.
  unfold convertHeicToPng, tryCatch, bind, awaitHeic2any, ret, throw.
  destruct (heic2any B (asked w) f) as [[d [blob|[message|]]]|]; reflexivity.
Qed.

Lemma convertHeicToPng_log (f : File) (w : World) :
  log (fst (convertHeicToPng B f w)) = (log w ++ [Heic2any f])%list.
Proof.
  rewrite convertHeicToPng_run.
  destruct (heic2any B (asked w) f) as [[d [blob|[message|]]]|]; reflexivity.
Qed.

Lemma tryNativeHeicConversion_log (f : File) (w : World) :
  exists events,
    log (fst (tryNativeHeicConversion B f w)) = (log w ++ events)%list
    /\ OnlyImageEventsOf f events.
Proof.
  unfold tryNativeHeicConversion, bind.
  pose proof (validateImageFile_log B f w) as Hv.
  destruct (validateImageFile B f w) as [w1 [[|]| |]]; cbn [fst negb] in *.
  - destruct (canvasPromise_log B f sameDimensions Js.replaceHeicExtension
                nativeHeicMessages w1) as (events & Hlog & Honly).
    exists (ImageSrc f :: events). unfold nativeHeicPromise.
    rewrite Hlog, Hv, <- app_assoc. split; [reflexivity|].
    intros e [<- | He]; [now left | now apply Honly].
  - exists [ImageSrc f]. split; [exact Hv|]. intros e [<- | []]. now left.
  - exists [ImageSrc f]. split; [exact Hv|]. intros e [<- | []]. now left.
  - exists [ImageSrc f]. split; [exact Hv|]. intros e [<- | []]. now left.
Qed.

Lemma convertImageToPng_plain_log (f : File) (w : World) :
  isHeicFile f = false ->
  exists events,
    log (fst (convertImageToPng B f w)) = (log w ++ events)%list
    /\ OnlyImageEventsOf f events.
Proof.
  intros Hf. unfold convertImageToPng, bind. rewrite Hf.
  pose proof (validateImageFile_log B f w) as Hv.
  destruct (validateImageFile B f w) as [w1 [[|]| |]]; cbn [fst negb] in *.
  - destruct (canvasPromise_log B f sameDimensions Js.replaceAnyExtension
                convertMessages w1) as (events & Hlog & Honly).
    exists (ImageSrc f :: events). unfold convertPromise.
    rewrite Hlog, Hv, <- app_assoc. split; [reflexivity|].
    intros e [<- | He]; [now left | now apply Honly].
  - exists [ImageSrc f]. split; [exact Hv|]. intros e [<- | []]. now left.
  - exists [ImageSrc f]. split; [exact Hv|]. intros e [<- | []]. now left.
  - exists [ImageSrc f]. split; [exact Hv|]. intros e [<- | []]. now left.
Qed.

End HeicChain.

(** C3.  On a HEIC/HEIF file (by MIME type or by extension)
    [convertImageToPng] first runs the library conversion
    [convertHeicToPng], whose only step is the call of heic2any, and returns
    its file; only if that throws does it run [tryNativeHeicConversion]
    (which loads and redraws the file itself) and return its file; and if
    that throws as well it throws the fixed error whose message starts with
    "HEIC_NOT_SUPPORTED:".  On any other file heic2any is never called: the
    outcome does not depend on the library, and all that is asked of the
    browser are loads and canvas exports of the file itself. *)
Theorem heic_fallback_chain (B : Browser) (f : File) (w : World) :
  (isHeicFile f = true ->
   log (fst (convertHeicToPng B f w)) = (log w ++ [Heic2any f])%list
   /\ match convertHeicToPng B f w with
      | (w1, Ok png) => convertImageToPng B f w = (w1, Ok png)
      | (w1, Hang) => convertImageToPng B f w = (w1, Hang)
      | (w1, Throw _) =>
          (exists events,
              log (fst (tryNativeHeicConversion B f w1)) = (log w1 ++ events)%list
              /\ OnlyImageEventsOf f events)
          /\ match tryNativeHeicConversion B f w1 with
             | (w2, Ok png) => convertImageToPng B f w = (w2, Ok png)
             | (w2, Throw _) =>
                 convertImageToPng B f w = (w2, Throw heicNotSupportedMessage)
             | (w2, Hang) => False
             end
      end)
  /\ Js.startsWith heicNotSupportedMessage "HEIC_NOT_SUPPORTED:" = true
  /\ (isHeicFile f = false ->
      (forall h, convertImageToPng (withHeic2any B h) f w = convertImageToPng B f w)
      /\ exists events,
           log (fst (convertImageToPng B f w)) = (log w ++ events)%list
           /\ OnlyImageEventsOf f events).
Proof.
  split; [|split; [reflexivity|]].
  - intros Hf. split; [apply convertHeicToPng_log|].
    unfold convertImageToPng. rewrite Hf.
    destruct (convertHeicToPng B f w) as [w1 [png|message|]] eqn:Hlib.
    + unfold tryCatch. now rewrite Hlib.
    + split; [apply tryNativeHeicConversion_log|].
      pose proof (tryNativeHeicConversion_settles B f w1) as [_ Hsettles].
      destruct (tryNativeHeicConversion B f w1) as [w2 [png|message'|]] eqn:Hnat;
        cbn [snd] in Hsettles; [| |congruence];
        unfold tryCatch; rewrite Hlib; fold (@tryCatch World File);
        unfold tryCatch; now rewrite Hnat.
    + unfold tryCatch. now rewrite Hlib.
  - intros Hf. split.
    + intros h. unfold convertImageToPng. rewrite Hf. reflexivity.
    + now apply convertImageToPng_plain_log.
Qed.

(** The chain on three inputs: the library succeeds; the library fails and
    the browser redraws the file; both fail. *)
Example heic_chain_library :
  convertImageToPng Example.browser Example.heicPhoto Example.world0
  = (mkWorld 120 1 [Heic2any Example.heicPhoto],
     Ok (mkFile "IMG_0001.png" "image/png" (mkBlob 14 60000))).
Proof. vm_compute. reflexivity. Qed.

Example heic_chain_native :
  snd (convertImageToPng Example.browser
         (mkFile "IMG_0003.heif" "" (mkBlob 2 700000)) Example.world0)
  = Ok (mkFile "IMG_0003.png" "image/png" (mkBlob 12 50000)).
Proof. vm_compute. reflexivity. Qed.

Example heic_chain_exhausted :
  snd (convertImageToPng Example.browser Example.brokenHeic Example.world0)
  = Throw heicNotSupportedMessage
  /\ log (fst (convertImageToPng Example.browser Example.brokenHeic Example.world0))
     = [Heic2any Example.brokenHeic; ImageSrc Example.brokenHeic].
Proof. split; vm_compute; reflexivity. Qed.

(** ** C6: resizing *)

Section Resizing.

Local Open Scope Q_scope.




(** *** Rounding *)











End Resizing.

Section OptimizeRuns.

Variable B : Browser.

(** An image that loaded shows the picture that the file holds. *)
Lemma loaded_intrinsic (k : nat) (f : File) (size : Z * Z) :
  loaded B k f = Some size -> intrinsic B f = Some size.
Proof. unfold loaded. destruct (readable B k f); [tauto | discriminate]. Qed.


(** A canvas promise that is fulfilled drew the file at the size [dims]
    gives, on a canvas of the whole pixels of that size, and wrapped the
    blob of that canvas. *)
Lemma canvasPromise_ok (f : File) (dims : Z -> Z -> Q * Q)
    (rename : string -> string) (msg : CanvasMessages) (w w' : World) (out : File) :
  canvasPromise B f dims rename msg w = (w', Ok out) ->
  exists imgWidth imgHeight width height blob d,
    intrinsic B f = Some (imgWidth, imgHeight)
    /\ dims imgWidth imgHeight = (width, height)
    /\ toBlob B (asked w) f width height = Some (d, Some blob)
    /\ out = newFile blob (rename (name f)) "image/png"
    /\ log w'
       = (log w ++ [ImageSrc f;
                    ToBlob f (canvasSide 300 width) (canvasSide 150 height)])%list.
Proof.
  unfold canvasPromise, settle.
  destruct (imageDelay B (asked w) f) as [d0|]; [|discriminate].
  destruct (loaded B (asked w) f) as [[iw ih]|] eqn:Hload; cbn [fst snd];
    [|destruct (d0 <? 10000)%N; discriminate].
  apply loaded_intrinsic in Hload.
  destruct (dims iw ih) as [cw ch] eqn:Hdims. cbn [fst snd].
  destruct (context2d B); cbn [fst snd];
    [|destruct (d0 <? 10000)%N; discriminate].
  destruct (drawImage B f cw ch); cbn [fst snd];
    [destruct (d0 <? 10000)%N; discriminate|].
  destruct (toBlob B (asked w) f cw ch) as [[d' [blob|]]|] eqn:Hblob;
    cbn [fst snd];
    [| destruct (d0 + d' <? 10000)%N; discriminate | discriminate].
  destruct (d0 + d' <? 10000)%N; cbn [fst snd]; [|discriminate].
  intros H. inversion H; subst w' out. exists iw, ih, cw, ch, blob, d'.
  repeat split; try reflexivity; assumption.
Qed.

(** The file that the HEIC chain returns is a PNG under the rewritten name,
    and no longer a HEIC file. *)
Lemma convertImageToPng_heic_ok (f : File) (w w1 : World) (c : File) :
  isHeicFile f = true -> convertImageToPng B f w = (w1, Ok c) ->
  name c = Js.replaceHeicExtension (name f) /\ type c = "image/png"
  /\ isHeicFile c = false.
Proof.
  intros Hf Hrun.
  assert (Hshape : name c = Js.replaceHeicExtension (name f) /\ type c = "image/png").
  { unfold convertImageToPng in Hrun. rewrite Hf in Hrun.
    unfold tryCatch in Hrun. rewrite convertHeicToPng_run in Hrun.
    destruct (heic2any B (asked w) f) as [[d [blob|[message|]]]|];
      try (inversion Hrun; subst c; split; reflexivity);
      try discriminate;
      match type of Hrun with
      | context [tryNativeHeicConversion B f ?w0] =>
          unfold tryNativeHeicConversion, bind, throw in Hrun;
          destruct (validateImageFile B f w0) as [w2 [[|]| |]];
          cbn [negb] in Hrun; try discriminate;
          unfold nativeHeicPromise in Hrun;
          destruct (canvasPromise B f sameDimensions Js.replaceHeicExtension
                      nativeHeicMessages w2) as [w3 [png| |]] eqn:Hcanvas;
          try discriminate;
          apply canvasPromise_ok in Hcanvas;
          destruct Hcanvas as (iw & ih & cw & ch & blob & d' & _ & _ & _ & -> & _);
          inversion Hrun; subst c; split; reflexivity
      end. }
  destruct Hshape as [Hname Htype]. repeat split; try assumption.
  unfold isHeicFile. rewrite Htype, Hname.
  destruct (replaceHeicExtension_not_heic (name f)) as [-> ->]. reflexivity.
Qed.




End OptimizeRuns.




(** The products are doubles.  For the photo of 3000 x 1000 pixels they are
    1024 and 341.3333333333333 (the double nearest below 1024/3).  For a
    picture of 1122 x 1122 pixels both are 1023.9999999999999 (2^53 - 1
    over 2^43), and the canvas is 1023 x 1023 although the exactly scaled
    side is 1024. *)
Example optimizedDimensions_wide :
  optimizedDimensions 1024 1024 3000 1000
  = (1024, 6004799503160661 # 17592186044416)%Q
  /\ canvasSize (optimizedDimensions 1024 1024 3000 1000) = (1024, 341)%Z.
Proof. split; vm_compute; reflexivity. Qed.

Example optimizedDimensions_square :
  optimizedDimensions 1024 1024 1122 1122
  = (9007199254740991 # 8796093022208, 9007199254740991 # 8796093022208)%Q
  /\ canvasSize (optimizedDimensions 1024 1024 1122 1122) = (1023, 1023)%Z.
Proof. split; vm_compute; reflexivity. Qed.

(** ** C8: shape of the requests to the image-modification service *)

Section Requests.

Variable service : Service.

Lemma requestFor_wellFormed (imageUrl p : string) :
  WellFormed (requestFor imageUrl p).
Proof. repeat split. discriminate. Qed.

Lemma requestsOf_app (l1 l2 : list Action) :
  requestsOf (l1 ++ l2) = (requestsOf l1 ++ requestsOf l2)%list.
Proof. apply flat_map_app. Qed.

Lemma Extends_refl (ui : Ui) : Extends ui ui.
Proof. exists []. split; [now rewrite app_nil_r | constructor]. Qed.

Lemma Extends_trans (a b c : Ui) : Extends a b -> Extends b c -> Extends a c.
Proof.
  intros (n1 & H1 & F1) (n2 & H2 & F2). exists (n1 ++ n2)%list.
  split; [now rewrite H2, H1, app_assoc|].
  rewrite requestsOf_app. apply Forall_app. split; assumption.
Qed.

Lemma Extends_same_actions (ui ui' : Ui) :
  actions ui' = actions ui -> Extends ui ui'.
Proof.
  intros H. exists []. split; [now rewrite app_nil_r | constructor].
Qed.

Lemma Extends_step (ui ui' : Ui) (a : Action) :
  actions ui' = (actions ui ++ [a])%list -> Forall WellFormed (requestsOf [a]) ->
  Extends ui ui'.
Proof. intros H F. exists [a]. split; assumption. Qed.

Lemma Orderly_ret {A : Type} (a : A) : Orderly (ret a).
Proof. intros ui. apply Extends_refl. Qed.

Lemma Orderly_throw {A : Type} (message : string) : Orderly (@throw Ui A message).
Proof. intros ui. apply Extends_refl. Qed.

Lemma Orderly_bind {A C : Type} (m : St Ui A) (k : A -> St Ui C) :
  Orderly m -> (forall a, Orderly (k a)) -> Orderly (bind m k).
Proof.
  intros Hm Hk ui. specialize (Hm ui). unfold bind.
  destruct (m ui) as [ui1 [a| |]]; cbn [fst] in *; try assumption.
  apply (Extends_trans ui ui1); [assumption | apply Hk].
Qed.

Lemma Orderly_tryCatch {A : Type} (m : St Ui A) (h : string -> St Ui A) :
  Orderly m -> (forall message, Orderly (h message)) -> Orderly (tryCatch m h).
Proof.
  intros Hm Hh ui. specialize (Hm ui). unfold tryCatch.
  destruct (m ui) as [ui1 [a|message|]]; cbn [fst] in *; try assumption.
  apply (Extends_trans ui ui1); [assumption | apply Hh].
Qed.

Lemma Orderly_awaitModifyImage (imageUrl p : string) :
  Orderly (awaitModifyImage service (requestFor imageUrl p)).
Proof.
  intros ui. cbn [awaitModifyImage fst].
  eapply Extends_step; [reflexivity|].
  cbn. constructor; [apply requestFor_wellFormed | constructor].
Qed.

Lemma Orderly_awaitBatch (imageUrl : string) (styles : list string) (i : Z)
    (batchPrompts : list string) :
  Orderly (awaitBatch service imageUrl styles i batchPrompts).
Proof.
  intros ui. cbn [awaitBatch fst].
  eapply Extends_step; [reflexivity|].
  cbn [requestsOf flat_map]. rewrite app_nil_r.
  apply Forall_map, Forall_forall. intros p _. apply requestFor_wellFormed.
Qed.

Lemma Orderly_delay (ms : Z) : Orderly (delay ms).
Proof.
  intros ui. cbn [delay fst]. eapply Extends_step; [reflexivity | constructor].
Qed.

Lemma Orderly_retryIndividually (imageUrl : string) (styles : list string)
    (i : Z) (entries : list (Z * string)) (images : list GeneratedImage) :
  Orderly (retryIndividually service imageUrl styles i entries images).
Proof.
  revert images. induction entries as [|[batchIndex p] rest IH]; intros images.
  - apply Orderly_ret.
  - cbn [retryIndividually]. apply Orderly_bind; [|intros a; apply IH].
    apply Orderly_tryCatch; [|intros message; apply Orderly_throw].
    apply Orderly_bind; [apply Orderly_awaitModifyImage|].
    intros u. apply Orderly_ret.
Qed.

Lemma Orderly_httpsUrl (imageData : ProcessedImageData) :
  Orderly (httpsUrl service imageData).
Proof.
  unfold httpsUrl.
  destruct (negb (Js.startsWith (url imageData) "https://"));
    [|apply Orderly_ret].
  intros ui. cbn [fst].
  eapply Extends_step; [reflexivity | constructor].
Qed.

Lemma batchLoop_extends (fuel : nat) (imageUrl : string)
    (styles prompts : list string) (i : Z) (images : list GeneratedImage)
    (ui ui' : Ui) (r : Result (list GeneratedImage)) :
  batchLoop service fuel imageUrl styles prompts i images ui = Some (ui', r) ->
  Extends ui ui'.
Proof.
  revert i images ui. induction fuel as [|fuel IH]; intros i images ui;
    cbn [batchLoop]; destruct (i <? Z.of_nat (List.length prompts))%Z;
    try discriminate;
    try (intros H; inversion H; apply Extends_refl).
  match goal with
  | |- context [match ?m ui with _ => _ end] =>
      assert (Hiter : Orderly m); [|specialize (Hiter ui); destruct (m ui) as [ui1 [images1|message|]]]
  end.
  { apply Orderly_bind.
    - apply Orderly_tryCatch.
      + apply Orderly_bind; [apply Orderly_awaitBatch | intros; apply Orderly_ret].
      + intros message. apply Orderly_retryIndividually.
    - intros images1. apply Orderly_bind; [|intros; apply Orderly_ret].
      destruct (i + batchSize <? Z.of_nat (List.length prompts))%Z;
        [apply Orderly_delay | apply Orderly_ret]. }
  - intros H. apply IH in H. cbn [fst] in Hiter.
    now apply (Extends_trans ui ui1).
  - intros H. inversion H; subst. exact Hiter.
  - intros H. inversion H; subst. exact Hiter.
Qed.

(** The loop runs to its end on the fuel it is given. *)
Lemma batchLoop_total (fuel : nat) (imageUrl : string)
    (styles prompts : list string) (i : Z) (images : list GeneratedImage)
    (ui : Ui) :
  (Z.of_nat (List.length prompts) - i <= Z.of_nat fuel)%Z ->
  batchLoop service fuel imageUrl styles prompts i images ui <> None.
Proof.
  revert i images ui. induction fuel as [|fuel IH]; intros i images ui Hfuel;
    cbn [batchLoop];
    destruct (Z.ltb_spec i (Z.of_nat (List.length prompts)));
    try discriminate; try lia.
  match goal with
  | |- context [match ?m ui with _ => _ end] =>
      destruct (m ui) as [ui1 [images1|message|]]
  end; try discriminate.
  apply IH. unfold batchSize. lia.
Qed.

Lemma generateHeadshotsTry_extends (imageData : ProcessedImageData) (count : Z)
    (ui ui' : Ui) (r : Result (list GeneratedImage)) :
  generateHeadshotsTry service imageData count ui = Some (ui', r) ->
  Extends ui ui'.
Proof.
  unfold generateHeadshotsTry.
  match goal with
  | |- context [httpsUrl service imageData ?u] =>
      pose proof (Orderly_httpsUrl imageData u) as Hurl;
      assert (Htoast : Extends ui u)
        by (eapply Extends_step; [reflexivity | constructor]);
      destruct (httpsUrl service imageData u) as [ui1 [imageUrl|message|]]
  end; cbn [fst] in Hurl.
  - match goal with
    | |- context [batchLoop service ?fu imageUrl ?st ?pr 0%Z [] ui1] =>
        destruct (batchLoop service fu imageUrl st pr 0%Z [] ui1)
          as [[ui2 [images|message|]]|] eqn:Hloop
    end; try discriminate;
      apply batchLoop_extends in Hloop;
      [destruct (Z.of_nat (List.length images) =? 0)%Z | | ];
      intros H; inversion H; subst;
      apply (Extends_trans ui _ _ Htoast), (Extends_trans _ ui1 _ Hurl), Hloop.
  - intros H; inversion H; subst. now apply (Extends_trans ui _ _ Htoast).
  - intros H; inversion H; subst. now apply (Extends_trans ui _ _ Htoast).
Qed.

Lemma generateHeadshotsTry_total (imageData : ProcessedImageData) (count : Z)
    (ui : Ui) :
  generateHeadshotsTry service imageData count ui <> None.
Proof.
  unfold generateHeadshotsTry.
  match goal with
  | |- context [httpsUrl service imageData ?u] =>
      destruct (httpsUrl service imageData u) as [ui1 [imageUrl|message|]]
  end; try discriminate.
  match goal with
  | |- context [batchLoop service ?fu imageUrl ?st ?pr 0%Z [] ui1] =>
      pose proof (batchLoop_total fu imageUrl st pr 0%Z [] ui1) as Htotal;
      destruct (batchLoop service fu imageUrl st pr 0%Z [] ui1)
        as [[ui2 [images|message|]]|]
  end; try discriminate.
  - destruct (Z.of_nat (List.length images) =? 0)%Z; discriminate.
  - exfalso. apply Htotal; [lia | reflexivity].
Qed.

End Requests.

(** C8.  Every request that [generateHeadshots] sends to the
    image-modification service, in a batch or in an individual retry,
    carries exactly one image URL, a non-empty prompt, the quality 'high'
    and n = 1, up to the state in which the run ends or waits for an answer
    that never comes; the same holds for the request of
    [regenerateImage]. *)
Theorem requests_well_formed (service : Service)
    (imageData : option ProcessedImageData) (count index : Z) (ui : Ui) :
  (exists ui', generateHeadshots service imageData count ui = Some ui'
               /\ Extends ui ui')
  /\ Extends ui (regenerateImage service imageData index ui).
Proof.
  split.
  - unfold generateHeadshots. destruct imageData as [imageData|].
    + pose proof (generateHeadshotsTry_total service imageData count
                    (setIsGenerating true ui)) as Htotal.
      destruct (generateHeadshotsTry service imageData count
                  (setIsGenerating true ui))
        as [[ui1 r]|] eqn:Hrun; [|congruence].
      apply generateHeadshotsTry_extends in Hrun.
      assert (Hstart : Extends ui (setIsGenerating true ui))
        by (now apply Extends_same_actions).
      destruct r as [images|message|]; eexists; (split; [reflexivity|]);
        apply (Extends_trans ui _ _ Hstart), (Extends_trans _ ui1 _ Hrun);
        try apply Extends_refl;
        (eapply Extends_step; [reflexivity | constructor]).
    + eexists. split; [reflexivity|].
      eapply Extends_step; [reflexivity | constructor].
  - unfold regenerateImage. destruct imageData as [imageData|];
      [|apply Extends_refl].
    destruct (if (index <? 0)%Z then None
              else nth_error (generatedImages ui) (Z.to_nat index))
      as [old|]; [|apply Extends_refl].
    match goal with
    | |- context [match ?m ?u with _ => _ end] =>
        assert (Hm : Orderly m);
        [|assert (Htoast : Extends ui u)
            by (eapply Extends_step; [reflexivity | constructor]);
          specialize (Hm u); destruct (m u) as [ui1 [[]|message|]]]
    end.
    { apply Orderly_bind; [apply Orderly_httpsUrl|]. intros imageUrl.
      apply Orderly_bind; [apply Orderly_awaitModifyImage|]. intros u ui0.
      cbn [fst]. eapply Extends_step; [reflexivity | constructor]. }
    + now apply (Extends_trans ui _ _ Htoast).
    + apply (Extends_trans ui _ _ Htoast), (Extends_trans _ ui1 _ Hm).
      eapply Extends_step; [reflexivity | constructor].
    + now apply (Extends_trans ui _ _ Htoast).
Qed.

(** ** C4 and C5: the batch loop and its individual retries *)

(** *** Runs that no failed retry cuts short *)

Section BatchStructure.

Variable service : Service.

Lemma skipn_empty_iff {A : Type} (k : nat) (xs : list A) :
  skipn k xs = [] <-> (List.length xs <= k)%nat.
Proof.
  revert xs; induction k as [|k IH]; intros [|x xs]; cbn [skipn List.length];
    try (split; [intros; lia | reflexivity]).
  - split; [discriminate | lia].
  - rewrite IH. lia.
Qed.

Lemma slice_pair (prompts : list string) (i : Z) :
  (0 <= i)%Z ->
  Js.slice prompts i (i + batchSize) = firstn 2 (skipn (Z.to_nat i) prompts).
Proof.
  intros Hi. unfold Js.slice, batchSize. cbv zeta.
  pose proof (Zle_0_nat (List.length prompts)) as Hlen.
  rewrite !relIndex_nonneg by lia.
  destruct (Z.le_gt_cases (Z.of_nat (List.length prompts)) i) as [Hout|Hin].
  - replace (skipn (Z.to_nat (Z.min i (Z.of_nat (List.length prompts)))) prompts)
      with (@nil string) by (symmetry; apply skipn_empty_iff; lia).
    replace (skipn (Z.to_nat i) prompts) with (@nil string)
      by (symmetry; apply skipn_empty_iff; lia).
    now rewrite !firstn_nil.
  - rewrite (Z.min_l i) by lia.
    destruct (Z.le_gt_cases (i + 2) (Z.of_nat (List.length prompts))).
    + rewrite Z.min_l by lia. f_equal. lia.
    + rewrite Z.min_r by lia.
      assert (Hshort : (List.length (skipn (Z.to_nat i) prompts) <= 1)%nat)
        by (rewrite length_skipn; lia).
      rewrite !firstn_all2; [reflexivity | lia | rewrite length_skipn; lia].
Qed.

Lemma skipn_next (prompts : list string) (i : Z) :
  (0 <= i)%Z ->
  skipn (Z.to_nat (i + batchSize)) prompts
  = skipn 2 (skipn (Z.to_nat i) prompts).
Proof.
  intros Hi. unfold batchSize. rewrite skipn_skipn. f_equal. lia.
Qed.

Lemma in_range_iff (prompts : list string) (i : Z) :
  (0 <= i)%Z ->
  (i <? Z.of_nat (List.length prompts))%Z = true
  <-> skipn (Z.to_nat i) prompts <> [].
Proof.
  intros Hi. rewrite Z.ltb_lt, skipn_empty_iff. lia.
Qed.

Lemma awaitBatch_actions (imageUrl : string) (styles : list string) (i : Z)
    (chunk : list string) (ui : Ui) :
  actions (fst (awaitBatch service imageUrl styles i chunk ui))
  = (actions ui ++ [Batch (map (requestFor imageUrl) chunk)])%list.
Proof. reflexivity. Qed.

(** An individual retry loop that comes to its end asked for every prompt
    of the batch, one after the other. *)
Lemma retryIndividually_ok (imageUrl : string) (styles : list string) (i : Z)
    (entries : list (Z * string)) (images images' : list GeneratedImage)
    (ui ui' : Ui) :
  retryIndividually service imageUrl styles i entries images ui = (ui', Ok images') ->
  actions ui'
  = (actions ui ++ map (fun e => Single (requestFor imageUrl (snd e))) entries)%list.
Proof.
  revert images ui. induction entries as [|[batchIndex p] rest IH];
    intros images ui; cbn [retryIndividually].
  - intros H. inversion H. now rewrite app_nil_r.
  - unfold bind at 1, tryCatch, bind, awaitModifyImage, answered, ret, throw.
    destruct (settles service (calls ui)); [|discriminate].
    destruct (modifyImage service (calls ui) (requestFor imageUrl p));
      [|discriminate].
    intros H. apply IH in H. rewrite H. cbn [actions map snd].
    now rewrite <- app_assoc.
Qed.

Lemma indexed_snd {A : Type} (from : Z) (xs : list A) :
  map snd (indexed from xs) = xs.
Proof.
  revert from; induction xs as [|x xs IH]; intros from; cbn;
    [reflexivity | now rewrite IH].
Qed.

(** One pass through the loop body for the batch [chunk], not cut short. *)
Lemma iteration_ok (imageUrl : string) (styles : list string) (i : Z)
    (chunk : list string) (more : bool) (images images1 : list GeneratedImage)
    (ui ui1 : Ui) :
  (images1 <-
     tryCatch
       (batchResults <- awaitBatch service imageUrl styles i chunk ;;
        ret (images ++ batchResults)%list)
       (fun _ =>
          retryIndividually service imageUrl styles i (indexed 0 chunk) images) ;;
   _ <- (if more then delay 500 else ret tt) ;;
   ret images1) ui = (ui1, Ok images1) ->
  exists failed : bool,
    actions ui1
    = (actions ui
       ++ (Batch (map (requestFor imageUrl) chunk)
           :: retriesOf imageUrl failed chunk)
       ++ (if more then [Delay 500] else []))%list.
Proof.
  intros Hrun. unfold bind, tryCatch, ret, delay in Hrun.
  pose proof (awaitBatch_actions imageUrl styles i chunk ui) as Hbatch.
  destruct (awaitBatch service imageUrl styles i chunk ui)
    as [ui0 [batchResults|message|]] eqn:Hawait; cbn [fst] in Hbatch;
    try rewrite Hawait in Hrun.
  - exists false. unfold retriesOf.
    destruct more; inversion Hrun; subst; cbn [act actions]; rewrite Hbatch;
      rewrite <- ?app_assoc; cbn [app]; now rewrite ?app_nil_r.
  - destruct (retryIndividually service imageUrl styles i (indexed 0 chunk)
                images ui0) as [ui2 [images2|message2|]] eqn:Hretry;
      try discriminate.
    apply retryIndividually_ok in Hretry.
    assert (Hsingles :
              map (fun e : Z * string => Single (requestFor imageUrl (snd e)))
                (indexed 0 chunk)
              = map (fun p => Single (requestFor imageUrl p)) chunk).
    { rewrite <- (indexed_snd 0 chunk) at 2. now rewrite map_map. }
    rewrite Hsingles in Hretry. exists true. unfold retriesOf.
    destruct more; inversion Hrun; subst; cbn [act actions];
      rewrite Hretry, Hbatch; rewrite <- ?app_assoc; cbn [app];
      now rewrite ?app_nil_r.
  - discriminate.
Qed.

(** A loop that returns has the actions of [batchTrace]. *)
Lemma batchLoop_trace (fuel : nat) (imageUrl : string)
    (styles prompts : list string) (i : Z) (images images' : list GeneratedImage)
    (ui ui' : Ui) :
  (0 <= i)%Z ->
  batchLoop service fuel imageUrl styles prompts i images ui = Some (ui', Ok images') ->
  exists failed,
    actions ui'
    = (actions ui
       ++ batchTrace imageUrl failed (skipn (Z.to_nat i) prompts))%list.
Proof.
  revert i images ui. induction fuel as [|fuel IH]; intros i images ui Hi Hrun;
    cbn [batchLoop] in Hrun;
    destruct (i <? Z.of_nat (List.length prompts))%Z eqn:Hin;
    try discriminate;
    try (inversion Hrun; subst; exists [];
         replace (skipn (Z.to_nat i) prompts) with (@nil string)
           by (symmetry; apply skipn_empty_iff; apply Z.ltb_ge in Hin; lia);
         cbn [batchTrace]; now rewrite app_nil_r).
  rewrite slice_pair in Hrun by exact Hi.
  match type of Hrun with
  | context [match ?m ui with _ => _ end] =>
      destruct (m ui) as [ui1 [images1|message|]] eqn:Hiter
  end; try discriminate.
  apply iteration_ok in Hiter. destruct Hiter as [again Hiter].
  apply IH in Hrun; [|unfold batchSize; lia].
  destruct Hrun as [retried Hrun].
  exists (again :: retried). rewrite Hrun, Hiter.
  rewrite skipn_next by exact Hi.
  apply in_range_iff in Hin; [|exact Hi].
  assert (Hmore : (i + batchSize <? Z.of_nat (List.length prompts))%Z = true
                  <-> skipn 2 (skipn (Z.to_nat i) prompts) <> [])
    by (rewrite <- skipn_next by exact Hi; apply in_range_iff;
        unfold batchSize; lia).
  destruct (skipn (Z.to_nat i) prompts) as [|p [|q rest]];
    [congruence | |].
  + destruct (i + batchSize <? Z.of_nat (List.length prompts))%Z.
    * exfalso. now apply (proj1 Hmore).
    * cbn [firstn skipn batchTrace hd tl map app].
      now rewrite <- !app_assoc, !app_nil_r.
  + cbn [firstn skipn] in *.
    destruct (i + batchSize <? Z.of_nat (List.length prompts))%Z;
      destruct rest as [|r rest];
      try (exfalso; now apply (proj1 Hmore));
      try (assert (false = true) by (apply Hmore; discriminate); discriminate);
      cbn [batchTrace hd tl map]; now rewrite <- !app_assoc.
Qed.

(** Retries are neither batches nor delays. *)
Lemma retriesOf_plain (imageUrl : string) (failed : bool) (chunk : list string) :
  filter isBatch (retriesOf imageUrl failed chunk) = []
  /\ filter isDelay (retriesOf imageUrl failed chunk) = [].
Proof.
  unfold retriesOf. destruct failed; [|split; reflexivity].
  induction chunk as [|p chunk [IH1 IH2]]; cbn; split; assumption || reflexivity.
Qed.

(** In such a run there are ceil(n/2) batches for [n] prompts, each of at
    most two requests, and one delay between any two consecutive batches. *)
Lemma batchTrace_counts (imageUrl : string) (remaining : list string) :
  forall failed,
    (2 * List.length (filter isBatch (batchTrace imageUrl failed remaining))
     = List.length remaining + Nat.modulo (List.length remaining) 2)%nat
    /\ List.length (filter isDelay (batchTrace imageUrl failed remaining))
       = Nat.pred (List.length (filter isBatch
                                  (batchTrace imageUrl failed remaining)))
    /\ Forall (fun a => match a with
                        | Batch requests =>
                            (1 <= List.length requests <= 2)%nat
                        | _ => True
                        end)
         (filter isBatch (batchTrace imageUrl failed remaining)).
Proof.
  assert (Hind : forall k remaining', (List.length remaining' <= k)%nat ->
             forall failed,
    (2 * List.length (filter isBatch (batchTrace imageUrl failed remaining'))
     = List.length remaining' + Nat.modulo (List.length remaining') 2)%nat
    /\ List.length (filter isDelay (batchTrace imageUrl failed remaining'))
       = Nat.pred (List.length (filter isBatch
                                  (batchTrace imageUrl failed remaining')))
    /\ Forall (fun a => match a with
                        | Batch requests =>
                            (1 <= List.length requests <= 2)%nat
                        | _ => True
                        end)
         (filter isBatch (batchTrace imageUrl failed remaining'))).
  { induction k as [|k IH]; intros [|p [|q rest]] Hlen failed;
      cbn [List.length] in Hlen; try lia;
      try (cbn; repeat split; constructor).
    - destruct (retriesOf_plain imageUrl (hd false failed) [p]) as (H1 & H2).
      cbn [batchTrace filter isBatch isDelay]. rewrite H1, H2.
      repeat split; try reflexivity. constructor; [cbn; lia | constructor].
    - destruct (retriesOf_plain imageUrl (hd false failed) [p; q]) as (H1 & H2).
      destruct (IH rest ltac:(lia) (tl failed)) as (I1 & I2 & I3).
      cbn [batchTrace]. rewrite <- app_comm_cons.
      cbn [filter isBatch isDelay]. rewrite !filter_app, H1, H2.
      cbn [app List.length].
      split; [|split].
      + destruct rest as [|r rest]; cbn [filter isBatch isDelay app List.length] in *.
        * cbn. reflexivity.
        * replace (S (S (S (List.length rest))))
            with (S (List.length rest) + 1 * 2)%nat by lia.
          rewrite Nat.Div0.mod_add. lia.
      + destruct rest as [|r rest]; cbn [filter isBatch isDelay app List.length].
        * cbn. reflexivity.
        * rewrite I2. cbn [List.length] in I1.
          destruct (List.length
                      (filter isBatch
                         (batchTrace imageUrl (tl failed) (r :: rest))));
            [lia | reflexivity].
      + constructor; [cbn; lia|].
        destruct rest; cbn [filter isBatch app]; exact I3. }
  intros failed. now apply (Hind (List.length remaining)).
Qed.

(** A loop over [n] prompts that returns sent ceil(n/2) batches of one or
    two requests, asked again one by one for the prompts of the batches that
    failed, and waited 500ms between two consecutive batches only. *)
Corollary unbroken_loop_batches (fuel : nat) (imageUrl : string)
    (styles prompts : list string) (images : list GeneratedImage) (ui ui' : Ui) :
  batchLoop service fuel imageUrl styles prompts 0 [] ui = Some (ui', Ok images) ->
  exists failed,
    let trace := batchTrace imageUrl failed prompts in
    actions ui' = (actions ui ++ trace)%list
    /\ (2 * List.length (filter isBatch trace)
        = List.length prompts + Nat.modulo (List.length prompts) 2)%nat
    /\ List.length (filter isDelay trace)
       = Nat.pred (List.length (filter isBatch trace))
    /\ Forall (fun a => match a with
                        | Batch requests =>
                            (1 <= List.length requests <= 2)%nat
                        | _ => True
                        end)
         (filter isBatch trace).
Proof.
  intros Hrun. apply batchLoop_trace in Hrun; [|lia].
  destruct Hrun as [failed Hrun]. exists failed. cbv zeta.
  split; [exact Hrun | apply batchTrace_counts].
Qed.

End BatchStructure.

(** The loop when nothing fails: five prompts go out as batches of two, two
    and one, with a delay of 500ms between batches and none at the end. *)
Example batches_of_five :
  option_map actions
    (generateHeadshots (Example.failingAt []) (Some Example.imageData) 5
       Example.ui0)
  = Some [ToastLoading "Transforming your photo into 5 professional headshots...";
          Batch [Example.request 0; Example.request 1];
          Delay 500;
          Batch [Example.request 2; Example.request 3];
          Delay 500;
          Batch [Example.request 4];
          ToastSuccess "Successfully transformed your photo into 5 professional headshots!"].
Proof. vm_compute. reflexivity. Qed.

(** A failed batch whose individual retries all succeed: both prompts of
    the batch are asked again one after the other, then the loop goes on. *)
Example failed_batch_retried :
  option_map (fun ui => (actions ui, List.length (generatedImages ui)))
    (generateHeadshots (Example.failingAt [1%nat]) (Some Example.imageData) 4
       Example.ui0)
  = Some ([ToastLoading "Transforming your photo into 4 professional headshots...";
           Batch [Example.request 0; Example.request 1];
           Single (Example.request 0);
           Single (Example.request 1);
           Delay 500;
           Batch [Example.request 2; Example.request 3];
           ToastSuccess "Successfully transformed your photo into 4 professional headshots!"],
          4%nat).
Proof. vm_compute. reflexivity. Qed.

(** C4, where the code departs from it.  Four prompts; the first call of
    the first batch fails, and so does the individual retry of the first
    prompt (calls 0 and 2).  Logging that failure raises the ReferenceError,
    which ends the run: the second prompt of the batch is never retried,
    the second batch is never sent and no delay is inserted. *)
Theorem failed_retry_ends_generation :
  option_map actions
    (generateHeadshots (Example.failingAt [0%nat; 2%nat])
       (Some Example.imageData) 4 Example.ui0)
  = Some [ToastLoading "Transforming your photo into 4 professional headshots...";
          Batch [Example.request 0; Example.request 1];
          Single (Example.request 0);
          Example.failureToast].
Proof. vm_compute. reflexivity. Qed.

(** C5, where the code departs from it.  Two prompts; the second call of
    the batch fails, the retry of the first prompt returns an image (call
    2) and the retry of the second prompt fails (call 3).  The failed item
    is not skipped: the run is reported as failed and the image already
    produced is not added to [generatedImages]. *)
Theorem retry_failure_discards_images :
  modifyImage (Example.failingAt [1%nat; 3%nat]) 2 (Example.request 0)
  = Some "https://cdn.example/out-2"
  /\ option_map (fun ui => (actions ui, generatedImages ui))
       (generateHeadshots (Example.failingAt [1%nat; 3%nat])
          (Some Example.imageData) 2 Example.ui0)
     = Some ([ToastLoading "Transforming your photo into 2 professional headshots...";
              Batch [Example.request 0; Example.request 1];
              Single (Example.request 0);
              Single (Example.request 1);
              Example.failureToast],
             []).
Proof. split; vm_compute; reflexivity. Qed.

(** ** C1, concluded *)

Section MetadataRuns.

Variable B : Browser.

Lemma getImageMetadata_plain (fuel : nat) (f : File) (w : World) :
  isHeicFile f = false ->
  getImageMetadata B (S fuel) f w = getImageMetadata B 1 f w.
Proof. intros Hf. cbn [getImageMetadata]. now rewrite Hf. Qed.

(** [getImageMetadata] recurses at most once as well. *)
Lemma getImageMetadata_total (fuel : nat) (f : File) (w : World) :
  getImageMetadata B (S (S fuel)) f w = getImageMetadata B 2 f w
  /\ getImageMetadata B 2 f w <> None.
Proof.
  destruct (isHeicFile f) eqn:Hf.
  - cbn [getImageMetadata]. rewrite Hf.
    destruct (convertImageToPng B f w) as [w1 [c|message|]] eqn:Hrun;
      [|split; [reflexivity | discriminate]..].
    destruct (convertImageToPng_heic_ok B f w w1 c Hf Hrun) as (_ & _ & Hc).
    rewrite Hc. destruct fuel; split; try reflexivity; discriminate.
  - rewrite (getImageMetadata_plain (S fuel)), (getImageMetadata_plain 1)
      by exact Hf.
    split; [reflexivity|]. cbn [getImageMetadata]. rewrite Hf. discriminate.
Qed.

Lemma analyzeImageContent_total (fuel : nat) (f : File) (w : World) :
  analyzeImageContent B (S (S fuel)) f w = analyzeImageContent B 2 f w
  /\ analyzeImageContent B 2 f w <> None.
Proof.
  unfold analyzeImageContent.
  destruct (getImageMetadata_total fuel f w) as [-> Hsome].
  split; [reflexivity|].
  destruct (getImageMetadata B 2 f w) as [[w1 [m|message|]]|];
    [discriminate | discriminate | discriminate | congruence].
Qed.

End MetadataRuns.

(** C1 (as it holds).  [analyzeImageContent] always comes to an end, and
    whenever it returns a record for a file, its gender, age group and attire are decided by which words
    occur in the lowercased file name (female/woman/girl before
    male/man/boy; young/teen/junior before senior/elder/mature, otherwise
    adult; business/professional/corporate before formal/suit/dress before
    casual/tshirt/jeans); its setting is always unknown; and its quality is
    decided by the pixel size that [getImageMetadata] reports: high from
    1024 in both directions, medium from 512, low otherwise. *)
Theorem analyzeImageContent_fields (B : Browser) (f : File) (w : World) :
  (forall fuel,
      analyzeImageContent B (S (S fuel)) f w = analyzeImageContent B 2 f w)
  /\ analyzeImageContent B 2 f w <> None
  /\ forall w' r,
  analyzeImageContent B 2 f w = Some (w', Ok r) ->
  let filename := Js.toLowerCase (name f) in
  ((Mentions filename ["female"; "woman"; "girl"] -> gender r = female)
   /\ (~ Mentions filename ["female"; "woman"; "girl"] ->
       Mentions filename ["male"; "man"; "boy"] -> gender r = male)
   /\ (~ Mentions filename ["female"; "woman"; "girl"] ->
       ~ Mentions filename ["male"; "man"; "boy"] ->
       gender r = gender_unknown))
  /\ ((Mentions filename ["young"; "teen"; "junior"] -> ageGroup r = young)
      /\ (~ Mentions filename ["young"; "teen"; "junior"] ->
          Mentions filename ["senior"; "elder"; "mature"] ->
          ageGroup r = mature)
      /\ (~ Mentions filename ["young"; "teen"; "junior"] ->
          ~ Mentions filename ["senior"; "elder"; "mature"] ->
          ageGroup r = adult))
  /\ ((Mentions filename ["business"; "professional"; "corporate"] ->
       attire r = business)
      /\ (~ Mentions filename ["business"; "professional"; "corporate"] ->
          Mentions filename ["formal"; "suit"; "dress"] -> attire r = formal)
      /\ (~ Mentions filename ["business"; "professional"; "corporate"] ->
          ~ Mentions filename ["formal"; "suit"; "dress"] ->
          Mentions filename ["casual"; "tshirt"; "jeans"] -> attire r = casual)
      /\ (~ Mentions filename ["business"; "professional"; "corporate"] ->
          ~ Mentions filename ["formal"; "suit"; "dress"] ->
          ~ Mentions filename ["casual"; "tshirt"; "jeans"] ->
          attire r = attire_unknown))
  /\ setting r = setting_unknown
  /\ exists m,
       getImageMetadata B 2 f w = Some (w', Ok m)
       /\ ((1024 <= Meta.width m /\ 1024 <= Meta.height m)%Z -> quality r = high)
       /\ (~ (1024 <= Meta.width m /\ 1024 <= Meta.height m)%Z ->
           (512 <= Meta.width m /\ 512 <= Meta.height m)%Z ->
           quality r = medium)
       /\ (~ (512 <= Meta.width m /\ 512 <= Meta.height m)%Z -> quality r = low).
Proof.
  split; [intros fuel; apply analyzeImageContent_total|].
  split; [apply (analyzeImageContent_total B 0)|].
  intros w' r H filename. apply analyzeImageContent_inv in H.
  destruct H as (m & Hm & ->). cbn [gender ageGroup attire setting quality].
  split; [apply genderOf_spec|]. split; [apply ageGroupOf_spec|].
  split; [apply attireOf_spec|]. split; [reflexivity|].
  exists m. split; [exact Hm | apply qualityOf_spec].
Qed.

Lemma analyzeImageContent_fields_witness :
  exists w r,
    analyzeImageContent Example.browser 2 Example.plainPhoto Example.world0
    = Some (w, Ok r)
    /\ setting r = setting_unknown.
Proof.
  eexists; eexists. split; [vm_compute; reflexivity|].
  exact (proj1 (proj2 (proj2 (proj2
           (proj2 (proj2 (analyzeImageContent_fields Example.browser
                            Example.plainPhoto Example.world0))
              _ _ eq_refl))))).
Defined.

(** C1 as stated fails: no function of the lowercased file name gives the
    records returned.  Two files named portrait.png, one of 2048 x 2048
    pixels and one of 100 x 100, get the quality fields high and low. *)
Lemma analyzeImageContent_quality_counterexample :
  ~ AnalysisFromFilename Example.browser.
Proof.
  intros [fromName Hfrom].
  assert (Hlarge :
            {w' | analyzeImageContent Example.browser 2 Example.largePortrait
                    Example.world0
                  = Some (w', Ok (mkAnalysis gender_unknown adult attire_unknown
                                    setting_unknown high))})
    by (eexists; vm_compute; reflexivity).
  assert (Hsmall :
            {w' | analyzeImageContent Example.browser 2 Example.smallPortrait
                    Example.world0
                  = Some (w', Ok (mkAnalysis gender_unknown adult attire_unknown
                                    setting_unknown low))})
    by (eexists; vm_compute; reflexivity).
  destruct Hlarge as [w1 Hlarge]. destruct Hsmall as [w2 Hsmall].
  apply Hfrom in Hlarge. apply Hfrom in Hsmall.
  change (Js.toLowerCase (name Example.smallPortrait))
    with (Js.toLowerCase (name Example.largePortrait)) in Hsmall.
  rewrite <- Hlarge in Hsmall. discriminate.
Qed.

(* ================================================================== *)
(** * Further properties *)
(* ================================================================== *)

(** ** HEIC detection, upload validation and conversion *)

(** X1.  A file that [isHeicFile] recognises, by MIME type or by extension,
    always passes the type check of [validateFile]: it is accepted exactly
    when its size is between 1024 bytes and 20MB. *)
Theorem heic_files_pass_type_check (f : File) :
  isHeicFile f = true ->
  Uploader.isValidType f = true
  /\ (Uploader.validateFile f = None
      <-> (1024 <= size f <= 20 * 1024 * 1024)%Z).
Proof.
  intros Hheic.
  assert (Hvalid : Uploader.isValidType f = true).
  { unfold isHeicFile in Hheic. unfold Uploader.isValidType.
    apply orb_true_iff in Hheic. destruct Hheic as [Htype | Hext].
    - apply orb_true_iff in Htype.
      destruct Htype as [H|H]; apply String.eqb_eq in H; rewrite H; reflexivity.
    - apply orb_true_iff. right.
      unfold Js.matchesImageExtension, Js.imageExtensions.
      cbn [existsb append].
      apply orb_true_iff in Hext. destruct Hext as [H|H]; rewrite H;
        rewrite ?orb_true_r; reflexivity. }
  split; [exact Hvalid|].
  unfold Uploader.validateFile. rewrite Hvalid. cbn [negb].
  destruct (Z.gtb_spec (size f) (20 * 1024 * 1024)) as [Hbig|Hbig];
    [|destruct (Z.ltb_spec (size f) 1024) as [Hsmall|Hsmall]];
    split; intros Hgoal; try discriminate; try reflexivity; lia.
Qed.

Lemma heic_files_pass_type_check_witness :
  isHeicFile Example.heicPhoto = true
  /\ Uploader.validateFile Example.heicPhoto = None.
Proof.
  split; [reflexivity|].
  apply (proj2 (heic_files_pass_type_check Example.heicPhoto eq_refl)).
  cbn. lia.
Defined.

(** X2.  The two ways in which the code recognises a HEIC name agree: the
    case-insensitive pattern of the renaming changes a name exactly when
    its lowercased form ends in ".heic" or ".heif", and then it replaces
    the last five characters by ".png". *)
Theorem heic_extension_tests_agree (s : string) :
  (Js.replaceHeicExtension s <> s
   <-> Js.endsWith (Js.toLowerCase s) ".heic"
       || Js.endsWith (Js.toLowerCase s) ".heif" = true)
  /\ (Js.replaceHeicExtension s <> s ->
      exists stem e, s = stem ++ e /\ String.length e = 5%nat
                     /\ Js.replaceHeicExtension s = stem ++ ".png").
Proof.
  destruct (replaceHeicExtension_cases s)
    as [(stem & e & Hs & He & Hrep) | (Hrep & H1 & H2)].
  - assert (Hlen : String.length e = 5%nat) by now apply heicExtensionHere_length.
    assert (Hne : Js.replaceHeicExtension s <> s).
    { rewrite Hrep, Hs. intros Heq.
      apply (f_equal String.length) in Heq.
      rewrite !append_length, Hlen in Heq. simpl in Heq. lia. }
    split; [split; [intros _ | intros _; exact Hne]|].
    + subst s. rewrite toLowerCase_app.
      unfold Js.heicExtensionHere in He. apply orb_true_iff in He.
      apply orb_true_iff.
      destruct He as [He|He]; apply String.eqb_eq in He; rewrite He;
        [left | right]; apply endsWith_spec; eexists; reflexivity.
    + intros _. exists stem, e. repeat split; assumption.
  - split; [split|]; try (intros H; congruence).
    rewrite H1, H2. discriminate.
Qed.

(** [name.replace(/\.[^/.]+$/, '.png')] either rewrites an extension or
    leaves the name alone. *)
Lemma replaceAnyExtension_cases (s : string) :
  (exists stem, Js.replaceAnyExtension s = stem ++ ".png")
  \/ Js.replaceAnyExtension s = s.
Proof.
  induction s as [|c s IH]; [right; reflexivity|].
  cbn [Js.replaceAnyExtension].
  destruct (Js.anyExtensionHere (String c s)).
  - left. exists "". reflexivity.
  - fold Js.replaceAnyExtension. destruct IH as [[stem ->] | ->].
    + left. exists (String c stem). reflexivity.
    + right. reflexivity.
Qed.

Lemma convertImageToPng_plain_ok (B : Browser) (f : File) (w w' : World)
    (out : File) :
  isHeicFile f = false -> convertImageToPng B f w = (w', Ok out) ->
  name out = Js.replaceAnyExtension (name f) /\ type out = "image/png".
Proof.
  intros Hf. unfold convertImageToPng, bind, throw. rewrite Hf.
  destruct (validateImageFile B f w) as [w1 [[|]| |]]; cbn [negb];
    try discriminate.
  unfold convertPromise. intros Hrun. apply canvasPromise_ok in Hrun.
  destruct Hrun as (iw & ih & cw & ch & blob & d & _ & _ & _ & -> & _).
  split; reflexivity.
Qed.

(** X3.  Whatever file [convertImageToPng] returns, for a HEIC input as
    for any other, has the MIME type image/png and is no longer a HEIC file
    for [isHeicFile]; so the functions that convert and then call
    themselves on the result do so at most once. *)
Theorem convertImageToPng_returns_png (B : Browser) (f : File) (w w' : World)
    (out : File) :
  convertImageToPng B f w = (w', Ok out) ->
  type out = "image/png" /\ isHeicFile out = false.
Proof.
  intros Hrun. destruct (isHeicFile f) eqn:Hf.
  - destruct (convertImageToPng_heic_ok B f w w' out Hf Hrun) as (_ & H1 & H2).
    split; assumption.
  - destruct (convertImageToPng_plain_ok B f w w' out Hf Hrun) as [Hname Htype].
    split; [exact Htype|].
    unfold isHeicFile in *. rewrite Htype, Hname. cbn [String.eqb orb].
    apply orb_false_iff in Hf. destruct Hf as [_ Hext].
    destruct (replaceAnyExtension_cases (name f)) as [[stem ->] | ->].
    + destruct (png_is_not_heic stem) as [-> ->]. reflexivity.
    + change (Ascii.eqb _ _ && _) with false. exact Hext.
Qed.

Lemma convertImageToPng_returns_png_witness :
  exists w' out,
    convertImageToPng Example.browser Example.widePhoto Example.world0
    = (w', Ok out)
    /\ type out = "image/png".
Proof.
  eexists; eexists. split; [vm_compute; reflexivity|].
  exact (proj1 (convertImageToPng_returns_png Example.browser Example.widePhoto
                  Example.world0 _ _ eq_refl)).
Defined.

(** X4.  On a HEIC file the only error that [convertImageToPng] throws is
    the HEIC_NOT_SUPPORTED one: the HEIC_CONVERSION_FAILED error of
    [convertHeicToPng] and the errors of the native attempt never reach the
    caller.  The uploader answers it with the HEIC toast and keeps the
    message for its instructions panel. *)
Theorem heic_errors_are_not_supported (B : Browser) (f : File) (w w' : World)
    (message : string) :
  isHeicFile f = true ->
  convertImageToPng B f w = (w', Throw message) ->
  message = heicNotSupportedMessage
  /\ processingErrorToast message
     = ("HEIC conversion failed. See instructions below.", Some message).
Proof.
  intros Hf Hrun.
  assert (Hmsg : message = heicNotSupportedMessage).
  { unfold convertImageToPng in Hrun. rewrite Hf in Hrun.
    unfold tryCatch in Hrun.
    destruct (convertHeicToPng B f w) as [w1 [png|m1|]]; try discriminate.
    destruct (tryNativeHeicConversion B f w1) as [w2 [png|m2|]];
      try discriminate.
    unfold throw in Hrun. congruence. }
  split; [exact Hmsg|]. subst message. vm_compute. reflexivity.
Qed.

Lemma heic_errors_are_not_supported_witness :
  exists w',
    convertImageToPng Example.browser Example.brokenHeic Example.world0
    = (w', Throw heicNotSupportedMessage).
Proof.
  assert (Hrun : {p | convertImageToPng Example.browser Example.brokenHeic
                        Example.world0 = (fst p, Throw (snd p))})
    by (exists (mkWorld 160 2 [Heic2any Example.brokenHeic;
                                ImageSrc Example.brokenHeic],
                heicNotSupportedMessage); vm_compute; reflexivity).
  destruct Hrun as [[w' m] Hrun]. cbn [fst snd] in Hrun.
  exists w'.
  rewrite <- (proj1 (heic_errors_are_not_supported Example.browser
                       Example.brokenHeic Example.world0 w' m eq_refl Hrun)).
  exact Hrun.
Defined.

(** ** Metadata, waiting times and errors of the image utilities *)

Section MoreImageFacts.

Variable B : Browser.



(** A file without a picture of positive size fails validation. *)
Lemma validateImageFile_undecodable (f : File) (w : World) :
  Undecodable B f -> snd (validateImageFile B f w) = Ok false.
Proof.
  unfold Undecodable, validateImageFile, settle. intros Hbad.
  destruct (imageDelay B (asked w) f) as [d|]; [|reflexivity].
  destruct (loaded B (asked w) f) as [[iw ih]|] eqn:Hload;
    destruct (d <? 5000)%N; cbn [snd]; try reflexivity.
  apply loaded_intrinsic in Hload. rewrite Hload in Hbad.
  f_equal. apply andb_false_iff.
  destruct Hbad; [left | right]; rewrite Z.gtb_ltb; apply Z.ltb_ge; assumption.
Qed.

(** What a canvas promise can reject with. *)
Lemma canvasPromise_throws (f : File) (dims : Z -> Z -> Q * Q)
    (rename : string -> string) (msg : CanvasMessages) (w w' : World)
    (message : string) :
  canvasPromise B f dims rename msg w = (w', Throw message) ->
  message = timeoutError msg \/ message = noContext msg
  \/ message = noBlob msg \/ message = loadError msg
  \/ exists thrown, message = wrapError msg thrown.
Proof.
  unfold canvasPromise, settle. intros Hrun.
  destruct (imageDelay B (asked w) f) as [d0|];
    [|inversion Hrun; now left].
  destruct (loaded B (asked w) f) as [[iw ih]|];
    [|cbn [fst snd] in Hrun; destruct (d0 <? 10000)%N; inversion Hrun; tauto].
  destruct (dims iw ih) as [cw ch].
  destruct (context2d B); cbn [fst snd] in Hrun;
    [|destruct (d0 <? 10000)%N; inversion Hrun; tauto].
  destruct (drawImage B f cw ch) as [thrown|]; cbn [fst snd] in Hrun;
    [destruct (d0 <? 10000)%N; inversion Hrun; eauto 10|].
  destruct (toBlob B (asked w) f cw ch) as [[d' [blob|]]|];
    cbn [fst snd] in Hrun;
    try (destruct (d0 + d' <? 10000)%N); inversion Hrun; tauto.
Qed.

End MoreImageFacts.



(** X6.  On a HEIC file the only wait without a limit is the call of
    heic2any.  If the library never answers, [convertImageToPng],
    [optimizeImageSize] and [getImageMetadata] stay pending; if it answers
    after [d] milliseconds, whatever it answers, they come to an end at
    most 15000ms, 30000ms and 25000ms after that. *)
Theorem heic_paths_wait_only_for_library (B : Browser) (f : File)
    (maxWidth maxHeight : Q) (w : World) :
  isHeicFile f = true ->
  match heic2any B (asked w) f with
  | None =>
      snd (convertImageToPng B f w) = Hang
      /\ option_map snd (optimizeImageSize B 2 f maxWidth maxHeight w) = Some Hang
      /\ option_map snd (getImageMetadata B 2 f w) = Some Hang
  | Some (d, _) =>
      (snd (convertImageToPng B f w) <> Hang
       /\ (now (fst (convertImageToPng B f w)) <= now w + d + 15000)%N)
      /\ (exists w' r,
             optimizeImageSize B 2 f maxWidth maxHeight w = Some (w', r)
             /\ r <> Hang /\ (now w' <= now w + d + 30000)%N)
      /\ (exists w' r,
             getImageMetadata B 2 f w = Some (w', r)
             /\ r <> Hang /\ (now w' <= now w + d + 25000)%N)
  end.
Proof.
  intros Hf.
  assert (Hconv : match heic2any B (asked w) f with
                  | None => snd (convertImageToPng B f w) = Hang
                  | Some (d, _) =>
                      snd (convertImageToPng B f w) <> Hang
                      /\ (now (fst (convertImageToPng B f w)) <= now w + d + 15000)%N
                  end).
  { unfold convertImageToPng. rewrite Hf. unfold tryCatch.
    rewrite convertHeicToPng_run.
    destruct (heic2any B (asked w) f) as [[d [blob|[message|]]]|];
      cbn [fst snd now]; try reflexivity;
      try (split; [discriminate | lia]);
      match goal with
      | |- context [tryNativeHeicConversion B f ?w1] =>
          pose proof (tryNativeHeicConversion_settles B f w1) as [Htime Hend];
          destruct (tryNativeHeicConversion B f w1) as [w2 [png|m2|]];
          unfold throw; cbn [fst snd now] in *;
          (split; [congruence || discriminate | lia])
      end. }
  destruct (heic2any B (asked w) f) as [[d answer]|].
  - destruct Hconv as [Hend Htime]. split; [split; assumption|].
    cbn [optimizeImageSize getImageMetadata]. rewrite Hf.
    destruct (convertImageToPng B f w) as [w1 [c|message|]] eqn:Hrun;
      cbn [fst snd] in *; try congruence.
    + destruct (convertImageToPng_heic_ok B f w w1 c Hf Hrun) as (_ & _ & Hc).
      destruct (optimizeImageSize_settles B 0 c maxWidth maxHeight w1 Hc)
        as (w2 & r2 & H2 & T2 & E2).
      destruct (getImageMetadata_settles B 0 c w1 Hc)
        as (w3 & r3 & H3 & T3 & E3).
      split; [exists w2, r2 | exists w3, r3]; (split; [assumption|]);
        (split; [assumption | lia]).
    + split; eexists; eexists; (split; [reflexivity|]);
        (split; [discriminate | lia]).
  - split; [exact Hconv|].
    cbn [optimizeImageSize getImageMetadata]. rewrite Hf.
    destruct (convertImageToPng B f w) as [w1 [c|message|]];
      cbn [snd] in Hconv; try discriminate. split; reflexivity.
Qed.

Lemma heic_paths_wait_only_for_library_witness :
  isHeicFile Example.heicPhoto = true
  /\ exists w' r,
       optimizeImageSize Example.browser 2 Example.heicPhoto 1024 1024
         Example.world0 = Some (w', r)
       /\ r <> Hang /\ (now w' <= 0 + 120 + 30000)%N.
Proof.
  split; [reflexivity|].
  exact (proj1 (proj2 (heic_paths_wait_only_for_library Example.browser
                         Example.heicPhoto 1024 1024 Example.world0 eq_refl))).
Defined.

(** X7.  A file of which the browser cannot make a picture of positive
    width and height is turned away by validation: after one image load
    and at most 5000ms, without any canvas being drawn,
    [tryNativeHeicConversion] throws its "does not support HEIC" error,
    and on a file that is not HEIC [convertImageToPng], [optimizeImageSize]
    and [getImageMetadata] throw their "invalid" errors.  The uploader
    reports the first of these as a corrupted file, the second with its
    general message and the third as unreadable image information. *)
Theorem undecodable_files_are_turned_away (B : Browser) (f : File)
    (maxWidth maxHeight : Q) (w : World) :
  Undecodable B f ->
  let w1 := fst (validateImageFile B f w) in
  log w1 = (log w ++ [ImageSrc f])%list
  /\ (now w1 <= now w + 5000)%N
  /\ tryNativeHeicConversion B f w
     = (w1, Throw "Browser does not support HEIC format natively")
  /\ (isHeicFile f = false ->
      convertImageToPng B f w = (w1, Throw "Invalid or corrupted image file")
      /\ optimizeImageSize B 2 f maxWidth maxHeight w
         = Some (w1, Throw "Invalid image file for optimization")
      /\ getImageMetadata B 2 f w
         = Some (w1, Throw "Invalid image file for metadata extraction"))
  /\ fst (processingErrorToast "Invalid or corrupted image file")
     = "The image file appears to be corrupted or in an unsupported format. Please try a different image."
  /\ fst (processingErrorToast "Invalid image file for optimization")
     = "Failed to process image. Please try again."
  /\ fst (processingErrorToast "Invalid image file for metadata extraction")
     = "Unable to read image information. Please ensure the file is a valid image.".
Proof.
  intros Hbad w1.
  pose proof (validateImageFile_undecodable B f w Hbad) as Hfalse.
  pose proof (proj1 (validateImageFile_settles B f) w) as [Htime _].
  split; [reflexivity|]. split; [exact (proj2 Htime)|].
  subst w1.
  destruct (validateImageFile B f w) as [w1 r] eqn:Hvalid.
  cbn [fst snd] in *. subst r.
  split; [unfold tryNativeHeicConversion, bind; now rewrite Hvalid|].
  split; [|repeat split; vm_compute; reflexivity].
  intros Hf.
  split; [unfold convertImageToPng, bind; now rewrite Hf, Hvalid|].
  cbn [optimizeImageSize getImageMetadata]. rewrite Hf. unfold bind.
  rewrite Hvalid. split; reflexivity.
Qed.

Lemma undecodable_files_are_turned_away_witness :
  Undecodable Example.browser Example.brokenHeic
  /\ tryNativeHeicConversion Example.browser Example.brokenHeic Example.world0
     = (fst (validateImageFile Example.browser Example.brokenHeic Example.world0),
        Throw "Browser does not support HEIC format natively").
Proof.
  assert (Hbad : Undecodable Example.browser Example.brokenHeic) by exact I.
  split; [exact Hbad|].
  exact (proj1 (proj2 (proj2 (undecodable_files_are_turned_away Example.browser
                                Example.brokenHeic 1024 1024 Example.world0 Hbad)))).
Defined.

(** X8.  On a file that is not HEIC every error of [convertImageToPng] is
    one of seven.  The validation throws "Invalid or corrupted image file".
    The promise rejects with the loading timeout, with the load error (the
    second load of the file can fail although the first one, made by the
    validation, did not), with the missing canvas context, with the failed
    PNG export, or with an exception of the canvas wrapped as "Image
    processing failed: ...".  The seventh, "Image conversion failed: ...",
    wraps an exception thrown while the promise is set up; the embedding
    takes the creation of the canvas, the image and the object URL not to
    throw, so no run of it ends there.  The uploader reports the first
    four of these as a corrupted file, a timeout, a browser limitation and a
    failed PNG conversion, and the load error with its general message. *)
Theorem convertImageToPng_errors (B : Browser) (f : File) (w w' : World)
    (message : string) :
  isHeicFile f = false ->
  convertImageToPng B f w = (w', Throw message) ->
  (message = "Invalid or corrupted image file"
   /\ fst (processingErrorToast message)
      = "The image file appears to be corrupted or in an unsupported format. Please try a different image.")
  \/ (message = "Image loading timeout - file may be too large or corrupted"
      /\ fst (processingErrorToast message)
         = "Image processing timed out. The file may be too large. Please try a smaller image.")
  \/ (message = "Unable to get canvas rendering context"
      /\ fst (processingErrorToast message)
         = "Unable to process image due to browser limitations. Please try a different browser or smaller image.")
  \/ (message = "Failed to convert image to PNG format"
      /\ fst (processingErrorToast message)
         = "Failed to convert image to PNG format. Please try a different image or browser.")
  \/ (message
      = "Unable to load image - file may be corrupted or in an unsupported format"
      /\ fst (processingErrorToast message)
         = "Failed to process image. Please try again.")
  \/ (exists thrown, message = "Image processing failed: " ++ thrown)
  \/ (exists thrown, message = "Image conversion failed: " ++ thrown).
Proof.
  intros Hf. unfold convertImageToPng, bind, throw. rewrite Hf.
  destruct (validateImageFile B f w) as [w1 [[|]| |]] eqn:Hvalid;
    cbn [negb]; try discriminate.
  - unfold convertPromise. intros Hrun.
    apply canvasPromise_throws in Hrun.
    cbn [timeoutError noContext noBlob loadError wrapError convertMessages]
      in Hrun.
    destruct Hrun as [-> | [-> | [-> | [-> | [thrown ->]]]]].
    + right; left. split; vm_compute; reflexivity.
    + right; right; left. split; vm_compute; reflexivity.
    + right; right; right; left. split; vm_compute; reflexivity.
    + right; right; right; right; left. split; vm_compute; reflexivity.
    + right; right; right; right; right; left. exists thrown. reflexivity.
  - intros H. inversion H. left. split; vm_compute; reflexivity.
  - intros H. exfalso.
    unfold validateImageFile, settle in Hvalid.
    destruct (imageDelay B (asked w) f) as [d|];
      [destruct (loaded B (asked w) f) as [[iw ih]|]; destruct (d <? 5000)%N|];
      discriminate.
Qed.

Lemma convertImageToPng_errors_witness :
  isHeicFile Example.plainPhoto = false
  /\ exists w',
       convertImageToPng Sample.forgetful Example.plainPhoto Example.world0
       = (w', Throw "Unable to load image - file may be corrupted or in an unsupported format")
       /\ fst (processingErrorToast
                 "Unable to load image - file may be corrupted or in an unsupported format")
          = "Failed to process image. Please try again.".
Proof.
  split; [reflexivity|].
  assert (Hrun : {w' | convertImageToPng Sample.forgetful Example.plainPhoto
                         Example.world0
                       = (w', Throw "Unable to load image - file may be corrupted or in an unsupported format")})
    by (eexists; vm_compute; reflexivity).
  destruct Hrun as [w' Hrun]. exists w'. split; [exact Hrun|].
  destruct (convertImageToPng_errors Sample.forgetful Example.plainPhoto
              Example.world0 w' _ eq_refl Hrun)
    as [[E _] | [[E _] | [[E _] | [[E _] | [[_ Htoast] | [[t E] | [t E]]]]]]];
    try discriminate E.
  exact Htoast.
Defined.

(** ** Scores, recommendations and prompt lists *)

Lemma calculateQualityScore_sum (a : PersonAnalysis) (m : Meta.ImageMetadata) :
  Prompts.calculateQualityScore a m
  = Z.min 100 (resolutionPart m + ratioPart m + qualityPart a
               + sizePart m + attirePart a).
Proof.
  unfold Prompts.calculateQualityScore, resolutionPart, ratioPart, qualityPart,
    sizePart, attirePart.
  cbv zeta.
  destruct (quality a), (attire a); cbn [quality_eqb attire_eqb orb];
    repeat match goal with
           | |- context [if ?b then _ else _] => destruct b
           end; reflexivity.
Qed.

Lemma parts_bounds (a : PersonAnalysis) (m : Meta.ImageMetadata) :
  (10 <= resolutionPart m <= 40 /\ 5 <= ratioPart m <= 20
   /\ 5 <= qualityPart a <= 20 /\ 0 <= sizePart m <= 10
   /\ 0 <= attirePart a <= 10)%Z.
Proof.
  unfold resolutionPart, ratioPart, qualityPart, sizePart, attirePart.
  cbv zeta.
  destruct (quality a), (attire a);
    repeat match goal with
           | |- context [if ?b then _ else _] => destruct b
           end; lia.
Qed.

(** X9.  The score that the uploader shows in its quality badge lies
    between 45 and 100 and is never below the score of
    [calculateQualityScore], which decides whether recommendations are
    given; it is strictly higher unless both are 100. *)
Theorem upload_score_dominates (a : PersonAnalysis) (m : Meta.ImageMetadata) :
  (45 <= uploadQualityScore m a <= 100)%Z
  /\ (Prompts.calculateQualityScore a m <= uploadQualityScore m a)%Z
  /\ ((Prompts.calculateQualityScore a m < 100)%Z ->
      (Prompts.calculateQualityScore a m < uploadQualityScore m a)%Z).
Proof.
  rewrite calculateQualityScore_sum.
  pose proof (parts_bounds a m) as (_ & _ & _ & Hsize & _).
  assert (Hres : (resolutionPart m + 10
                  <= (if (Meta.width m >=? 512)%Z then 25 else 10)
                     + (if (Meta.height m >=? 512)%Z then 25 else 10))%Z
                 /\ (20 <= (if (Meta.width m >=? 512)%Z then 25 else 10)
                           + (if (Meta.height m >=? 512)%Z then 25 else 10)
                     <= 50)%Z).
  { unfold resolutionPart.
    destruct (Z.geb_spec (Meta.width m) 1024), (Z.geb_spec (Meta.height m) 1024),
      (Z.geb_spec (Meta.width m) 512), (Z.geb_spec (Meta.height m) 512);
      cbn [andb]; lia. }
  assert (Hqual : (qualityPart a + 5
                   <= (if quality_eqb (quality a) high then 30
                       else if quality_eqb (quality a) medium then 20 else 10))%Z
                  /\ (10 <= (if quality_eqb (quality a) high then 30
                             else if quality_eqb (quality a) medium then 20
                                  else 10) <= 30)%Z).
  { unfold qualityPart. destruct (quality a); cbn; lia. }
  assert (Hratio : (ratioPart m
                    <= (if Qle_bool (75 # 100) (Meta.aspectRatio m)
                           && Qle_bool (Meta.aspectRatio m) (133 # 100)
                        then 20 else 10))%Z
                   /\ (10 <= (if Qle_bool (75 # 100) (Meta.aspectRatio m)
                                 && Qle_bool (Meta.aspectRatio m) (133 # 100)
                              then 20 else 10) <= 20)%Z).
  { unfold ratioPart.
    repeat match goal with
           | |- context [if ?b then _ else _] => destruct b
           end; lia. }
  assert (Hattire : (attirePart a
                     <= (if attire_eqb (attire a) business
                            || attire_eqb (attire a) formal
                         then 10 else 5))%Z
                    /\ (5 <= (if attire_eqb (attire a) business
                                 || attire_eqb (attire a) formal
                              then 10 else 5) <= 10)%Z).
  { unfold attirePart. destruct (attire a); cbn; lia. }
  unfold uploadQualityScore. lia.
Qed.

(** X10.  For an analysis whose quality field is the one that
    [analyzeImageContent] computes from the metadata, a picture narrower or
    lower than 512 pixels scores at most 55 and therefore always gets the
    recommendation to use a higher resolution and the recommendation to
    use a clearer photo. *)
Theorem small_pictures_get_recommendations (a : PersonAnalysis)
    (m : Meta.ImageMetadata) :
  quality a = qualityOf m ->
  (Meta.width m < 512 \/ Meta.height m < 512)%Z ->
  (Prompts.calculateQualityScore a m <= 55)%Z
  /\ In "Use a higher resolution image (at least 512x512 pixels) for better results"
       (Prompts.getImageRecommendations a m)
  /\ In "Try using a clearer, well-lit photo for optimal AI generation"
       (Prompts.getImageRecommendations a m).
Proof.
  intros Hquality Hsmall.
  assert (Hlow : quality a = low).
  { rewrite Hquality. apply qualityOf_spec. lia. }
  assert (Hscore : (Prompts.calculateQualityScore a m <= 55)%Z).
  { rewrite calculateQualityScore_sum.
    pose proof (parts_bounds a m) as (_ & Hratio & _ & Hsize & Hattire).
    assert (Hres : resolutionPart m = 10%Z).
    { unfold resolutionPart.
      destruct (Z.geb_spec (Meta.width m) 1024), (Z.geb_spec (Meta.height m) 1024),
        (Z.geb_spec (Meta.width m) 512), (Z.geb_spec (Meta.height m) 512);
        cbn [andb]; try reflexivity; lia. }
    assert (Hq : qualityPart a = 5%Z) by (unfold qualityPart; now rewrite Hlow).
    lia. }
  split; [exact Hscore|].
  unfold Prompts.getImageRecommendations. cbv zeta.
  destruct (Z.ltb_spec (Prompts.calculateQualityScore a m) 70); [|lia].
  assert (Hcond : (Meta.width m <? 512)%Z || (Meta.height m <? 512)%Z = true).
  { apply orb_true_iff. destruct Hsmall; [left | right]; now apply Z.ltb_lt. }
  rewrite Hcond, Hlow. cbn [quality_eqb].
  split; [left; reflexivity|]. right. left. reflexivity.
Qed.

Lemma small_pictures_get_recommendations_witness :
  quality Sample.smallAnalysis = qualityOf Sample.smallMetadata
  /\ (Prompts.calculateQualityScore Sample.smallAnalysis Sample.smallMetadata
      <= 55)%Z.
Proof.
  split; [reflexivity|].
  refine (proj1 (small_pictures_get_recommendations Sample.smallAnalysis
                   Sample.smallMetadata eq_refl (or_introl _))).
  reflexivity.
Defined.

Lemma slice_from_start {A : Type} (xs : list A) (stop : Z) :
  (0 <= stop)%Z -> Js.slice xs 0 stop = firstn (Z.to_nat stop) xs.
Proof.
  intros Hstop. unfold Js.slice. cbv zeta.
  pose proof (Zle_0_nat (List.length xs)) as Hlen.
  rewrite (relIndex_nonneg _ 0 Hlen (Z.le_refl 0)).
  rewrite (relIndex_nonneg _ stop Hlen Hstop).
  rewrite (Z.min_l 0) by exact Hlen. cbn [Z.to_nat skipn]. rewrite Z.sub_0_r.
  destruct (Z.le_gt_cases stop (Z.of_nat (List.length xs))).
  - now rewrite Z.min_l by lia.
  - rewrite Z.min_r by lia. rewrite Nat2Z.id.
    rewrite firstn_all. symmetry. apply firstn_all2. lia.
Qed.

(** X11.  Asking for more headshots keeps the prompts already there: for
    counts 0 <= c <= c' the prompt list for [c] is the beginning of the
    list for [c'], whatever analysis and metadata are passed.  The style
    labels of [generateBatchPrompts] are the names of the style variations
    that the first min(c, 4) prompts are written from. *)
Theorem prompts_grow_with_count (c c' : Z) (a a' : PersonAnalysis)
    (m m' : Meta.ImageMetadata) :
  (0 <= c <= c')%Z ->
  Prompts.generateHeadshotPrompts a m c
  = firstn (Z.to_nat c) (Prompts.generateHeadshotPrompts a' m' c')
  /\ Prompts.generateHeadshotPrompts a m c
     = map Prompts.promptOf
         (firstn (Z.to_nat (Z.min c 6)) Prompts.styleVariations)
  /\ Prompts.suggestedStyles
       (Prompts.metadata (Prompts.generateBatchPrompts a m c))
     = map Prompts.style_name
         (firstn (Z.to_nat (Z.min c 4)) Prompts.styleVariations).
Proof.
  intros Hc.
  assert (Hprompts : forall k x y, (0 <= k)%Z ->
             Prompts.generateHeadshotPrompts x y k
             = map Prompts.promptOf
                 (firstn (Z.to_nat (Z.min k 6)) Prompts.styleVariations)).
  { intros k x y Hk. unfold Prompts.generateHeadshotPrompts.
    rewrite slice_from_start by (cbn; lia). reflexivity. }
  split; [|split].
  - rewrite !Hprompts by lia. rewrite <- firstn_map, <- firstn_map.
    rewrite firstn_firstn. f_equal. lia.
  - apply Hprompts. lia.
  - cbn [Prompts.generateBatchPrompts Prompts.metadata Prompts.suggestedStyles].
    rewrite slice_from_start by lia.
    destruct (Z.le_gt_cases c 4).
    + rewrite Z.min_l by lia.
      change ["Corporate Executive"; "Creative Professional";
              "LinkedIn Profile"; "Executive Portrait"]
        with (map Prompts.style_name (firstn 4 Prompts.styleVariations)).
      rewrite firstn_map, firstn_firstn. f_equal. f_equal. lia.
    + rewrite Z.min_r by lia. rewrite firstn_all2 by (cbn; lia). reflexivity.
Qed.

Lemma prompts_grow_with_count_witness :
  (0 <= 2 <= 5)%Z
  /\ Prompts.generateHeadshotPrompts Sample.smallAnalysis Sample.smallMetadata 2
     = firstn 2 (Prompts.generateHeadshotPrompts
                   (analysis Example.imageData) (metadata Example.imageData) 5).
Proof.
  split; [lia|].
  exact (proj1 (prompts_grow_with_count 2 5 _ _ _ _ ltac:(lia))).
Defined.

(** ** Download names *)

Section DownloadNames.

Local Open Scope string_scope.

Lemma digit_plain (c : ascii) :
  ((48 <=? nat_of_ascii c)%nat && (nat_of_ascii c <=? 57)%nat) = true ->
  isSpace c = false /\ Ascii.eqb c "-" = false.
Proof.
  intros H. apply andb_true_iff in H. destruct H as [H1 H2].
  apply Nat.leb_le in H1, H2. unfold isSpace. cbv zeta. split.
  - apply orb_false_iff. split; [apply orb_false_iff; split|].
    + apply andb_false_iff. right. apply Nat.leb_gt. lia.
    + apply Nat.eqb_neq. lia.
    + apply Nat.eqb_neq. lia.
  - apply Ascii.eqb_neq. intros ->. cbn in H1. lia.
Qed.

Lemma allDigits_plain (s : string) :
  allDigits s = true -> noSpace s = true /\ hasDash s = false.
Proof.
  induction s as [|c s IH]; cbn [allDigits noSpace hasDash];
    [split; reflexivity|].
  intros H. apply andb_true_iff in H. destruct H as [Hc Hs].
  destruct (digit_plain c Hc) as [-> ->]. destruct (IH Hs) as [-> ->].
  split; reflexivity.
Qed.

Lemma string_of_uint_digits (d : Decimal.uint) :
  allDigits (NilEmpty.string_of_uint d) = true.
Proof. induction d; cbn; assumption || reflexivity. Qed.

Lemma decimal_digits (z : Z) :
  (0 <= z)%Z -> allDigits (decimal z) = true.
Proof.
  intros Hz. unfold decimal. destruct z as [|p|p]; [reflexivity | | lia].
  cbn [Z.to_int NilZero.string_of_int]. unfold NilZero.string_of_uint.
  destruct (Pos.to_uint p); try reflexivity; apply string_of_uint_digits.
Qed.

Lemma decimal_inj (a b : Z) : decimal a = decimal b -> a = b.
Proof.
  unfold decimal. intros H.
  assert (Hnil : forall z, Z.to_int z <> Decimal.Pos Decimal.Nil
                           /\ Z.to_int z <> Decimal.Neg Decimal.Nil).
  { intros [|p|p]; cbn; split; try discriminate;
      intros E; inversion E;
      now apply (DecimalPos.Unsigned.to_uint_nonnil p). }
  apply (f_equal NilZero.int_of_string) in H.
  rewrite !NilZero.isi in H by apply Hnil.
  inversion H as [H']. apply (f_equal Z.of_int) in H'.
  now rewrite !DecimalZ.of_to in H'.
Qed.

Lemma noSpace_app (x y : string) :
  noSpace (x ++ y) = noSpace x && noSpace y.
Proof.
  induction x as [|c x IH]; cbn [append noSpace]; [reflexivity|].
  now rewrite IH, andb_assoc.
Qed.

Lemma hasDash_app (x y : string) :
  hasDash (x ++ y) = hasDash x || hasDash y.
Proof.
  induction x as [|c x IH]; cbn [append hasDash]; [reflexivity|].
  now rewrite IH, orb_assoc.
Qed.

(** After the replacement no white space is left. *)
Lemma replaceSpaceRuns_noSpace (inRun : bool) (s : string) :
  noSpace (replaceSpaceRuns inRun s) = true.
Proof.
  revert inRun. induction s as [|c s IH]; intros inRun;
    cbn [replaceSpaceRuns]; [reflexivity|].
  destruct (isSpace c) eqn:Hc; [destruct inRun|]; cbn [noSpace];
    rewrite ?IH, ?Hc; reflexivity.
Qed.

Lemma afterLastDash_app (x y : string) :
  hasDash y = false -> afterLastDash (x ++ String "-" y) = y.
Proof.
  intros Hy. induction x as [|c x IH]; cbn [append afterLastDash].
  - now rewrite Hy.
  - rewrite hasDash_app. cbn [hasDash]. rewrite Ascii.eqb_refl.
    cbn [orb]. rewrite orb_true_r. exact IH.
Qed.

Lemma append_cancel_r (x y a : string) : x ++ a = y ++ a -> x = y.
Proof.
  intros H. now destruct (same_length_suffix x y a a H eq_refl).
Qed.

End DownloadNames.

(** X12.  The file name that [downloadImage] gives to the image of a style
    at position [index] holds no white space, ends in ".jpg", and tells the
    position: two downloads at different positions never get the same name,
    whatever their styles, so the names that "Download All" asks for are
    pairwise different. *)
Theorem download_names_tell_positions (style : string) (index : Z) :
  (0 <= index)%Z ->
  noSpace (downloadName style index) = true
  /\ Js.endsWith (downloadName style index) ".jpg" = true
  /\ forall style' index',
       (0 <= index')%Z ->
       downloadName style index = downloadName style' index' ->
       index = index'.
Proof.
  intros Hindex.
  assert (Hshape : forall s i, (0 <= i)%Z ->
             downloadName s i
             = (replaceSpaceRuns false (Js.toLowerCase s) ++ "-headshot")
               ++ String "-" (decimal (i + 1) ++ ".jpg")
             /\ hasDash (decimal (i + 1) ++ ".jpg") = false
             /\ noSpace (decimal (i + 1)) = true).
  { intros s i Hi.
    destruct (allDigits_plain (decimal (i + 1)) (decimal_digits (i + 1) ltac:(lia)))
      as [Hspace Hdash].
    split; [|split; [|exact Hspace]].
    - unfold downloadName. rewrite append_assoc. reflexivity.
    - rewrite hasDash_app, Hdash. reflexivity. }
  destruct (Hshape style index Hindex) as (Hname & Hdash & Hspace).
  split; [|split].
  - unfold downloadName. rewrite !noSpace_app, replaceSpaceRuns_noSpace, Hspace.
    reflexivity.
  - apply endsWith_spec.
    exists (replaceSpaceRuns false (Js.toLowerCase style) ++ "-headshot-"
            ++ decimal (index + 1)).
    unfold downloadName. now rewrite !append_assoc.
  - intros style' index' Hindex' Heq.
    destruct (Hshape style' index' Hindex') as (Hname' & Hdash' & _).
    rewrite Hname, Hname' in Heq.
    apply (f_equal afterLastDash) in Heq.
    rewrite !afterLastDash_app in Heq by assumption.
    apply append_cancel_r, decimal_inj in Heq. lia.
Qed.

Lemma download_names_tell_positions_witness :
  (0 <= 2)%Z /\ noSpace (downloadName "LinkedIn Profile" 2) = true.
Proof.
  split; [lia|].
  exact (proj1 (download_names_tell_positions "LinkedIn Profile" 2 ltac:(lia))).
Defined.

Example downloadName_linkedin :
  downloadName "LinkedIn  Profile" 2 = "linkedin-profile-headshot-3.jpg".
Proof. vm_compute. reflexivity. Qed.

(** ** Regeneration and generation: what happens to the gallery *)

Section Gallery.

Variable service : Service.

Lemma SameImages_refl (ui : Ui) : SameImages ui ui.
Proof. split; reflexivity. Qed.

Lemma SameImages_trans (a b c : Ui) :
  SameImages a b -> SameImages b c -> SameImages a c.
Proof. intros [H1 H2] [H3 H4]. split; congruence. Qed.

Lemma KeepsImages_ret {A : Type} (a : A) : KeepsImages (@ret Ui A a).
Proof. intros ui. apply SameImages_refl. Qed.

Lemma KeepsImages_throw {A : Type} (message : string) :
  KeepsImages (@throw Ui A message).
Proof. intros ui. apply SameImages_refl. Qed.

Lemma KeepsImages_bind {A C : Type} (m : St Ui A) (k : A -> St Ui C) :
  KeepsImages m -> (forall a, KeepsImages (k a)) -> KeepsImages (bind m k).
Proof.
  intros Hm Hk ui. specialize (Hm ui). unfold bind.
  destruct (m ui) as [ui1 [a| |]]; cbn [fst] in *; try assumption.
  apply (SameImages_trans ui ui1); [assumption | apply Hk].
Qed.

Lemma KeepsImages_tryCatch {A : Type} (m : St Ui A) (h : string -> St Ui A) :
  KeepsImages m -> (forall message, KeepsImages (h message)) ->
  KeepsImages (tryCatch m h).
Proof.
  intros Hm Hh ui. specialize (Hm ui). unfold tryCatch.
  destruct (m ui) as [ui1 [a|message|]]; cbn [fst] in *; try assumption.
  apply (SameImages_trans ui ui1); [assumption | apply Hh].
Qed.

Lemma KeepsImages_awaitModifyImage (request : Request) :
  KeepsImages (awaitModifyImage service request).
Proof.
  intros ui. split; reflexivity.
Qed.

Lemma KeepsImages_awaitBatch (imageUrl : string) (styles : list string) (i : Z)
    (chunk : list string) :
  KeepsImages (awaitBatch service imageUrl styles i chunk).
Proof.
  intros ui. split; reflexivity.
Qed.

Lemma KeepsImages_httpsUrl (imageData : ProcessedImageData) :
  KeepsImages (httpsUrl service imageData).
Proof.
  unfold httpsUrl.
  destruct (negb (Js.startsWith (url imageData) "https://"));
    [|apply KeepsImages_ret].
  intros ui. split; reflexivity.
Qed.

Lemma KeepsImages_retryIndividually (imageUrl : string) (styles : list string)
    (i : Z) (entries : list (Z * string)) (images : list GeneratedImage) :
  KeepsImages (retryIndividually service imageUrl styles i entries images).
Proof.
  revert images. induction entries as [|[batchIndex p] rest IH]; intros images.
  - apply KeepsImages_ret.
  - cbn [retryIndividually]. apply KeepsImages_bind; [|intros a; apply IH].
    apply KeepsImages_tryCatch; [|intros message; apply KeepsImages_throw].
    apply KeepsImages_bind; [apply KeepsImages_awaitModifyImage|].
    intros u. apply KeepsImages_ret.
Qed.

Lemma batchLoop_keeps_images (fuel : nat) (imageUrl : string)
    (styles prompts : list string) (i : Z) (images : list GeneratedImage)
    (ui ui' : Ui) (r : Result (list GeneratedImage)) :
  batchLoop service fuel imageUrl styles prompts i images ui = Some (ui', r) ->
  SameImages ui ui'.
Proof.
  revert i images ui. induction fuel as [|fuel IH]; intros i images ui;
    cbn [batchLoop]; destruct (i <? Z.of_nat (List.length prompts))%Z;
    try discriminate;
    try (intros H; inversion H; apply SameImages_refl).
  match goal with
  | |- context [match ?m ui with _ => _ end] =>
      assert (Hiter : KeepsImages m);
      [|specialize (Hiter ui); destruct (m ui) as [ui1 [images1|message|]]]
  end.
  { apply KeepsImages_bind.
    - apply KeepsImages_tryCatch.
      + apply KeepsImages_bind;
          [apply KeepsImages_awaitBatch | intros; apply KeepsImages_ret].
      + intros message. apply KeepsImages_retryIndividually.
    - intros images1. apply KeepsImages_bind; [|intros; apply KeepsImages_ret].
      destruct (i + batchSize <? Z.of_nat (List.length prompts))%Z;
        [intros u; split; reflexivity | apply KeepsImages_ret]. }
  - intros H. apply IH in H. cbn [fst] in Hiter.
    now apply (SameImages_trans ui ui1).
  - intros H. inversion H; subst. exact Hiter.
  - intros H. inversion H; subst. exact Hiter.
Qed.

(** *** [regenerateImage] *)

Lemma indexed_map_other {A C : Type} (g : A -> C) (index : Z) (new : A)
    (from : Z) (prev : list A) :
  (forall k x, nth_error prev k = Some x -> (from + Z.of_nat k = index)%Z ->
               g new = g x) ->
  map g (map (fun ji : Z * A => if (fst ji =? index)%Z then new else snd ji)
           (indexed from prev))
  = map g prev.
Proof.
  revert from. induction prev as [|x prev IH]; intros from Hsame;
    cbn [indexed map fst snd]; [reflexivity|].
  f_equal.
  - destruct (Z.eqb_spec from index) as [Heq|Hne]; [|reflexivity].
    apply (Hsame 0%nat x); [reflexivity | lia].
  - apply IH. intros k y Hk Hpos. apply (Hsame (S k) y); [exact Hk | lia].
Qed.

Lemma indexed_nth_other {A : Type} (index : Z) (new : A) (from : Z)
    (prev : list A) (k : nat) :
  (from + Z.of_nat k <> index)%Z ->
  nth_error (map (fun ji : Z * A => if (fst ji =? index)%Z then new else snd ji)
               (indexed from prev)) k
  = nth_error prev k.
Proof.
  revert from k. induction prev as [|x prev IH]; intros from k Hne;
    destruct k as [|k]; cbn [indexed map nth_error fst snd]; try reflexivity.
  - destruct (Z.eqb_spec from index); [lia | reflexivity].
  - apply IH. lia.
Qed.

(** The list after [regenerateImage]: untouched, or the old one with a new
    URL at [index]. *)
Lemma regenerateImage_images (imageData : option ProcessedImageData)
    (index : Z) (ui : Ui) :
  generatedImages (regenerateImage service imageData index ui)
  = generatedImages ui
  \/ exists old u,
       (0 <= index)%Z
       /\ nth_error (generatedImages ui) (Z.to_nat index) = Some old
       /\ generatedImages (regenerateImage service imageData index ui)
          = replaceAt index
              (mkGenerated u (image_style old) (image_prompt old)
                 (image_index old))
              (generatedImages ui).
Proof.
  unfold regenerateImage. destruct imageData as [imageData|]; [|now left].
  destruct (Z.ltb_spec index 0) as [Hneg|Hpos]; [now left|].
  destruct (nth_error (generatedImages ui) (Z.to_nat index)) as [old|] eqn:Hold;
    [|now left].
  unfold bind.
  pose proof (KeepsImages_httpsUrl imageData
                (act (ToastLoading "Regenerating image...") ui)) as [Hurl _].
  destruct (httpsUrl service imageData
              (act (ToastLoading "Regenerating image...") ui))
    as [ui1 [imageUrl|message|]]; cbn [fst act generatedImages] in Hurl;
    try (left; cbn [act generatedImages]; exact Hurl).
  pose proof (KeepsImages_awaitModifyImage
                (requestFor imageUrl (image_prompt old)) ui1) as [Hmod _].
  destruct (awaitModifyImage service (requestFor imageUrl (image_prompt old)) ui1)
    as [ui2 [u|message|]]; cbn [fst] in Hmod;
    try (left; cbn [act generatedImages]; congruence).
  right. exists old, u. repeat split; try assumption.
  cbn [act setGeneratedImages generatedImages]. rewrite Hmod, Hurl. reflexivity.
Qed.

End Gallery.

(** X13.  [regenerateImage] never changes how many images there are, nor
    the style, the prompt or the position number of any image, nor any
    image other than the one at [index]: at most the URL of that one is
    new.  Without an uploaded image, or for an index outside the list, it
    does nothing at all. *)
Theorem regenerateImage_keeps_gallery (service : Service)
    (imageData : option ProcessedImageData) (index : Z) (ui : Ui) :
  let ui' := regenerateImage service imageData index ui in
  map tagOfImage (generatedImages ui') = map tagOfImage (generatedImages ui)
  /\ List.length (generatedImages ui') = List.length (generatedImages ui)
  /\ (forall k, Z.of_nat k <> index ->
                nth_error (generatedImages ui') k
                = nth_error (generatedImages ui) k)
  /\ (imageData = None \/ (index < 0)%Z
      \/ (Z.of_nat (List.length (generatedImages ui)) <= index)%Z ->
      ui' = ui).
Proof.
  intros ui'.
  assert (Hlist : map tagOfImage (generatedImages ui')
                  = map tagOfImage (generatedImages ui)
                  /\ forall k, Z.of_nat k <> index ->
                               nth_error (generatedImages ui') k
                               = nth_error (generatedImages ui) k).
  { destruct (regenerateImage_images service imageData index ui)
      as [Hsame | (old & u & Hpos & Hold & Hnew)]; fold ui' in Hsame || fold ui' in Hnew.
    - rewrite Hsame. split; reflexivity.
    - rewrite Hnew. unfold replaceAt. split.
      + apply indexed_map_other. intros k x Hk Hat.
        assert (k = Z.to_nat index) by lia. subst k.
        rewrite Hold in Hk. inversion Hk. reflexivity.
      + intros k Hk. apply indexed_nth_other. lia. }
  destruct Hlist as [Htags Hothers].
  split; [exact Htags|]. split; [|split; [exact Hothers|]].
  - apply (f_equal (@List.length _)) in Htags. now rewrite !length_map in Htags.
  - subst ui'. unfold regenerateImage.
    intros [-> | [Hneg | Hout]]; [reflexivity | |];
      destruct imageData as [imageData|]; try reflexivity.
    + destruct (Z.ltb_spec index 0); [reflexivity | lia].
    + destruct (Z.ltb_spec index 0); [reflexivity|].
      replace (nth_error (generatedImages ui) (Z.to_nat index))
        with (@None GeneratedImage); [reflexivity|].
      symmetry. apply nth_error_None. lia.
Qed.

Example regenerateImage_second :
  generatedImages
    (regenerateImage Sample.reliable (Some Example.imageData) 1 Sample.gallery)
  = [Sample.firstImage;
     mkGenerated "https://cdn.example/out-5" "Creative Professional"
       "another prompt" 1].
Proof. vm_compute. reflexivity. Qed.

(** ** Generation: the requests spent and the busy flag *)

Section Generation.

Variable service : Service.

Lemma indexed_length {A : Type} (from : Z) (xs : list A) :
  List.length (indexed from xs) = List.length xs.
Proof.
  revert from. induction xs as [|x xs IH]; intros from; cbn [indexed List.length];
    [reflexivity | now rewrite IH].
Qed.

Lemma Within_refl (ui : Ui) : Within 0 ui ui.
Proof. exists []. split; [now rewrite app_nil_r | cbn; lia]. Qed.

Lemma Within_trans (a b : nat) (u1 u2 u3 : Ui) :
  Within a u1 u2 -> Within b u2 u3 -> Within (a + b) u1 u3.
Proof.
  intros (n1 & H1 & L1) (n2 & H2 & L2). exists (n1 ++ n2)%list.
  split; [now rewrite H2, H1, app_assoc|].
  rewrite requestsOf_app, length_app. lia.
Qed.

Lemma Within_le (a b : nat) (u1 u2 : Ui) :
  (a <= b)%nat -> Within a u1 u2 -> Within b u1 u2.
Proof. intros Hle (new & H & L). exists new. split; [exact H | lia]. Qed.

Lemma Within_step (k : nat) (ui ui' : Ui) (a : Action) :
  actions ui' = (actions ui ++ [a])%list ->
  (List.length (requestsOf [a]) <= k)%nat -> Within k ui ui'.
Proof. intros H L. exists [a]. split; assumption. Qed.

Lemma Within_same_actions (ui ui' : Ui) :
  actions ui' = actions ui -> Within 0 ui ui'.
Proof. intros H. exists []. split; [now rewrite app_nil_r | cbn; lia]. Qed.

Lemma Spends_ret {A : Type} (a : A) : Spends 0 (@ret Ui A a).
Proof. intros ui. apply Within_refl. Qed.

Lemma Spends_throw {A : Type} (message : string) :
  Spends 0 (@throw Ui A message).
Proof. intros ui. apply Within_refl. Qed.

Lemma Spends_bind {A C : Type} (a b : nat) (m : St Ui A) (k : A -> St Ui C) :
  Spends a m -> (forall x, Spends b (k x)) -> Spends (a + b) (bind m k).
Proof.
  intros Hm Hk ui. specialize (Hm ui). unfold bind.
  destruct (m ui) as [ui1 [x| |]]; cbn [fst] in *;
    try (apply (Within_le a); [lia | assumption]).
  apply (Within_trans a b ui ui1); [assumption | apply Hk].
Qed.

Lemma Spends_tryCatch {A : Type} (a b : nat) (m : St Ui A)
    (h : string -> St Ui A) :
  Spends a m -> (forall message, Spends b (h message)) ->
  Spends (a + b) (tryCatch m h).
Proof.
  intros Hm Hh ui. specialize (Hm ui). unfold tryCatch.
  destruct (m ui) as [ui1 [x|message|]]; cbn [fst] in *;
    try (apply (Within_le a); [lia | assumption]).
  apply (Within_trans a b ui ui1); [assumption | apply Hh].
Qed.

Lemma Spends_le {A : Type} (a b : nat) (m : St Ui A) :
  (a <= b)%nat -> Spends a m -> Spends b m.
Proof. intros Hle Hm ui. apply (Within_le a); [exact Hle | apply Hm]. Qed.

Lemma Spends_awaitModifyImage (request : Request) :
  Spends 1 (awaitModifyImage service request).
Proof.
  intros ui. cbn [awaitModifyImage fst].
  eapply Within_step; [reflexivity | cbn; lia].
Qed.

Lemma Spends_awaitBatch (imageUrl : string) (styles : list string) (i : Z)
    (chunk : list string) :
  Spends (List.length chunk) (awaitBatch service imageUrl styles i chunk).
Proof.
  intros ui. cbn [awaitBatch fst].
  eapply Within_step; [reflexivity|].
  cbn [requestsOf flat_map]. rewrite app_nil_r, length_map. lia.
Qed.

Lemma Spends_retryIndividually (imageUrl : string) (styles : list string)
    (i : Z) (entries : list (Z * string)) (images : list GeneratedImage) :
  Spends (List.length entries)
    (retryIndividually service imageUrl styles i entries images).
Proof.
  revert images. induction entries as [|[batchIndex p] rest IH]; intros images.
  - apply Spends_ret.
  - cbn [retryIndividually List.length].
    change (S (List.length rest)) with (1 + List.length rest)%nat.
    apply Spends_bind; [|intros a; apply IH].
    change 1%nat with (1 + 0)%nat.
    apply Spends_tryCatch; [|intros message; apply Spends_throw].
    change 1%nat with (1 + 0)%nat.
    apply Spends_bind; [apply Spends_awaitModifyImage|].
    intros u. apply Spends_ret.
Qed.

Lemma Spends_httpsUrl (imageData : ProcessedImageData) :
  Spends 0 (httpsUrl service imageData).
Proof.
  unfold httpsUrl.
  destruct (negb (Js.startsWith (url imageData) "https://"));
    [|apply Spends_ret].
  intros ui. cbn [fst].
  eapply Within_step; [reflexivity | cbn; lia].
Qed.

Lemma Spends_delay (ms : Z) : Spends 0 (delay ms).
Proof.
  intros ui. cbn [delay fst]. eapply Within_step; [reflexivity | cbn; lia].
Qed.

(** The loop entered at prompt [k] sends at most two requests for each
    prompt that is left: one in its batch, one in the retry. *)
Lemma batchLoop_spends (fuel : nat) (imageUrl : string)
    (styles prompts : list string) (k : nat) (images : list GeneratedImage)
    (ui ui' : Ui) (r : Result (list GeneratedImage)) :
  batchLoop service fuel imageUrl styles prompts (Z.of_nat k) images ui
  = Some (ui', r) ->
  Within (2 * (List.length prompts - k)) ui ui'.
Proof.
  revert k images ui. induction fuel as [|fuel IH]; intros k images ui;
    cbn [batchLoop];
    destruct (Z.ltb_spec (Z.of_nat k) (Z.of_nat (List.length prompts)))
      as [Hin|Hout];
    try discriminate;
    try (intros H; inversion H; subst;
         apply (Within_le 0); [lia | apply Within_refl]).
  rewrite slice_pair by lia. rewrite Nat2Z.id.
  set (chunk := firstn 2 (skipn k prompts)).
  assert (Hchunk : (List.length chunk <= 2
                    /\ List.length chunk <= List.length prompts - k)%nat)
    by (unfold chunk; rewrite length_firstn, length_skipn; lia).
  match goal with
  | |- context [match ?m ui with _ => _ end] =>
      assert (Hiter : Spends (2 * List.length chunk) m);
      [|specialize (Hiter ui); destruct (m ui) as [ui1 [images1|message|]]]
  end.
  { replace (2 * List.length chunk)%nat
      with ((List.length chunk + List.length chunk) + (0 + 0))%nat by lia.
    apply Spends_bind.
    - apply Spends_tryCatch.
      + replace (List.length chunk) with (List.length chunk + 0)%nat at 1 by lia.
        apply Spends_bind;
          [apply Spends_awaitBatch | intros; apply Spends_ret].
      + intros message. rewrite <- (indexed_length 0 chunk) at 1.
        apply Spends_retryIndividually.
    - intros images1. apply Spends_bind; [|intros; apply Spends_ret].
      destruct (Z.of_nat k + batchSize <? Z.of_nat (List.length prompts))%Z;
        [apply Spends_delay | apply Spends_ret]. }
  - cbn [fst] in Hiter.
    replace (Z.of_nat k + batchSize)%Z with (Z.of_nat (k + 2))
      by (unfold batchSize; lia).
    intros H. apply IH in H.
    apply (Within_le (2 * List.length chunk + 2 * (List.length prompts - (k + 2)))).
    + unfold chunk in *. rewrite length_firstn, length_skipn in *. lia.
    + now apply (Within_trans _ _ ui ui1).
  - intros H. inversion H; subst. cbn [fst] in Hiter.
    apply (Within_le (2 * List.length chunk)); [lia | exact Hiter].
  - intros H. inversion H; subst. cbn [fst] in Hiter.
    apply (Within_le (2 * List.length chunk)); [lia | exact Hiter].
Qed.

Lemma slice_length_le {A : Type} (xs : list A) (start stop : Z) :
  (List.length (Js.slice xs start stop) <= List.length xs)%nat.
Proof.
  unfold Js.slice. cbv zeta. rewrite length_firstn, length_skipn. lia.
Qed.

Lemma prompts_at_most (a : PersonAnalysis) (m : Meta.ImageMetadata) (count : Z) :
  (List.length (Prompts.prompts (Prompts.generateBatchPrompts a m count)) <= 6)%nat
  /\ ((0 <= count)%Z ->
      (List.length (Prompts.prompts (Prompts.generateBatchPrompts a m count))
       <= Z.to_nat count)%nat).
Proof.
  cbn [Prompts.generateBatchPrompts Prompts.prompts].
  unfold Prompts.generateHeadshotPrompts. rewrite length_map. split.
  - apply (slice_length_le Prompts.styleVariations).
  - intros Hcount.
    pose proof (slice_from_start_length Prompts.styleVariations
                  (Z.min count
                     (Z.of_nat (List.length Prompts.styleVariations))))
      as Hlen.
    cbn [Prompts.styleVariations List.length] in Hlen |- *.
    specialize (Hlen ltac:(lia)). lia.
Qed.

Lemma generateHeadshotsTry_spends (imageData : ProcessedImageData) (count : Z)
    (ui ui' : Ui) (r : Result (list GeneratedImage)) :
  generateHeadshotsTry service imageData count ui = Some (ui', r) ->
  Within (2 * List.length
                (Prompts.prompts
                   (Prompts.generateBatchPrompts (analysis imageData)
                      (metadata imageData) count))) ui ui'.
Proof.
  unfold generateHeadshotsTry.
  match goal with
  | |- context [httpsUrl service imageData ?u] =>
      pose proof (Spends_httpsUrl imageData u) as Hurl;
      assert (Htoast : Within 0 ui u)
        by (eapply Within_step; [reflexivity | cbn; lia]);
      destruct (httpsUrl service imageData u) as [ui1 [imageUrl|message|]]
  end; cbn [fst] in Hurl;
    pose proof (Within_trans _ _ _ _ _ Htoast Hurl) as Hstart;
    cbn [Nat.add] in Hstart;
    try (intros H; inversion H; subst;
         apply (Within_le 0); [lia | exact Hstart]).
  match goal with
  | |- context [batchLoop service ?fu imageUrl ?st ?pr 0%Z [] ui1] =>
      pose proof (batchLoop_spends fu imageUrl st pr 0 [] ui1) as Hloop;
      change (Z.of_nat 0) with 0%Z in Hloop;
      destruct (batchLoop service fu imageUrl st pr 0%Z [] ui1)
        as [[ui2 [images|message|]]|]
  end; try discriminate;
    specialize (Hloop _ _ eq_refl); rewrite Nat.sub_0_r in Hloop;
    pose proof (Within_trans _ _ _ _ _ Hstart Hloop) as Hall;
    cbn [Nat.add] in Hall.
  - destruct (Z.of_nat (List.length images) =? 0)%Z;
      intros H; inversion H; subst; exact Hall.
  - intros H; inversion H; subst; exact Hall.
  - intros H; inversion H; subst; exact Hall.
Qed.

Lemma generateHeadshotsTry_keeps_images (imageData : ProcessedImageData)
    (count : Z) (ui ui' : Ui) (r : Result (list GeneratedImage)) :
  generateHeadshotsTry service imageData count ui = Some (ui', r) ->
  SameImages ui ui'.
Proof.
  unfold generateHeadshotsTry.
  match goal with
  | |- context [httpsUrl service imageData ?u] =>
      pose proof (KeepsImages_httpsUrl service imageData u) as Hurl;
      destruct (httpsUrl service imageData u) as [ui1 [imageUrl|message|]]
  end; cbn [fst] in Hurl;
    try (intros H; inversion H; subst; exact Hurl).
  match goal with
  | |- context [batchLoop service ?fu imageUrl ?st ?pr 0%Z [] ui1] =>
      pose proof (batchLoop_keeps_images service fu imageUrl st pr 0%Z [] ui1)
        as Hloop;
      destruct (batchLoop service fu imageUrl st pr 0%Z [] ui1)
        as [[ui2 [images|message|]]|]
  end; try discriminate; specialize (Hloop _ _ eq_refl);
    pose proof (SameImages_trans _ _ _ Hurl Hloop) as Hall.
  - destruct (Z.of_nat (List.length images) =? 0)%Z;
      intros H; inversion H; subst; exact Hall.
  - intros H; inversion H; subst; exact Hall.
  - intros H; inversion H; subst; exact Hall.
Qed.

Lemma generateHeadshotsTry_nonempty (imageData : ProcessedImageData)
    (count : Z) (ui ui' : Ui) (images : list GeneratedImage) :
  generateHeadshotsTry service imageData count ui = Some (ui', Ok images) ->
  images <> [].
Proof.
  unfold generateHeadshotsTry.
  match goal with
  | |- context [httpsUrl service imageData ?u] =>
      destruct (httpsUrl service imageData u) as [ui1 [imageUrl|message|]]
  end; try discriminate.
  match goal with
  | |- context [batchLoop service ?fu imageUrl ?st ?pr 0%Z [] ui1] =>
      destruct (batchLoop service fu imageUrl st pr 0%Z [] ui1)
        as [[ui2 [images2|message|]]|]
  end; try discriminate.
  destruct (Z.eqb_spec (Z.of_nat (List.length images2)) 0) as [|Hsome];
    [discriminate|].
  intros H. inversion H; subst. intros ->. now apply Hsome.
Qed.

(** *** Runs in which every call is answered *)

Lemma promiseAll_settles {A : Type} (outcomes : list (Result A)) :
  Forall (fun r => r <> Hang) outcomes -> promiseAll outcomes <> Hang.
Proof.
  induction 1 as [|r rest Hr _ IH]; cbn [promiseAll]; [discriminate|].
  destruct r as [a|message|]; [|discriminate|congruence].
  destruct (promiseAll rest); [discriminate | discriminate | congruence].
Qed.

Hypothesis answers : forall k, settles service k = true.

Lemma answered_settles {A : Type} (k : nat) (answer : option A)
    (message : string) :
  answered service k answer message <> Hang.
Proof. unfold answered. rewrite answers. destruct answer; discriminate. Qed.

Lemma Settles_ret {A : Type} (a : A) : Settles (@ret Ui A a).
Proof. intros ui. discriminate. Qed.

Lemma Settles_throw {A : Type} (message : string) :
  Settles (@throw Ui A message).
Proof. intros ui. discriminate. Qed.

Lemma Settles_bind {A C : Type} (m : St Ui A) (k : A -> St Ui C) :
  Settles m -> (forall a, Settles (k a)) -> Settles (bind m k).
Proof.
  intros Hm Hk ui. specialize (Hm ui). unfold bind.
  destruct (m ui) as [ui1 [a|message|]]; cbn [snd] in *;
    [apply Hk | discriminate | congruence].
Qed.

Lemma Settles_tryCatch {A : Type} (m : St Ui A) (h : string -> St Ui A) :
  Settles m -> (forall message, Settles (h message)) -> Settles (tryCatch m h).
Proof.
  intros Hm Hh ui. specialize (Hm ui). unfold tryCatch.
  destruct (m ui) as [ui1 [a|message|]]; cbn [snd] in *;
    [discriminate | apply Hh | congruence].
Qed.

Lemma Settles_awaitModifyImage (request : Request) :
  Settles (awaitModifyImage service request).
Proof. intros ui. cbn [awaitModifyImage snd]. apply answered_settles. Qed.

Lemma Settles_awaitBatch (imageUrl : string) (styles : list string) (i : Z)
    (chunk : list string) :
  Settles (awaitBatch service imageUrl styles i chunk).
Proof.
  intros ui. cbn [awaitBatch snd]. apply promiseAll_settles.
  apply Forall_map, Forall_forall. intros jr _.
  match goal with
  | |- thenMap _ ?r <> Hang =>
      pose proof (answered_settles
                    (calls ui + Z.to_nat (fst jr))
                    (modifyImage service (calls ui + Z.to_nat (fst jr))
                       (requestFor imageUrl (snd jr)))
                    "modifyImage failed") as Hr;
      destruct r; [discriminate | discriminate | congruence]
  end.
Qed.

Lemma Settles_httpsUrl (imageData : ProcessedImageData) :
  Settles (httpsUrl service imageData).
Proof.
  unfold httpsUrl.
  destruct (negb (Js.startsWith (url imageData) "https://"));
    [|apply Settles_ret].
  intros ui. cbn [snd]. apply answered_settles.
Qed.

Lemma Settles_retryIndividually (imageUrl : string) (styles : list string)
    (i : Z) (entries : list (Z * string)) (images : list GeneratedImage) :
  Settles (retryIndividually service imageUrl styles i entries images).
Proof.
  revert images. induction entries as [|[batchIndex p] rest IH]; intros images.
  - apply Settles_ret.
  - cbn [retryIndividually]. apply Settles_bind; [|intros a; apply IH].
    apply Settles_tryCatch; [|intros message; apply Settles_throw].
    apply Settles_bind; [apply Settles_awaitModifyImage|].
    intros u. apply Settles_ret.
Qed.

Lemma batchLoop_settles (fuel : nat) (imageUrl : string)
    (styles prompts : list string) (i : Z) (images : list GeneratedImage)
    (ui ui' : Ui) :
  batchLoop service fuel imageUrl styles prompts i images ui <> Some (ui', Hang).
Proof.
  revert i images ui. induction fuel as [|fuel IH]; intros i images ui;
    cbn [batchLoop]; destruct (i <? Z.of_nat (List.length prompts))%Z;
    try discriminate.
  match goal with
  | |- context [match ?m ui with _ => _ end] =>
      assert (Hiter : Settles m);
      [|specialize (Hiter ui); destruct (m ui) as [ui1 [images1|message|]]]
  end.
  { apply Settles_bind.
    - apply Settles_tryCatch.
      + apply Settles_bind;
          [apply Settles_awaitBatch | intros; apply Settles_ret].
      + intros message. apply Settles_retryIndividually.
    - intros images1. apply Settles_bind; [|intros; apply Settles_ret].
      destruct (i + batchSize <? Z.of_nat (List.length prompts))%Z;
        [intros u; discriminate | apply Settles_ret]. }
  - apply IH.
  - discriminate.
  - cbn [snd] in Hiter. congruence.
Qed.

Lemma generateHeadshotsTry_settles (imageData : ProcessedImageData)
    (count : Z) (ui ui' : Ui) :
  generateHeadshotsTry service imageData count ui <> Some (ui', Hang).
Proof.
  unfold generateHeadshotsTry.
  match goal with
  | |- context [httpsUrl service imageData ?u] =>
      pose proof (Settles_httpsUrl imageData u) as Hurl;
      destruct (httpsUrl service imageData u) as [ui1 [imageUrl|message|]]
  end; cbn [snd] in Hurl; [|discriminate|congruence].
  match goal with
  | |- context [batchLoop service ?fu imageUrl ?st ?pr 0%Z [] ui1] =>
      pose proof (batchLoop_settles fu imageUrl st pr 0%Z [] ui1) as Hloop;
      destruct (batchLoop service fu imageUrl st pr 0%Z [] ui1)
        as [[ui2 [images|message|]]|]
  end; try discriminate.
  - destruct (Z.of_nat (List.length images) =? 0)%Z; discriminate.
  - intros H. apply (Hloop ui2). reflexivity.
Qed.

End Generation.

(** X14.  [generateHeadshots] on an uploaded image turns the busy flag on
    and turns it off again only at the end of the run.  If every call of
    the service is answered, the run ends and the busy flag is off.  When
    the busy flag is off, the last thing shown is the failure toast, with
    the gallery as it was, or the success toast, which names the number of
    images added to the gallery, at least one.  The calls have no timer:
    when the busy flag is still on, the run waits for an answer, and the
    gallery is as it was. *)
Theorem generateHeadshots_busy_flag (service : Service)
    (imageData : ProcessedImageData) (count : Z) (ui : Ui) :
  exists ui',
    generateHeadshots service (Some imageData) count ui = Some ui'
    /\ ((forall k, settles service k = true) -> isGenerating ui' = false)
    /\ (isGenerating ui' = false ->
        exists before,
          (generatedImages ui' = generatedImages ui
           /\ actions ui'
              = (before
                 ++ [ToastError "Failed to generate headshots. Please try again."])%list)
          \/ exists added,
               added <> []
               /\ generatedImages ui' = (generatedImages ui ++ added)%list
               /\ actions ui'
                  = (before
                     ++ [ToastSuccess
                           ("Successfully transformed your photo into "
                            ++ decimal (Z.of_nat (List.length added))
                            ++ " professional headshots!")])%list)
    /\ (isGenerating ui' = true -> generatedImages ui' = generatedImages ui).
Proof.
  unfold generateHeadshots.
  pose proof (generateHeadshotsTry_total service imageData count
                (setIsGenerating true ui)) as Htotal.
  destruct (generateHeadshotsTry service imageData count
              (setIsGenerating true ui)) as [[ui1 r]|] eqn:Hrun;
    [clear Htotal | congruence].
  pose proof (generateHeadshotsTry_keeps_images _ _ _ _ _ _ Hrun)
    as [Hsame Hbusy].
  cbn [setIsGenerating generatedImages isGenerating] in Hsame, Hbusy.
  destruct r as [images|message|]; eexists; (split; [reflexivity|]).
  - split; [reflexivity|]. split; [|discriminate].
    intros _. exists (actions ui1). right. exists images.
    split; [exact (generateHeadshotsTry_nonempty _ _ _ _ _ _ Hrun)|].
    split; [|reflexivity].
    cbn [setIsGenerating act setGeneratedImages generatedImages].
    now rewrite Hsame.
  - split; [reflexivity|]. split; [|discriminate].
    intros _. exists (actions ui1). left. split; [exact Hsame | reflexivity].
  - split; [|split].
    + intros Hanswers. exfalso.
      exact (generateHeadshotsTry_settles service Hanswers _ _ _ _ Hrun).
    + intros Hoff. congruence.
    + intros _. exact Hsame.
Qed.

(** X15.  Whatever the service answers and whatever count is asked for, a
    run of [generateHeadshots] sends at most twelve image-modification
    requests, whether it comes to its end or waits for an answer, and for a
    count [n >= 0] at most [2 * n]: one per prompt in its batch and at most
    one more in the individual retry.  Without an uploaded image it sends
    none and only shows the toast 'Please upload an image first'. *)
Theorem generateHeadshots_request_budget (service : Service)
    (imageData : option ProcessedImageData) (count : Z) (ui : Ui) :
  exists ui',
    generateHeadshots service imageData count ui = Some ui'
    /\ Within 12 ui ui'
    /\ ((0 <= count)%Z -> Within (2 * Z.to_nat count) ui ui')
    /\ (imageData = None ->
        ui' = act (ToastError "Please upload an image first") ui).
Proof.
  destruct imageData as [imageData|]; cbn [generateHeadshots].
  - pose proof (generateHeadshotsTry_total service imageData count
                  (setIsGenerating true ui)) as Htotal.
    destruct (generateHeadshotsTry service imageData count
                (setIsGenerating true ui)) as [[ui1 r]|] eqn:Hrun;
      [clear Htotal | congruence].
    apply generateHeadshotsTry_spends in Hrun.
    destruct (prompts_at_most (analysis imageData) (metadata imageData) count)
      as [Hsix Hcount].
    assert (Hend : forall ui2, actions ui2 = actions ui1 \/
                               (exists a, actions ui2 = (actions ui1 ++ [a])%list
                                          /\ requestsOf [a] = []) ->
              Within 12 ui ui2
              /\ ((0 <= count)%Z -> Within (2 * Z.to_nat count) ui ui2)).
    { intros ui2 Hlast.
      assert (Htail : Within 0 ui1 ui2).
      { destruct Hlast as [Hlast | (a & Hlast & Hnone)].
        - now apply Within_same_actions.
        - eapply Within_step; [exact Hlast | rewrite Hnone; cbn; lia]. }
      assert (Hstart : Within 0 ui (setIsGenerating true ui))
        by (apply Within_same_actions; reflexivity).
      pose proof (Within_trans _ _ _ _ _ (Within_trans _ _ _ _ _ Hstart Hrun)
                    Htail) as Hall.
      split; [|intros Hpos; specialize (Hcount Hpos)];
        (eapply Within_le; [|exact Hall]); lia. }
    destruct r as [images|message|]; eexists; (split; [reflexivity|]);
      (split; [|split; [|discriminate]]); apply Hend;
      try (left; reflexivity); right; eexists;
      (split; [reflexivity | reflexivity]).
  - eexists. split; [reflexivity|].
    assert (Hnone : Within 0 ui (act (ToastError "Please upload an image first") ui))
      by (eapply Within_step; [reflexivity | cbn; lia]).
    split; [|split; [intros _|reflexivity]];
      (eapply Within_le; [|exact Hnone]); lia.
Qed.

(** With an upload that is answered and a second modification call that
    is not, the run stays where it waits for the first batch: the busy flag
    is on and nothing more is shown. *)
Example generateHeadshots_pending :
  option_map (fun ui => (isGenerating ui, actions ui))
    (generateHeadshots Sample.stalling (Some Example.imageData) 4 Example.ui0)
  = Some (true,
          [ToastLoading "Transforming your photo into 4 professional headshots...";
           Batch [Example.request 0; Example.request 1]]).
Proof. vm_compute. reflexivity. Qed.
